(** * Enrich2 / CountESS: the memoized scoring pipeline of [Selection]

    A shallow embedding of [enrich2/selection/selection.py].  The HDF5
    store of a [Selection] is a finite map from key strings to data
    frames; every method of the class that touches the store is a
    computation in a small state-and-exception monad over that map.  The
    stores of the child [SeqLib] objects are only read by the code
    embedded here, so each child carries its store as a value. *)

From Stdlib Require Import ZArith Floats.
From stdpp Require Import gmap strings list sorting pretty.

Open Scope Z_scope.
Open Scope string_scope.

(** ** Python exceptions and results *)

Inductive exn :=
| ValueError (msg : string)
| KeyError (msg : string)
| TypeError (msg : string)
| AttributeError (msg : string)
| IndexError (msg : string)
| UnboundLocalError (msg : string)
| ZeroDivisionError (msg : string).

Inductive result (A : Type) :=
| Ok (a : A)
| Raise (e : exn).
Arguments Ok {A} a.
Arguments Raise {A} e.

Definition is_ok {A} (r : result A) : bool :=
  match r with Ok _ => true | Raise _ => false end.

Global Instance result_ret : MRet result := @Ok.
Global Instance result_bind : MBind result := λ A B k r,
  match r with Ok a => k a | Raise e => Raise e end.
Global Instance result_fmap : FMap result := λ A B f r,
  match r with Ok a => Ok (f a) | Raise e => Raise e end.

(** A loop that updates one variable and may raise. *)
Fixpoint fold_result {A B} (f : B → A → result B) (xs : list A) (b : B)
  : result B :=
  match xs with
  | [] => Ok b
  | x :: xs' => b' ← f b x; fold_result f xs' b'
  end.

(** ** Data frames

    A cell is a missing value, a count, a floating-point statistic or a
    string.  Counts are kept as integers: the cast [astype(float)] that
    the code applies to count tables changes their representation, not
    their value, and is the identity on [Num]. *)

Inductive cell :=
| NaN
| Num (z : Z)
| Flt (x : float)
| Str (s : string).

Definition isnull (c : cell) : bool :=
  match c with
  | NaN => true
  | Flt x => PrimFloat.is_nan x
  | _ => false
  end.

(** A frame has column labels and rows in storage order; a row is its
    index label and one cell per column. *)
Record DataFrame := mkDF {
  columns : list string;
  rows : list (string * list cell)
}.

Definition index (df : DataFrame) : list string := (rows df).*1.

Definition df_empty (df : DataFrame) : bool :=
  match rows df, columns df with
  | [], _ | _, [] => true
  | _, _ => false
  end.

(** [df.loc[e]] on a frame with unique labels: the first row labelled [e]. *)
Fixpoint row_lookup (e : string) (rs : list (string * list cell))
  : option (list cell) :=
  match rs with
  | [] => None
  | (k, cs) :: rs' => if decide (k = e) then Some cs else row_lookup e rs'
  end.

Definition loc (df : DataFrame) (e : string) : option (list cell) :=
  row_lookup e (rows df).

(** Position of a column label. *)
Fixpoint col_pos (c : string) (cols : list string) : option nat :=
  match cols with
  | [] => None
  | c' :: cols' =>
      if decide (c' = c) then Some 0%nat else S <$> col_pos c cols'
  end.

(** [df.loc[e, c]]: [None] when the row or the column does not exist. *)
Definition at_ (df : DataFrame) (e c : string) : option cell :=
  cs ← loc df e; i ← col_pos c (columns df); cs !! i.

(** [df.dropna(axis="index", how="any")] *)
Definition dropna_any (df : DataFrame) : DataFrame :=
  mkDF (columns df)
       (filter (λ r, forallb (λ c, negb (isnull c)) r.2 = true) (rows df)).

(** [df.dropna(axis="index", how="all")] *)
Definition dropna_all (df : DataFrame) : DataFrame :=
  mkDF (columns df)
       (filter (λ r, forallb isnull r.2 = false) (rows df)).

(** [df.astype(float)]: a string cell cannot be cast. *)
Definition cell_is_str (c : cell) : bool :=
  match c with Str _ => true | _ => false end.

Definition astype_float (df : DataFrame) : result DataFrame :=
  if existsb (λ r, existsb cell_is_str r.2) (rows df)
  then Raise (ValueError "could not convert string to float")
  else Ok df.

(** ** The store monad *)

Abbreviation HDFStore := (gmap string DataFrame).

Definition M (A : Type) : Type := HDFStore → result A * HDFStore.

Definition ret {A} (a : A) : M A := λ st, (Ok a, st).
Definition raise {A} (e : exn) : M A := λ st, (Raise e, st).
Definition bind {A B} (m : M A) (k : A → M B) : M B :=
  λ st, match m st with
        | (Ok a, st') => k a st'
        | (Raise e, st') => (Raise e, st')
        end.
Definition lift {A} (r : result A) : M A := λ st, (r, st).

Notation "x ←ₘ m ;; k" := (bind m (λ x, k))
  (at level 100, m at next level, right associativity).
Notation "m ;;ₘ k" := (bind m (λ _, k))
  (at level 100, right associativity).

(** [for x in xs: body x] *)
Fixpoint for_each {A} (xs : list A) (body : A → M unit) : M unit :=
  match xs with
  | [] => ret tt
  | x :: xs' => body x ;;ₘ for_each xs' body
  end.

(** [key in store] / [key in store.keys()] *)
Definition store_contains (key : string) : M bool :=
  λ st, (Ok (bool_decide (is_Some (st !! key))), st).

(** [store.select(key)] and [store[key]] *)
Definition store_select (key : string) : M DataFrame :=
  λ st, match st !! key with
        | Some df => (Ok df, st)
        | None => (Raise (KeyError key), st)
        end.

(** [store.put(key, df, format="table", ...)]: write-replace *)
Definition store_put (key : string) (df : DataFrame) : M unit :=
  λ st, (Ok tt, <[key := df]> st).

(** [store.remove(key)] *)
Definition store_remove (key : string) : M unit :=
  λ st, match st !! key with
        | Some _ => (Ok tt, delete key st)
        | None => (Raise (KeyError key), st)
        end.

(** [store.append(key, df, ...)]: creates the table, or adds the rows of
    [df] after those already stored. *)
Definition store_append (key : string) (df : DataFrame) : M unit :=
  λ st, match st !! key with
        | Some old =>
            (Ok tt, <[key := mkDF (columns old) (rows old ++ rows df)]> st)
        | None => (Ok tt, <[key := df]> st)
        end.

(** ** Sequencing libraries and the selection *)

Inductive SeqLibKind :=
| BasicSeqLib | BarcodeSeqLib | BcvSeqLib | BcidSeqLib | IdOnlySeqLib.

Global Instance SeqLibKind_eq_dec : EqDecision SeqLibKind.
Proof. solve_decision. Defined.

Record SeqLib := mkSeqLib {
  lib_name : string;
  lib_kind : SeqLibKind;
  lib_wt : option string;          (* the wild type sequence, if any *)
  lib_is_coding : bool;
  lib_validate : result unit;      (* the outcome of [lib.validate()] *)
  lib_store : HDFStore
}.

Record Selection := mkSelection {
  name : string;
  libraries : gmap Z (list SeqLib);
  barcode_maps : list string;      (* keys of the parsed map-file cache *)
  labels : list string;
  scoring_method : string;
  logr_method : string;
  chunksize : Z;
  force_recalculate : bool;
  component_outliers : bool
}.

Definition timepoints (self : Selection) : list Z :=
  merge_sort Z.le (elements (dom (libraries self))).

Definition libraries_at (self : Selection) (tp : Z) : list SeqLib :=
  default [] (libraries self !! tp).

Definition name_le (a b : SeqLib) : Prop := String.le (lib_name a) (lib_name b).
Global Instance name_le_dec : RelDecision name_le.
Proof. intros a b. unfold name_le. apply _. Defined.

Definition children (self : Selection) : list SeqLib :=
  tp ← timepoints self; merge_sort name_le (libraries_at self tp).

(** The libraries in the order of
    [[lib for tp in self.timepoints for lib in self.libraries[tp]]]. *)
Definition libs_by_timepoint (self : Selection) : list SeqLib :=
  tp ← timepoints self; libraries_at self tp.

Definition is_barcodevariant (self : Selection) : bool :=
  forallb (λ lib, bool_decide (lib_kind lib = BcvSeqLib)) (children self)
  && bool_decide (length (barcode_maps self) = 1%nat).

Definition is_barcodeid (self : Selection) : bool :=
  forallb (λ lib, bool_decide (lib_kind lib = BcidSeqLib)) (children self)
  && bool_decide (length (barcode_maps self) = 1%nat).

Definition is_coding (self : Selection) : bool :=
  forallb lib_is_coding (children self).

Definition lib_has_wt_sequence (lib : SeqLib) : bool :=
  bool_decide (is_Some (lib_wt lib)).

Definition has_wt_sequence (self : Selection) : bool :=
  forallb lib_has_wt_sequence (children self).

(** ** Store keys *)

Definition main_key (label table : string) : string :=
  "/main/" +:+ label +:+ "/" +:+ table.

Definition counts_unfiltered_key (label : string) : string :=
  main_key label "counts_unfiltered".
Definition counts_key (label : string) : string := main_key label "counts".
Definition scores_key (label : string) : string := main_key label "scores".
Definition outliers_key (label : string) : string := main_key label "outliers".
Definition barcodemap_key : string := "/main/barcodemap".
Definition raw_barcodemap_key : string := "/raw/barcodemap".

Definition count_column (tp : Z) : string := "c_" +:+ pretty tp.

(** Modelled from the spec: [StoreManager.check_store] is not part of the
    sources at hand.  A stage "returns immediately if the [...] table
    already exists in the store (unless a force-recompute flag is set)":
    the check answers whether the key exists and recomputation is not
    forced. *)
Definition check_store (self : Selection) (key : string) : M bool :=
  present ←ₘ store_contains key ;;
  ret (present && negb (force_recalculate self)).

(** ** Filter *)

Definition filter_counts (self : Selection) (label : string) : M unit :=
  let valid_type := is_barcodeid self || is_barcodevariant self in
  df ←ₘ (if valid_type && negb (bool_decide (label = "barcodes"))
         then store_select (counts_unfiltered_key label)
         else store_select (counts_unfiltered_key label)) ;;
  let df := dropna_any df in
  df' ←ₘ lift (astype_float df) ;;
  store_put (counts_key label) df'.

(** ** Frame operations used by the aggregator *)

(** [pd.Index.union]: the distinct labels of both, sorted. *)
Definition index_union (a b : list string) : list string :=
  merge_sort String.le (remove_dups (a ++ b)).

(** [pd.Index.intersection] *)
Definition index_intersection (a b : list string) : list string :=
  merge_sort String.le (remove_dups (list_intersection a b)).

Definition nan_row (df : DataFrame) : list cell :=
  replicate (length (columns df)) NaN.

Definition cell_or_nan (df : DataFrame) (e c : string) : cell :=
  default NaN (at_ df e c).

(** A count, which is a non-negative machine integer, as a float. *)
Definition float_of_count (z : Z) : float :=
  PrimFloat.of_uint63 (Uint63.of_Z z).

(** One cell of [a.add(b, fill_value=0)]: a value missing on one side only
    is replaced by zero. *)
Definition add_fill (a b : cell) : result cell :=
  match a, b with
  | Str _, _ | _, Str _ =>
      Raise (TypeError "unsupported operand type(s) for +")
  | NaN, NaN => Ok NaN
  | Num x, Num y => Ok (Num (x + y))
  | Num x, NaN => Ok (Num (x + 0))
  | NaN, Num y => Ok (Num (0 + y))
  | Flt x, Flt y => Ok (Flt (x + y)%float)
  | Flt x, NaN => Ok (Flt (x + 0)%float)
  | NaN, Flt y => Ok (Flt (0 + y)%float)
  | Num x, Flt y => Ok (Flt (float_of_count x + y)%float)
  | Flt x, Num y => Ok (Flt (x + float_of_count y)%float)
  end.

Fixpoint all_ok {A} (rs : list (result A)) : result (list A) :=
  match rs with
  | [] => Ok []
  | r :: rs' => a ← r; as' ← all_ok rs'; Ok (a :: as')
  end.

(** [c.add(o, fill_value=0)]: both axes are aligned on the union of the
    labels. *)
Definition frame_add_fill (c o : DataFrame) : result DataFrame :=
  let cols := index_union (columns c) (columns o) in
  rs ← all_ok (map (λ e,
          cs ← all_ok (map (λ col,
                  add_fill (cell_or_nan c e col) (cell_or_nan o e col)) cols);
          Ok (e, cs))
        (index_union (index c) (index o)));
  Ok (mkDF cols rs).

(** [df.columns = new] *)
Definition set_columns (df : DataFrame) (new : list string)
  : result DataFrame :=
  if decide (length new = length (columns df))
  then Ok (mkDF new (rows df))
  else Raise (ValueError "Length mismatch").

(** [l.join(r, how="outer")] without suffixes. *)
Definition frame_join_outer (l r : DataFrame) : result DataFrame :=
  if bool_decide (list_intersection (columns l) (columns r) = [])
  then Ok (mkDF (columns l ++ columns r)
             (map (λ e, (e, (default (nan_row l) (loc l e)
                             ++ default (nan_row r) (loc r e))%list))
                  (index_union (index l) (index r))))
  else Raise (ValueError "columns overlap but no suffix specified").

(** Reads from the store of a child. *)
Definition lib_select (lib : SeqLib) (key : string) : result DataFrame :=
  match lib_store lib !! key with
  | Some df => Ok df
  | None => Raise (KeyError key)
  end.

(** [lib.store.select_column(key, 'index')] *)
Definition lib_select_column_index (lib : SeqLib) (key : string)
  : result (list string) :=
  index <$> lib_select lib key.

(** [lib.store.select(key, "index = index_chunk")] *)
Definition lib_select_where (lib : SeqLib) (key : string)
    (index_chunk : list string) : result DataFrame :=
  df ← lib_select lib key;
  Ok (mkDF (columns df) (filter (λ r, r.1 ∈ index_chunk) (rows df))).

(** [range(0, stop, step)] *)
Definition py_range (stop step : Z) : result (list Z) :=
  if decide (step = 0)
  then Raise (ValueError "range() arg 3 must not be zero")
  else if decide (step < 0) then Ok []
  else Ok (map (λ k : nat, Z.of_nat k * step)
               (seq 0 (Z.to_nat ((stop + step - 1) `div` step)))).

(** [l[i:j]] for [0 <= i <= j] *)
Definition slice {A} (l : list A) (i j : Z) : list A :=
  take (Z.to_nat (j - i)) (drop (Z.to_nat i) l).

(** ** Aggregator *)

(** The complete index: all elements of the label in any library. *)
Definition build_complete_index (self : Selection) (lib_table : string)
  : result (list string) :=
  fold_result
    (λ complete_index lib,
       idx ← lib_select_column_index lib lib_table;
       Ok (index_union complete_index idx))
    (libs_by_timepoint self) [].

(** The summed counts of one timepoint for one chunk, as column [c_<tp>]. *)
Definition merge_timepoint (self : Selection) (lib_table : string)
    (index_chunk : list string) (tp : Z) : result DataFrame :=
  match libraries_at self tp with
  | [] => Raise (IndexError "list index out of range")
  | lib0 :: others =>
      c ← lib_select_where lib0 lib_table index_chunk;
      c ← fold_result
            (λ c lib,
               o ← lib_select_where lib lib_table index_chunk;
               frame_add_fill c o)
            others c;
      set_columns c [count_column tp]
  end.

(** The body of the loop over the timepoints of one chunk; [tp_frame] is
    the local variable of that name, unbound ([None]) until timepoint 0 is
    met. *)
Definition merge_chunk_step (self : Selection) (lib_table : string)
    (index_chunk : list string) (tp_frame : option DataFrame) (tp : Z)
  : result (option DataFrame) :=
  c ← merge_timepoint self lib_table index_chunk tp;
  if decide (tp = 0) then Ok (Some c)
  else match tp_frame with
       | None => Raise (UnboundLocalError "tp_frame")
       | Some f => Some <$> frame_join_outer f c
       end.

Definition merge_chunk (self : Selection) (lib_table : string)
    (index_chunk : list string) (tp_frame : option DataFrame)
  : result (option DataFrame) :=
  fold_result (merge_chunk_step self lib_table index_chunk)
    (timepoints self) tp_frame.

Fixpoint merge_chunks (self : Selection) (label lib_table : string)
    (complete_index : list string) (starts : list Z)
    (tp_frame : option DataFrame) : M unit :=
  match starts with
  | [] => ret tt
  | i :: starts' =>
      let index_chunk :=
        if decide (chunksize self < Z.of_nat (length complete_index))
        then slice complete_index i (i + chunksize self)
        else complete_index in
      tp_frame ←ₘ lift (merge_chunk self lib_table index_chunk tp_frame) ;;
      match tp_frame with
      | None => raise (UnboundLocalError "tp_frame")
      | Some f =>
          present ←ₘ store_contains (counts_unfiltered_key label) ;;
          f' ←ₘ lift (astype_float f) ;;
          (if present
           then store_append (counts_unfiltered_key label) f'
           else store_append (counts_unfiltered_key label) f') ;;ₘ
          merge_chunks self label lib_table complete_index starts' tp_frame
      end
  end.

(** [Selection.merge_counts_unfiltered].  The calls [lib.calculate()] on
    the children are memoized and write to the children's own stores only;
    each [SeqLib] record holds its store as it is after that call.  The
    width [max_index_length] of the stored labels is storage metadata and
    is left out. *)
Definition merge_counts_unfiltered (self : Selection) (label : string)
  : M unit :=
  found ←ₘ check_store self (counts_unfiltered_key label) ;;
  if found then ret tt else
  let destination := counts_unfiltered_key label in
  present ←ₘ store_contains destination ;;
  (if present then store_remove destination else ret tt) ;;ₘ
  let lib_table := counts_key label in
  complete_index ←ₘ lift (build_complete_index self lib_table) ;;
  starts ←ₘ lift (py_range (Z.of_nat (length complete_index))
                           (chunksize self)) ;;
  merge_chunks self label lib_table complete_index starts None.

(** ** BarcodeMapMerger *)

(** Replaces the cell at position [i] of a row. *)
Definition set_cell (i : nat) (v : cell) (cs : list cell) : list cell :=
  <[i := v]> cs.

(** [df[c]]: the cells of a column, in row order. *)
Definition get_col (df : DataFrame) (c : string) : result (list cell) :=
  match col_pos c (columns df) with
  | Some i => Ok (map (λ r, default NaN (r.2 !! i)) (rows df))
  | None => Raise (KeyError c)
  end.

(** [df.drop(c, axis="columns")] *)
Definition drop_col (df : DataFrame) (c : string) : result DataFrame :=
  match col_pos c (columns df) with
  | Some i => Ok (mkDF (delete i (columns df))
                       (map (λ r, (r.1, delete i r.2)) (rows df)))
  | None => Raise (KeyError c)
  end.

(** [l.join(r, rsuffix=sfx, how="outer")]: a column of [r] whose label
    is also a column of [l] takes the suffix. *)
Definition frame_join_outer_rsuffix (l r : DataFrame) (sfx : string)
  : DataFrame :=
  mkDF (columns l
          ++ map (λ c, if decide (c ∈ columns l) then c +:+ sfx else c)
               (columns r))%list
       (map (λ e, (e, (default (nan_row l) (loc l e)
                        ++ default (nan_row r) (loc r e))%list))
            (index_union (index l) (index r))).

(** The three statements that follow the join in [combine_barcode_maps]:
    where [value] is null it takes the cell of [value.drop], and the
    column [value.drop] is dropped. *)
Definition fill_value_from_drop (bcm : DataFrame) : result DataFrame :=
  match col_pos "value" (columns bcm),
        col_pos "value.drop" (columns bcm) with
  | Some i, Some j =>
      drop_col
        (mkDF (columns bcm)
           (map (λ r,
              if isnull (default NaN (r.2 !! i))
              then (r.1, set_cell i (default NaN (r.2 !! j)) r.2)
              else r) (rows bcm)))
        "value.drop"
  | None, _ => Raise (KeyError "value")
  | _, None => Raise (KeyError "value.drop")
  end.

(** The order of [sort_values]: identifiers in string order, missing
    values last. *)
Definition value_le (a b : cell) : Prop :=
  match a, b with
  | _, NaN => True
  | NaN, _ => False
  | Str s, Str t => String.le s t
  | Str _, _ => False
  | _, _ => True
  end.

Global Instance value_le_dec : RelDecision value_le.
Proof. intros [] []; simpl; apply _. Defined.

Definition row_value_le (i : nat) (r1 r2 : string * list cell) : Prop :=
  value_le (default NaN (r1.2 !! i)) (default NaN (r2.2 !! i)).

Global Instance row_value_le_dec i : RelDecision (row_value_le i).
Proof. intros r1 r2. unfold row_value_le. apply _. Defined.

Definition cell_is_number (c : cell) : bool :=
  match c with Num _ | Flt _ => true | _ => false end.

(** [df.sort_values(c)].  The column of a barcode map holds identifiers:
    comparing an identifier with a number raises, and the order of numbers
    among themselves is not modelled. *)
Definition sort_values (df : DataFrame) (c : string) : result DataFrame :=
  match col_pos c (columns df) with
  | None => Raise (KeyError c)
  | Some i =>
      if existsb (λ r, cell_is_number (default NaN (r.2 !! i))) (rows df)
         && existsb (λ r, cell_is_str (default NaN (r.2 !! i))) (rows df)
      then Raise (TypeError "'<' not supported between instances")
      else Ok (mkDF (columns df) (merge_sort (row_value_le i) (rows df)))
  end.

(** The loop of [combine_barcode_maps] over the children. *)
Definition combine_step (bcm : option DataFrame) (lib : SeqLib)
  : result (option DataFrame) :=
  raw ← lib_select lib raw_barcodemap_key;
  match bcm with
  | None => Ok (Some raw)
  | Some bcm =>
      Some <$> fill_value_from_drop (frame_join_outer_rsuffix bcm raw ".drop")
  end.

Definition combine_barcode_maps (self : Selection) : M unit :=
  found ←ₘ check_store self barcodemap_key ;;
  if found then ret tt else
  bcm ←ₘ lift (fold_result combine_step (children self) None) ;;
  match bcm with
  | None => raise (AttributeError
                     "'NoneType' object has no attribute 'sort_values'")
  | Some bcm =>
      bcm ←ₘ lift (sort_values bcm "value") ;;
      store_put barcodemap_key bcm
  end.

(** ** Validator *)

Definition bracket (s : string) : string := " [" +:+ s +:+ "]".

(** [functools.reduce(f, xs)] without an initial value. *)
Definition reduce {A} (f : A → A → A) (xs : list A) : result A :=
  match xs with
  | [] => Raise (TypeError "reduce() of empty sequence with no initial value")
  | x :: xs' => Ok (foldl f x xs')
  end.

Fixpoint map_result {A B} (f : A → result B) (xs : list A)
  : result (list B) :=
  match xs with
  | [] => Ok []
  | x :: xs' => b ← f x; bs ← map_result f xs'; Ok (b :: bs)
  end.

Definition timepoint_indices_intersect_for_label (self : Selection)
    (label : string) : result unit :=
  let table_key := counts_key label in
  let libs := libs_by_timepoint self in
  index_ls ← map_result (λ lib, lib_select_column_index lib table_key) libs;
  let index_len_ls := map (λ idx, length (remove_dups idx)) index_ls in
  common ← reduce index_intersection index_ls;
  let common_len := length common in
  let all_good :=
    forallb (λ idx_len, bool_decide (common_len = idx_len)) index_len_ls in
  if negb all_good
  then Raise (ValueError ("Timepoints contain different variants for label "
                          +:+ label +:+ "."))
  else Ok tt.

Fixpoint for_each_result {A} (xs : list A) (body : A → result unit)
  : result unit :=
  match xs with
  | [] => Ok tt
  | x :: xs' => _ ← body x; for_each_result xs' body
  end.

Definition timepoint_indices_intersect (self : Selection) : result unit :=
  for_each_result (labels self)
    (timepoint_indices_intersect_for_label self).

Definition WILD_TYPE_VARIANT : string := "_wt".

(** [set(s.values) != set(["_wt"])] *)
Definition only_wild_type (idx : list string) : bool :=
  bool_decide (remove_dups idx = [WILD_TYPE_VARIANT]).

Definition timepoints_contain_variants_for_label (self : Selection)
    (label : string) : result unit :=
  let table_key := counts_key label in
  let libs := libs_by_timepoint self in
  series_ls ← map_result (λ lib, lib_select_column_index lib table_key) libs;
  let all_good := forallb (λ s, negb (only_wild_type s)) series_ls in
  if negb all_good
  then Raise (ValueError ("Some timepoints do not contain any variants "
                          +:+ "for label " +:+ label +:+ "."))
  else Ok tt.

Definition timepoints_contain_variants (self : Selection) : result unit :=
  for_each_result (labels self)
    (timepoints_contain_variants_for_label self).

Definition table_exists_for_key (self : Selection) (key : string) : M bool :=
  check_store self key.

Definition table_not_empty_for_key (self : Selection) (key : string)
  : M bool :=
  exists_ ←ₘ table_exists_for_key self key ;;
  if negb exists_
  then raise (ValueError ("Required table " +:+ key +:+ " does not exist."))
  else
    df ←ₘ store_select key ;;
    ret (negb (df_empty df)).

(** The body of the loop of
    [ensure_main_count_tables_exist_and_populated]. *)
Definition ensure_count_table (self : Selection) (label : string) : M unit :=
  let key := counts_key label in
  exists_ ←ₘ table_exists_for_key self key ;;
  if negb exists_
  then raise (ValueError ("Required table " +:+ key +:+ " does not exist."))
  else
    populated ←ₘ table_not_empty_for_key self key ;;
    if negb populated
    then raise (ValueError ("Required table " +:+ key +:+ " does is empty."))
    else ret tt.

Definition ensure_main_count_tables_exist_and_populated (self : Selection)
  : M unit :=
  for_each (labels self) (ensure_count_table self).

(** [Selection.validate]; the warning about inconsistent wild type
    sequences is logged and has no other effect.  [child.validate()]
    belongs to the libraries: each child carries its outcome. *)
Definition validate (self : Selection) : result unit :=
  if negb (bool_decide (0 ∈ timepoints self))
  then Raise (ValueError ("Missing timepoint 0" +:+ bracket (name self)))
  else if negb (bool_decide (head (timepoints self) = Some 0))
  then Raise (ValueError ("Invalid negative timepoint"
                          +:+ bracket (name self)))
  else if bool_decide (length (timepoints self) < 2)%nat
  then Raise (ValueError ("Multiple timepoints required"
                          +:+ bracket (name self)))
  else if bool_decide (length (timepoints self) < 3)%nat
          && bool_decide (scoring_method self ∈ ["WLS"; "OLS"])
  then Raise (ValueError ("Insufficient number of timepoints for "
                          +:+ "regression scoring" +:+ bracket (name self)))
  else if negb (has_wt_sequence self)
          && bool_decide (logr_method self = "wt")
  then Raise (ValueError ("No wild type sequence for wild "
                          +:+ "type normalization" +:+ bracket (name self)))
  else for_each_result (children self) lib_validate.

(** ** OutlierDetector *)

(** A Python number: the quotient of two integers under [/] is a float. *)
Inductive pynum :=
| PyInt (z : Z)
| PyFloat (x : float).

(** [a / b] on integers (true division) *)
Definition true_div (a b : Z) : result pynum :=
  if decide (b = 0)
  then Raise (ZeroDivisionError "division by zero")
  else Ok (PyFloat (float_of_count a / float_of_count b)%float).

Definition type_error_float : exn :=
  TypeError "can't multiply sequence by non-int of type 'float'".

(** [l * n] on a list *)
Definition list_mul {A} (l : list A) (n : pynum) : result (list A) :=
  match n with
  | PyInt z => Ok (mjoin (replicate (Z.to_nat z) l))
  | PyFloat _ => Raise type_error_float
  end.

(** [a % b] on integers *)
Definition py_mod (a b : Z) : result Z :=
  if decide (b = 0)
  then Raise (ZeroDivisionError "integer division or modulo by zero")
  else Ok (a `mod` b).

(** [store.select(key, "columns=[...]")]: the listed columns that the
    table has. *)
Definition select_columns (df : DataFrame) (cols : list string)
  : DataFrame :=
  let keep := omap (λ c, col_pos c (columns df)) cols in
  mkDF (omap (λ i, columns df !! i) keep)
       (map (λ r, (r.1, omap (λ i, r.2 !! i) keep)) (rows df)).

Definition store_select_columns (key : string) (cols : list string)
  : M DataFrame :=
  df ←ₘ store_select key ;; ret (select_columns df cols).

(** [x ** 2] on a cell *)
Definition cell_square (c : cell) : result cell :=
  match c with
  | NaN => Ok NaN
  | Num z => Ok (Num (z * z))
  | Flt x => Ok (Flt (x * x)%float)
  | Str _ => Raise (TypeError "unsupported operand type(s) for ** or pow()")
  end.

(** [df[c] = vals]: a new column is appended. *)
Definition set_col (df : DataFrame) (c : string) (vals : list cell)
  : DataFrame :=
  match col_pos c (columns df) with
  | Some i =>
      mkDF (columns df)
           (zip_with (λ r v, (r.1, set_cell i v r.2)) (rows df) vals)
  | None =>
      mkDF (columns df ++ [c])%list
           (zip_with (λ r v, (r.1, (r.2 ++ [v])%list)) (rows df) vals)
  end.

(** [df['var'] = df['SE'] ** 2; df.drop('SE', axis=1, inplace=True)] *)
Definition precalculate_variance (df : DataFrame) : result DataFrame :=
  se ← get_col df "SE";
  var ← map_result cell_square se;
  drop_col (set_col df "var" var) "SE".

(** [df.loc[e, c] = v] for a label of the index. *)
Definition set_at (df : DataFrame) (e c : string) (v : cell)
  : result DataFrame :=
  match col_pos c (columns df) with
  | Some i =>
      Ok (mkDF (columns df)
            (map (λ r, if decide (r.1 = e)
                       then (r.1, set_cell i v r.2) else r) (rows df)))
  | None => Raise (KeyError c)
  end.

(** A numeric cell as a float. *)
Definition cell_float (c : cell) : result float :=
  match c with
  | NaN => Ok nan
  | Flt x => Ok x
  | Num z => Ok (float_of_count z)
  | Str _ => Raise (TypeError "unsupported operand type(s) for -")
  end.

(** [df.loc[e, c]] as a number; [KeyError] for a label that is absent. *)
Definition at_float (df : DataFrame) (e c : string) : result float :=
  match at_ df e c with
  | Some v => cell_float v
  | None => Raise (KeyError e)
  end.

(** [df1.loc[labels]]: a label that is absent gives a row of missing
    values; [KeyError] when none of the labels is in the index. *)
Definition loc_list (df : DataFrame) (ls : list string) : result DataFrame :=
  if forallb (λ e, bool_decide (e ∉ index df)) ls
  then Raise (KeyError "None of the labels are in the index")
  else Ok (mkDF (columns df)
             (map (λ e, (e, default (nan_row df) (loc df e))) ls)).

Definition synonymous_variants (protein_variant : string → string)
    (self : Selection) : M (gmap string (list string)) :=
  λ st,
    match st !! counts_key "variants" with
    | None => (Raise (KeyError ("No variant counts found"
                                +:+ bracket (name self))), st)
    | Some df =>
        (Ok (foldl (λ mapping v,
                      let pv := protein_variant v in
                      match mapping !! pv with
                      | Some vs => <[pv := (vs ++ [v])%list]> mapping
                      | None => <[pv := [v]]> mapping
                      end) ∅ (index df)), st)
    end.

(** [Selection.barcodemap_mapping]: the barcodes of each element.  Only
    identifiers are looked up in the mapping, so a row whose value is not
    a string adds nothing that is ever read. *)
Definition barcodemap_mapping (self : Selection)
  : M (gmap string (list string)) :=
  bcm ←ₘ store_select barcodemap_key ;;
  v ←ₘ lift (get_col bcm "value") ;;
  ret (foldl (λ mapping bv,
                match bv.2 with
                | Str v =>
                    match mapping !! v with
                    | Some bcs =>
                        if decide (bv.1 ∈ bcs) then mapping
                        else <[v := (bcs ++ [bv.1])%list]> mapping
                    | None => <[v := [bv.1]]> mapping
                    end
                | _ => mapping
                end) ∅ (zip (index bcm) v)).

(** The statements of the innermost loop of [calc_outliers] for the
    component [c] of the element [x]. *)
Definition outlier_component (norm_sf : float → float) (df1 df2 : DataFrame)
    (x : string) (result_df : DataFrame) (c : string)
  : result DataFrame :=
  x_score ← at_float df2 x "score";
  c_score ← at_float df1 c "score";
  x_var ← at_float df2 x "var";
  c_var ← at_float df1 c "var";
  let zvalue := (PrimFloat.abs (x_score - c_score)
                 / PrimFloat.sqrt (x_var + c_var))%float in
  result_df ← set_at result_df c "z" (Flt zvalue);
  result_df ← set_at result_df c "pvalue_raw" (Flt (2 * norm_sf zvalue)%float);
  set_at result_df c "parent" (Str x).

(** One iteration of [for i, x in enumerate(df2.index)]; the state is
    [(log_chunk, result_df)]. *)
Definition outlier_step (norm_sf : float → float)
    (mapping : gmap string (list string)) (df1 df2 : DataFrame)
    (minimum_components log_chunksize : Z) (log_chunksize_list : list Z)
    (state : Z * DataFrame) (ix : nat * string)
  : result (Z * DataFrame) :=
  let '(log_chunk, result_df) := state in
  let '(i, x) := ix in
  r ← py_mod (Z.of_nat i) log_chunksize;
  log_chunk ←
    (if decide (r = 0)
     then match log_chunksize_list !! Z.to_nat (log_chunk - 1) with
          | Some _ => Ok (log_chunk + 1)
          | None => Raise (IndexError "list index out of range")
          end
     else Ok log_chunk);
  match mapping !! x with
  | None => Ok (log_chunk, result_df)
  | Some members =>
      match loc_list df1 members with
      | Raise (KeyError _) => Ok (log_chunk, result_df)
      | Raise e => Raise e
      | Ok selected =>
          let components := dropna_all selected in
          if decide (minimum_components
                     <= Z.of_nat (length (index components)))%Z
          then
            result_df ← fold_result (outlier_component norm_sf df1 df2 x)
                          (index components) result_df;
            Ok (log_chunk, result_df)
          else Ok (log_chunk, result_df)
      end
  end.

Definition parent_label (self : Selection) (label : string)
  : result string :=
  if decide (label = "variants") then Ok "synonymous"
  else if decide (label = "barcodes") then
    if is_barcodevariant self then Ok "variants"
    else if is_barcodeid self then Ok "identifiers"
    else Raise (AttributeError
                  ("Failed to identify parent label when calculating "
                   +:+ "barcode outliers" +:+ bracket (name self)))
  else Raise (KeyError ("Invalid label '" +:+ label
                        +:+ "' for calc_outliers" +:+ bracket (name self))).

(** The second dispatch on the label in [calc_outliers]: the components
    of each element. *)
Definition outlier_mapping (protein_variant : string → string)
    (self : Selection) (label : string) : M (gmap string (list string)) :=
  if decide (label = "variants")
  then synonymous_variants protein_variant self
  else if decide (label = "barcodes") then barcodemap_mapping self
  else raise (KeyError ("Invalid label '" +:+ label
                        +:+ "' for calc_outliers" +:+ bracket (name self))).

Definition calc_outliers (protein_variant : string → string)
    (norm_sf : float → float) (self : Selection) (label : string)
    (minimum_components log_chunksize : Z) : M unit :=
  found ←ₘ check_store self (outliers_key label) ;;
  if found then ret tt else
  label2 ←ₘ lift (parent_label self label) ;;
  mapping ←ₘ outlier_mapping protein_variant self label ;;
  df1 ←ₘ store_select_columns (scores_key label) ["score"; "SE"] ;;
  df2 ←ₘ store_select_columns (scores_key label2) ["score"; "SE"] ;;
  df1 ←ₘ lift (precalculate_variance df1) ;;
  df2 ←ₘ lift (precalculate_variance df2) ;;
  let result_df :=
    mkDF ["z"; "pvalue_raw"; "parent"]
         (map (λ e, (e, [NaN; NaN; NaN])) (index df1)) in
  let log_chunk := 1 in
  let len_df2 := Z.of_nat (length (rows df2)) in
  quotient ←ₘ lift (true_div len_df2 log_chunksize) ;;
  repeated ←ₘ lift (list_mul [log_chunksize] quotient) ;;
  remainder ←ₘ lift (py_mod len_df2 log_chunksize) ;;
  let log_chunksize_list := (repeated ++ [remainder])%list in
  state ←ₘ lift (fold_result
                   (outlier_step norm_sf mapping df1 df2 minimum_components
                      log_chunksize log_chunksize_list)
                   (imap (λ i x, (i, x)) (index df2))
                   (log_chunk, result_df)) ;;
  let result_df := state.2 in
  result_df ←ₘ lift
    (if decide (WILD_TYPE_VARIANT ∈ index result_df)
     then
       result_df ← set_at result_df WILD_TYPE_VARIANT "z" NaN;
       set_at result_df WILD_TYPE_VARIANT "pvalue_raw" NaN
     else Ok result_df) ;;
  z ←ₘ lift (get_col result_df "z") ;;
  p ←ₘ lift (get_col result_df "pvalue_raw") ;;
  (if existsb cell_is_str z || existsb cell_is_str p
   then raise (ValueError "could not convert string to float")
   else ret tt) ;;ₘ
  store_put (outliers_key label) result_df.

(** ** ScoringEngine and the pipeline *)

(** Modelled from the spec: the scorer plugins ([RatiosScorer],
    [SimpleScorer], [RegressionScorer]) are not part of the sources at
    hand.  [compute_scores] is "memoized on the [scores] key for [label]";
    each strategy consumes the filtered counts and writes a [scores]
    table.  The statistics of a strategy are the function [strategy],
    which computes the table of a label from the selection and the
    store. *)
Definition score_label
    (strategy : Selection → string → HDFStore → result DataFrame)
    (self : Selection) (label : string) : M unit :=
  found ←ₘ check_store self (scores_key label) ;;
  if found then ret tt else
  df ←ₘ (λ st, (strategy self label st, st)) ;;
  store_put (scores_key label) df.

Definition compute_scores
    (strategy : Selection → string → HDFStore → result DataFrame)
    (self : Selection) : M unit :=
  for_each (labels self) (score_label strategy self).

Definition calculate
    (scorer : string → Selection → string → HDFStore → result DataFrame)
    (protein_variant : string → string) (norm_sf : float → float)
    (self : Selection) : M unit :=
  (if decide (length (labels self) = 0%nat)
   then raise (ValueError ("No data present across all sequencing libraries"
                           +:+ bracket (name self)))
   else ret tt) ;;ₘ
  for_each (labels self) (λ label,
    merge_counts_unfiltered self label ;;ₘ
    filter_counts self label) ;;ₘ
  (if is_barcodevariant self || is_barcodeid self
   then combine_barcode_maps self else ret tt) ;;ₘ
  ensure_main_count_tables_exist_and_populated self ;;ₘ
  (* self.timepoint_indices_intersect() is commented out *)
  lift (timepoints_contain_variants self) ;;ₘ
  (if decide (scoring_method self = "counts") then ret tt
   else if decide (scoring_method self = "ratios")
   then compute_scores (scorer "ratios") self
   else if decide (scoring_method self = "simple")
   then compute_scores (scorer "simple") self
   else if decide (scoring_method self = "OLS")
   then
     if decide (length (timepoints self) <= 2)%nat
     then raise (ValueError
                   "Regression-based scoring requires three or more time points.")
     else compute_scores (scorer "OLS") self
   else if decide (scoring_method self = "WLS")
   then
     if decide (length (timepoints self) <= 2)%nat
     then raise (ValueError
                   "Regression-based scoring requires three or more time points.")
     else compute_scores (scorer "WLS") self
   else raise (ValueError ("Invalid scoring method " +:+ scoring_method self
                           +:+ bracket (name self)))) ;;ₘ
  if bool_decide (scoring_method self ∈ ["ratios"; "WLS"; "OLS"])
     && component_outliers self
  then
    (if is_barcodevariant self || is_barcodeid self
     then calc_outliers protein_variant norm_sf self "barcodes" 4 20000
     else ret tt) ;;ₘ
    (if is_coding self
     then calc_outliers protein_variant norm_sf self "variants" 4 20000
     else ret tt)
  else ret tt.

(** The driver of [main.py]: the analysis runs only when validation
    raised nothing. *)
Definition main_driver
    (scorer : string → Selection → string → HDFStore → result DataFrame)
    (protein_variant : string → string) (norm_sf : float → float)
    (self : Selection) : M unit :=
  lift (validate self) ;;ₘ
  calculate scorer protein_variant norm_sf self.

(** ** Specification vocabulary *)

(** The rows stored under a key; no rows when the key is absent. *)
Definition store_rows (st : HDFStore) (key : string)
  : list (string * list cell) :=
  match st !! key with Some df => rows df | None => [] end.

Definition store_index (st : HDFStore) (key : string) : list string :=
  (store_rows st key).*1.

(** A library's table of counts: one column [count], unique labels, an
    integer in every row. *)
Definition counts_table (df : DataFrame) : Prop :=
  columns df = ["count"] ∧ NoDup (index df) ∧
  Forall (λ r, ∃ z, r.2 = [Num z]) (rows df).

Definition lib_count (lib_table : string) (lib : SeqLib) (e : string)
  : option Z :=
  df ← lib_store lib !! lib_table;
  cs ← loc df e;
  match cs with [Num z] => Some z | _ => None end.

(** The library has a row for [e]. *)
Definition lib_has (lib_table : string) (lib : SeqLib) (e : string) : bool :=
  bool_decide (is_Some (lib_count lib_table lib e)).

(** The library's count of [e] as a cell, missing without a row. *)
Definition lib_cell (lib_table : string) (lib : SeqLib) (e : string) : cell :=
  match lib_count lib_table lib e with Some z => Num z | None => NaN end.

(** The library has its table of counts. *)
Definition lib_ready (lib_table : string) (lib : SeqLib) : Prop :=
  ∃ df, lib_store lib !! lib_table = Some df ∧ counts_table df.

Definition Zsum (zs : list Z) : Z := foldr Z.add 0 zs.

(** The sum of the counts of [e] over [libs], a library without a row for
    [e] counting as zero; missing when no library has a row for [e]. *)
Definition summed_count (lib_table : string) (libs : list SeqLib)
    (e : string) : cell :=
  if existsb (λ lib, lib_has lib_table lib e) libs
  then Num (Zsum (map (λ lib, default 0 (lib_count lib_table lib e)) libs))
  else NaN.

(** The cell of element [e] in column [c_<tp>]. *)
Definition expected_cell (self : Selection) (lib_table : string)
    (e : string) (tp : Z) : cell :=
  summed_count lib_table (libraries_at self tp) e.

Definition expected_row (self : Selection) (label : string) (e : string)
  : list cell :=
  map (expected_cell self (counts_key label) e) (timepoints self).

(** Loop invariant of the sum over the libraries of a timepoint: the
    frame [c] once the libraries [P] are added. *)
Definition summed_frame (lib_table : string) (chunk : list string)
    (P : list SeqLib) (c : DataFrame) : Prop :=
  columns c = ["count"] ∧
  (∀ e cs, (e, cs) ∈ rows c →
     e ∈ chunk ∧ cs = [summed_count lib_table P e] ∧
     summed_count lib_table P e ≠ NaN) ∧
  (∀ e, e ∈ chunk → summed_count lib_table P e ≠ NaN → e ∈ index c).

(** Loop invariant of the join over the timepoints: [tp_frame] once the
    timepoints [T] are joined. *)
Definition joined_frame (self : Selection) (lib_table : string)
    (chunk : list string) (T : list Z) (f : DataFrame) : Prop :=
  columns f = map count_column T ∧
  (∀ e cs, (e, cs) ∈ rows f →
     e ∈ chunk ∧ cs = map (expected_cell self lib_table e) T ∧
     ∃ tp, tp ∈ T ∧ expected_cell self lib_table e tp ≠ NaN) ∧
  (∀ e tp, e ∈ chunk → tp ∈ T →
     expected_cell self lib_table e tp ≠ NaN → e ∈ index f).

Definition timepoint_ready (self : Selection) (lib_table : string) (tp : Z)
  : Prop :=
  libraries_at self tp ≠ [] ∧
  Forall (lib_ready lib_table) (libraries_at self tp).

(** The chunk that starts at row [i] of the complete index. *)
Definition chunk_of (self : Selection) (ci : list string) (i : Z)
  : list string :=
  if decide (chunksize self < Z.of_nat (length ci))
  then slice ci i (i + chunksize self) else ci.

Definition numeric_frame (df : DataFrame) : Prop :=
  Forall (λ r, Forall (λ c, cell_is_str c = false) r.2) (rows df).

(** ** A worked scenario

    Two sources at each of the timepoints 0, 1 and 2: the first counts
    [A] as 10, 5, 2; the second counts [A] as 10, 7, 4 and [B] as 1, 1 at
    the timepoints 1 and 2 only. *)

Definition example_counts (rs : list (string * Z)) : DataFrame :=
  mkDF ["count"] (map (λ r, (r.1, [Num r.2])) rs).

Definition example_lib (n : string) (rs : list (string * Z)) : SeqLib :=
  mkSeqLib n BasicSeqLib None false (Ok tt)
    {[ counts_key "variants" := example_counts rs ]}.

Definition example_selection : Selection :=
  mkSelection "sel"
    (<[0 := [example_lib "a0" [("A", 10)]; example_lib "b0" [("A", 10)]]]>
     (<[1 := [example_lib "a1" [("A", 5)];
              example_lib "b1" [("B", 1); ("A", 7)]]]>
     (<[2 := [example_lib "a2" [("A", 2)];
              example_lib "b2" [("A", 4); ("B", 1)]]]> ∅)))
    [] ["variants"] "counts" "complete" 1 false false.

Definition example_unfiltered : DataFrame :=
  mkDF ["c_0"; "c_1"; "c_2"]
       [("A", [Num 20; Num 12; Num 6]); ("B", [NaN; Num 1; Num 1])].

(** A store that holds the unfiltered table and a stale filtered table. *)
Definition example_stale_store : HDFStore :=
  <[counts_key "variants" := mkDF ["c_0"; "c_1"; "c_2"] [("Z", [Num 9; Num 9; Num 9])]]>
    {[ counts_unfiltered_key "variants" := example_unfiltered ]}.

(** A library's raw barcode map: one column [value], unique barcodes, and
    in every row an identifier or a missing value. *)
Definition barcode_map_table (df : DataFrame) : Prop :=
  columns df = ["value"] ∧ NoDup (index df) ∧
  Forall (λ r, ∃ c, r.2 = [c] ∧ cell_is_number c = false) (rows df).

Definition raw_index (lib : SeqLib) : list string :=
  match lib_store lib !! raw_barcodemap_key with
  | Some df => index df
  | None => []
  end.

(** The target of barcode [b] in the raw map of a library. *)
Definition raw_value (lib : SeqLib) (b : string) : cell :=
  match lib_store lib !! raw_barcodemap_key with
  | Some df => cell_or_nan df b "value"
  | None => NaN
  end.

(** The first target of [b] that is not null, in the order of [libs];
    missing when there is none. *)
Fixpoint first_seen (libs : list SeqLib) (b : string) : cell :=
  match libs with
  | [] => NaN
  | lib :: libs' =>
      if isnull (raw_value lib b) then first_seen libs' b
      else raw_value lib b
  end.

(** Loop invariant of [combine_barcode_maps]: the frame [bcm] once the
    maps of the libraries [P] are joined. *)
Definition merged_frame (P : list SeqLib) (bcm : DataFrame) : Prop :=
  columns bcm = ["value"] ∧ NoDup (index bcm) ∧
  (∀ b cs, (b, cs) ∈ rows bcm →
     cs = [first_seen P b] ∧ ∃ lib, lib ∈ P ∧ b ∈ raw_index lib) ∧
  (∀ b lib, lib ∈ P → b ∈ raw_index lib → b ∈ index bcm).

Definition barcode_lib_ready (lib : SeqLib) : Prop :=
  ∃ df, lib_store lib !! raw_barcodemap_key = Some df ∧ barcode_map_table df.

(** The labels of a library's table of counts for a label. *)
Definition lib_index (label : string) (lib : SeqLib) : list string :=
  match lib_store lib !! counts_key label with
  | Some df => index df
  | None => []
  end.

(** The computation changes no key outside [K], whether it returns or
    raises. *)
Definition writes_only {A} (K : string → Prop) (m : M A) : Prop :=
  ∀ st k, ¬ K k → (m st).2 !! k = st !! k.

(** The computation leaves the store as it is. *)
Definition read_only {A} (m : M A) : Prop := ∀ st, (m st).2 = st.

Definition example_selection_wt : Selection :=
  mkSelection "sel" (libraries example_selection) [] ["variants"]
    "ratios" "wt" 1 false false.

(** The computation raises and leaves the store as it is. *)
Definition raises_unchanged {A} (m : M A) : Prop :=
  ∀ st, ∃ e, m st = (Raise e, st).

(** Scores of four variants of one protein variant, and of that protein
    variant. *)
Definition example_scores (rs : list (string * float * float)) : DataFrame :=
  mkDF ["score"; "SE"] (map (λ r, (r.1.1, [Flt r.1.2; Flt r.2])) rs).

Definition example_scored_store : HDFStore :=
  <[scores_key "variants" :=
      example_scores [("v1", 1.5, 0.5); ("v2", 0.5, 0.25);
                      ("v3", (-1), 0.5); ("v4", 2, 1)]%float]>
  (<[scores_key "synonymous" := example_scores [("p1", 1, 0.5)%float]]>
  {[ counts_key "variants" :=
       example_counts [("v1", 3); ("v2", 4); ("v3", 5); ("v4", 6)] ]}).

Definition example_selection_ratios : Selection :=
  mkSelection "sel" (libraries example_selection) [] ["variants"]
    "ratios" "complete" 1 false true.

Definition example_protein_variant (v : string) : string := "p1".

(** The tables that the loop of [calc_outliers] would work on for the
    scores of [example_scored_store]. *)
Definition example_variances (key : string) : DataFrame :=
  match example_scored_store !! key with
  | Some df =>
      match precalculate_variance (select_columns df ["score"; "SE"]) with
      | Ok v => v
      | Raise _ => mkDF [] []
      end
  | None => mkDF [] []
  end.

Definition example_result_df : DataFrame :=
  mkDF ["z"; "pvalue_raw"; "parent"]
       (map (λ e, (e, [NaN; NaN; NaN]))
            (index (example_variances (scores_key "variants")))).

Definition example_mapping : gmap string (list string) :=
  {[ "p1" := ["v1"; "v2"; "v3"; "v4"] ]}.

(** Two barcoded libraries whose raw maps disagree on the barcode [AAA]. *)
Definition example_barcode_lib (n : string) (rs : list (string * string))
  : SeqLib :=
  mkSeqLib n BcvSeqLib None true (Ok tt)
    {[ raw_barcodemap_key :=
         mkDF ["value"] (map (λ r, (r.1, [Str r.2])) rs) ]}.

Definition example_barcode_selection : Selection :=
  mkSelection "sel"
    (<[0 := [example_barcode_lib "a" [("AAA", "v1"); ("CCC", "v2")]]]>
     (<[1 := [example_barcode_lib "b" [("AAA", "v9"); ("GGG", "v0")]]]> ∅))
    ["map.txt"] ["barcodes"; "variants"] "counts" "complete" 1 false false.

Definition example_barcodemap : DataFrame :=
  mkDF ["value"]
       [("GGG", [Str "v0"]); ("AAA", [Str "v1"]); ("CCC", [Str "v2"])].

(** ** Vocabulary of the further properties *)

(** Some library of timepoint [tp] has a row for [e]. *)
Definition observed_at (self : Selection) (label : string) (tp : Z)
    (e : string) : Prop :=
  ∃ lib, lib ∈ libraries_at self tp ∧
         is_Some (lib_count (counts_key label) lib e).

(** The selection with another chunk size. *)
Definition with_chunksize (self : Selection) (n : Z) : Selection :=
  mkSelection (name self) (libraries self) (barcode_maps self) (labels self)
    (scoring_method self) (logr_method self) n (force_recalculate self)
    (component_outliers self).

(** ** Further scenarios *)

(** A selection over given libraries that only counts [variants]. *)
Definition example_selection_of (libs : gmap Z (list SeqLib)) : Selection :=
  mkSelection "sel" libs [] ["variants"] "counts" "complete" 1 false false.

(** Libraries whose count tables have no rows. *)
Definition example_empty_libraries : gmap Z (list SeqLib) :=
  <[0 := [example_lib "a0" []]]> (<[1 := [example_lib "a1" []]]> ∅).

(** Libraries at the timepoints 1 and 2 only. *)
Definition example_late_libraries : gmap Z (list SeqLib) :=
  <[1 := [example_lib "a1" [("A", 5)]]]>
    (<[2 := [example_lib "a2" [("A", 2)]]]> ∅).

(** Libraries that share no element: [A] at timepoint 0 only, [B] at
    timepoint 1 only. *)
Definition example_disjoint_libraries : gmap Z (list SeqLib) :=
  <[0 := [example_lib "a0" [("A", 10)]]]>
    (<[1 := [example_lib "a1" [("B", 1)]]]> ∅).

(** Libraries at the timepoints -1, 0 and 1. *)
Definition example_negative_libraries : gmap Z (list SeqLib) :=
  <[-1 := [example_lib "a" [("A", 5)]]]>
    (<[0 := [example_lib "b" [("A", 5)]]]>
       (<[1 := [example_lib "c" [("A", 2)]]]> ∅)).

(** Libraries of a coding selection. *)
Definition example_coding_lib (n : string) (rs : list (string * Z))
  : SeqLib :=
  mkSeqLib n BasicSeqLib None true (Ok tt)
    {[ counts_key "variants" := example_counts rs ]}.

Definition example_coding_libraries : gmap Z (list SeqLib) :=
  <[0 := [example_coding_lib "a0" [("A", 10)]]]>
    (<[1 := [example_coding_lib "a1" [("A", 5)]]]> ∅).

(** A selection over given libraries with a scoring method and the
    outliers flag. *)
Definition example_scored_selection (libs : gmap Z (list SeqLib))
    (method : string) (outliers : bool) : Selection :=
  mkSelection "sel" libs [] ["variants"] method "complete" 1 false outliers.

(** ** The libraries of a selection *)

(** The selection with its dictionary [libraries] replaced. *)
Definition set_libraries (self : Selection) (libs : gmap Z (list SeqLib))
  : Selection :=
  mkSelection (name self) libs (barcode_maps self) (labels self)
    (scoring_method self) (logr_method self) (chunksize self)
    (force_recalculate self) (component_outliers self).

(** [Selection.add_child].  The timepoint of the child, [child.timepoint],
    is the argument [tp]; [StoreManager.child_names] is not part of the
    sources at hand and is the argument [child_names].  The back
    reference [child.parent] is not modelled. *)
Definition add_child (child_names : Selection → list string)
    (self : Selection) (child : SeqLib) (tp : Z) : result Selection :=
  if bool_decide (lib_name child ∈ child_names self)
  then Raise (ValueError ("Non-unique sequencing library name '"
                          +:+ lib_name child +:+ "'"
                          +:+ bracket (name self)))
  else match libraries self !! tp with
       | Some libs =>
           Ok (set_libraries self
                 (<[tp := (libs ++ [child])%list]> (libraries self)))
       | None => Ok (set_libraries self (<[tp := [child]]> (libraries self)))
       end.

(** [tp_ids.index(tree_id)], when [tree_id in tp_ids]; [treeview_id] is
    the attribute of that name of a library. *)
Definition child_position (treeview_id : SeqLib → string)
    (libs : list SeqLib) (tree_id : string) : option nat :=
  fst <$> list_find (λ lib, treeview_id lib = tree_id) libs.

(** The loop of [remove_child_id] over the keys of [self.libraries], in
    the order [keys] in which the dictionary yields them, followed by the
    removal of the emptied timepoint. *)
Fixpoint remove_child_id_loop (treeview_id : SeqLib → string)
    (libs : gmap Z (list SeqLib)) (keys : list Z) (tree_id : string)
  : gmap Z (list SeqLib) :=
  match keys with
  | [] => libs
  | tp :: keys' =>
      let tp_libs := default [] (libs !! tp) in
      match child_position treeview_id tp_libs tree_id with
      | Some i =>
          let tp_libs' := delete i tp_libs in
          if decide (length tp_libs' = 0%nat)
          then delete tp libs
          else <[tp := tp_libs']> libs
      | None => remove_child_id_loop treeview_id libs keys' tree_id
      end
  end.

Definition remove_child_id (treeview_id : SeqLib → string) (keys : list Z)
    (self : Selection) (tree_id : string) : Selection :=
  set_libraries self
    (remove_child_id_loop treeview_id (libraries self) keys tree_id).

(** No timepoint of the selection is without a library. *)
Definition no_empty_timepoint (self : Selection) : Prop :=
  ∀ tp libs, libraries self !! tp = Some libs → libs ≠ [].

(** A further library for the scenarios. *)
Definition example_child : SeqLib := example_lib "c1" [("A", 3)].

(** The statistic of a component: [|x_score - c_score| / sqrt(x_var +
    c_var)]. *)
Definition zvalue_of (x_score x_var c_score c_var : float) : float :=
  (PrimFloat.abs (x_score - c_score) / PrimFloat.sqrt (x_var + c_var))%float.

(** The score and the variance of a component in the tables of
    [example_scored_store]. *)
Definition example_component (col : string) (c : string) : float :=
  match at_float (example_variances (scores_key "variants")) c col with
  | Ok x => x
  | Raise _ => nan
  end.

(** * Properties *)

(** ** Keys *)

Lemma main_key_inj label t1 t2 :
  main_key label t1 = main_key label t2 → t1 = t2.
Proof.
  unfold main_key. intros H.
  by repeat (apply (inj (String.app _)) in H).
Qed.

Lemma counts_key_ne_unfiltered label :
  counts_key label ≠ counts_unfiltered_key label.
Proof. intros H. by apply main_key_inj in H. Qed.

(** ** Monad steps *)

Lemma bind_ok {A B} (m : M A) (k : A → M B) st a st' :
  m st = (Ok a, st') → bind m k st = k a st'.
Proof. unfold bind. by intros ->. Qed.

Lemma bind_raise {A B} (m : M A) (k : A → M B) st e st' :
  m st = (Raise e, st') → bind m k st = (Raise e, st').
Proof. unfold bind. by intros ->. Qed.

(** ** Rows and lookups *)

Lemma row_lookup_Some e rs cs :
  row_lookup e rs = Some cs → (e, cs) ∈ rs.
Proof.
  induction rs as [|[k c] rs IH]; simpl; [done|].
  case_decide as Hk.
  - intros [= <-]. subst. apply list_elem_of_here.
  - intros H. apply list_elem_of_further. auto.
Qed.

Lemma row_lookup_None e rs :
  row_lookup e rs = None ↔ e ∉ rs.*1.
Proof.
  induction rs as [|[k c] rs IH]; simpl.
  - split; [intros _; apply not_elem_of_nil | done].
  - case_decide as Hk.
    + subst. split; [done|]. intros Hn. destruct Hn. apply list_elem_of_here.
    + rewrite IH, not_elem_of_cons. simpl. split; [|tauto].
      intros H. split; [congruence|done].
Qed.

Lemma row_lookup_NoDup e cs rs :
  NoDup rs.*1 → (e, cs) ∈ rs → row_lookup e rs = Some cs.
Proof.
  induction rs as [|[k c] rs IH]; simpl.
  - intros _ H. by apply elem_of_nil in H.
  - rewrite NoDup_cons. intros [Hk Hnd] [[= -> ->]|Hin]%elem_of_cons.
    + by rewrite decide_True.
    + rewrite decide_False; [auto|].
      intros ->. apply Hk. apply list_elem_of_fmap. by exists (e, cs).
Qed.

Lemma forallb_Forall_true {A} (f : A → bool) l :
  forallb f l = true ↔ Forall (λ x, f x = true) l.
Proof.
  induction l as [|x l IH]; simpl; [by split; constructor|].
  rewrite andb_true_iff, Forall_cons, IH. done.
Qed.

Lemma existsb_false_Forall {A} (f : A → bool) l :
  existsb f l = false ↔ Forall (λ x, f x = false) l.
Proof.
  induction l as [|x l IH]; simpl; [by split; constructor|].
  rewrite orb_false_iff, Forall_cons, IH. done.
Qed.

Lemma astype_float_numeric df :
  numeric_frame df → astype_float df = Ok df.
Proof.
  intros H. unfold astype_float.
  assert (existsb (λ r, existsb cell_is_str r.2) (rows df) = false) as ->;
    [|done].
  apply existsb_false_Forall. eapply Forall_impl; [exact H|].
  intros r Hr. by apply existsb_false_Forall.
Qed.

Lemma dropna_any_rows df r :
  r ∈ rows (dropna_any df) ↔
  r ∈ rows df ∧ Forall (λ c, isnull c = false) r.2.
Proof.
  unfold dropna_any; simpl. rewrite list_elem_of_filter.
  rewrite forallb_Forall_true.
  split; intros [H1 H2]; (split; [|done]) || (split; [done|]).
  - eapply Forall_impl; [exact H1|]. intros c; simpl. by destruct (isnull c).
  - eapply Forall_impl; [exact H2|]. intros c; simpl. by intros ->.
Qed.

Lemma dropna_any_numeric df :
  numeric_frame df → numeric_frame (dropna_any df).
Proof.
  unfold numeric_frame. rewrite !Forall_forall.
  intros H r [Hr _]%dropna_any_rows. auto.
Qed.

(** ** Filter *)

Lemma filter_counts_run self label st unf :
  st !! counts_unfiltered_key label = Some unf →
  numeric_frame unf →
  filter_counts self label st
  = (Ok tt, <[counts_key label := dropna_any unf]> st).
Proof.
  intros Hunf Hnum. unfold filter_counts.
  assert (∀ b : bool,
    (if b then store_select (counts_unfiltered_key label)
     else store_select (counts_unfiltered_key label)) st = (Ok unf, st))
    as Hsel.
  { intros []; unfold store_select; by rewrite Hunf. }
  erewrite bind_ok; [|apply Hsel].
  erewrite bind_ok;
    [|unfold lift; by rewrite (astype_float_numeric _ (dropna_any_numeric _ Hnum))].
  done.
Qed.


(** ** Aggregator *)

Lemma elem_of_index_union e a b :
  e ∈ index_union a b ↔ e ∈ a ∨ e ∈ b.
Proof.
  unfold index_union.
  rewrite merge_sort_Permutation, elem_of_remove_dups, elem_of_app. done.
Qed.

Lemma NoDup_index_union a b : NoDup (index_union a b).
Proof.
  unfold index_union. rewrite merge_sort_Permutation. apply NoDup_remove_dups.
Qed.

Lemma index_union_singleton (c : string) : index_union [c] [c] = [c].
Proof.
  pose proof (NoDup_index_union [c] [c]) as Hnd.
  pose proof (elem_of_index_union c [c] [c]) as Hc.
  assert (∀ x, x ∈ index_union [c] [c] → x = c) as Hall.
  { intros x [Hx|Hx]%elem_of_index_union; by apply list_elem_of_singleton in Hx. }
  destruct (index_union [c] [c]) as [|x [|y l]].
  - exfalso. apply (not_elem_of_nil c), Hc. left. apply list_elem_of_here.
  - f_equal. apply Hall. apply list_elem_of_here.
  - exfalso. apply NoDup_cons in Hnd as [Hx _]. apply Hx.
    rewrite (Hall x), <-(Hall y); [apply list_elem_of_here| |].
    + apply list_elem_of_further, list_elem_of_here.
    + apply list_elem_of_here.
Qed.

Lemma all_ok_map_Ok {A B} (f : A → result B) (g : A → B) l :
  (∀ x, x ∈ l → f x = Ok (g x)) → all_ok (map f l) = Ok (map g l).
Proof.
  induction l as [|x l IH]; simpl; [done|]. intros H.
  rewrite (H x) by apply list_elem_of_here. simpl.
  rewrite IH; [done|]. intros y Hy. apply H. by apply list_elem_of_further.
Qed.

Lemma Zsum_app a b : Zsum (a ++ b) = Zsum a + Zsum b.
Proof. unfold Zsum. induction a as [|x a IH]; simpl; [done|]. rewrite IH. lia. Qed.

Section timepoint.
Context (lib_table : string) (chunk : list string).


Lemma lib_count_row lib df e cs :
  lib_store lib !! lib_table = Some df → counts_table df →
  (e, cs) ∈ rows df →
  ∃ z, cs = [Num z] ∧ lib_count lib_table lib e = Some z.
Proof.
  intros Hdf (Hcols & Hnd & Hrows) Hin.
  rewrite Forall_forall in Hrows. destruct (Hrows _ Hin) as [z Hz].
  simpl in Hz. subst cs. exists z. split; [done|].
  unfold lib_count. rewrite Hdf. simpl. unfold loc.
  by rewrite (row_lookup_NoDup _ _ _ Hnd Hin).
Qed.

Lemma lib_count_index lib df e :
  lib_store lib !! lib_table = Some df → counts_table df →
  is_Some (lib_count lib_table lib e) ↔ e ∈ index df.
Proof.
  intros Hdf Hct. split.
  - intros [z Hz]. unfold lib_count in Hz. rewrite Hdf in Hz. simpl in Hz.
    destruct (loc df e) as [cs|] eqn:Hloc; [|done].
    apply row_lookup_Some in Hloc. apply list_elem_of_fmap. by exists (e, cs).
  - intros (r & -> & Hr)%list_elem_of_fmap. destruct r as [e cs].
    destruct (lib_count_row _ _ _ _ Hdf Hct Hr) as (z & _ & Hz). by exists z.
Qed.

Lemma Zsum_no_rows libs e :
  existsb (λ lib, lib_has lib_table lib e) libs = false →
  Zsum (map (λ lib, default 0 (lib_count lib_table lib e)) libs) = 0.
Proof.
  induction libs as [|lib libs IH]; simpl; [done|].
  intros [H1 H2]%orb_false_iff. rewrite (IH H2).
  unfold lib_has in H1. apply bool_decide_eq_false in H1.
  destruct (lib_count lib_table lib e); [destruct H1; eauto|done].
Qed.


Lemma summed_count_snoc P lib e :
  add_fill (summed_count lib_table P e) (lib_cell lib_table lib e)
  = Ok (summed_count lib_table (P ++ [lib]) e).
Proof.
  unfold summed_count, lib_cell. rewrite existsb_app, map_app, Zsum_app.
  cbn [existsb map Zsum foldr]. rewrite orb_false_r.
  destruct (existsb _ P) eqn:HP; cbn [orb].
  - destruct (lib_count lib_table lib e); simpl; do 2 f_equal; lia.
  - rewrite (Zsum_no_rows _ _ HP). unfold lib_has.
    destruct (lib_count lib_table lib e) as [z|] eqn:Hz; simpl.
    + do 2 f_equal. lia.
    + done.
Qed.

Lemma summed_count_NaN libs e :
  summed_count lib_table libs e = NaN ↔
  existsb (λ lib, lib_has lib_table lib e) libs = false.
Proof.
  unfold summed_count.
  destruct (existsb _ libs); split; done.
Qed.


Lemma summed_frame_cell P c e :
  summed_frame lib_table chunk P c → e ∈ chunk →
  cell_or_nan c e "count" = summed_count lib_table P e.
Proof.
  intros (Hcols & Hrows & Hall) He.
  unfold cell_or_nan, at_. rewrite Hcols. simpl.
  destruct (loc c e) as [cs|] eqn:Hloc; simpl.
  - apply row_lookup_Some in Hloc. by destruct (Hrows _ _ Hloc) as (_ & -> & _).
  - apply row_lookup_None in Hloc.
    destruct (summed_count lib_table P e) eqn:Hs; [done|..];
      destruct Hloc; apply Hall; try done; by rewrite Hs.
Qed.


Lemma summed_count_single lib e z :
  lib_count lib_table lib e = Some z →
  summed_count lib_table [lib] e = Num z.
Proof.
  intros Hz. unfold summed_count, lib_has. simpl. rewrite Hz. simpl.
  by rewrite Z.add_0_r.
Qed.

Lemma lib_select_where_spec lib :
  lib_ready lib_table lib →
  ∃ o, lib_select_where lib lib_table chunk = Ok o ∧
       summed_frame lib_table chunk [lib] o ∧
       (∀ e, e ∈ index o → e ∈ chunk ∧ lib_has lib_table lib e = true) ∧
       (∀ e, e ∈ chunk → lib_has lib_table lib e = true → e ∈ index o) ∧
       (∀ e, e ∈ chunk → cell_or_nan o e "count" = lib_cell lib_table lib e).
Proof.
  intros (df & Hdf & Hct).
  unfold lib_select_where, lib_select. rewrite Hdf. simpl.
  eexists. split; [done|].
  assert (∀ e cs,
    (e, cs) ∈ filter (λ r : string * list cell, r.1 ∈ chunk) (rows df) ↔
    e ∈ chunk ∧ (e, cs) ∈ rows df) as Hfil.
  { intros e cs. by rewrite list_elem_of_filter. }
  assert (∀ e, e ∈ (filter (λ r : string * list cell, r.1 ∈ chunk)
                      (rows df)).*1 ↔ e ∈ chunk ∧ lib_has lib_table lib e = true)
    as Hidx.
  { intros e. unfold lib_has.
    rewrite bool_decide_eq_true, (lib_count_index _ _ _ Hdf Hct).
    unfold index. rewrite !list_elem_of_fmap. split.
    + intros ([e' cs] & -> & Hr). apply Hfil in Hr as [? ?].
      split; [done|]. by exists (e', cs).
    + intros (He & [e' cs] & -> & Hr). exists (e', cs).
      split; [done|]. by apply Hfil. }
  assert (∀ e, summed_count lib_table [lib] e = lib_cell lib_table lib e) as Hsc.
  { intros e. unfold lib_cell.
    destruct (lib_count lib_table lib e) as [z|] eqn:Hz.
    - by apply summed_count_single.
    - apply summed_count_NaN. simpl. unfold lib_has. rewrite Hz.
      rewrite bool_decide_eq_false_2; [done|]. by intros [? ?]. }
  assert (∀ e, e ∈ chunk →
    cell_or_nan (mkDF (columns df)
      (filter (λ r : string * list cell, r.1 ∈ chunk) (rows df))) e "count"
    = lib_cell lib_table lib e) as Hcell.
  { intros e He. unfold cell_or_nan, at_, loc, lib_cell; simpl.
    pose proof Hct as (-> & Hnd & Hrows). simpl.
    destruct (row_lookup e _) as [cs|] eqn:Hloc; simpl.
    + apply row_lookup_Some, Hfil in Hloc as [_ Hr].
      by destruct (lib_count_row _ _ _ _ Hdf Hct Hr) as (z & -> & ->).
    + apply row_lookup_None in Hloc.
      destruct (lib_count lib_table lib e) as [z|] eqn:Hz; [|done].
      destruct Hloc. apply Hidx. split; [done|].
      unfold lib_has. rewrite Hz. by apply bool_decide_eq_true_2. }
  split; [|split; [|split]]; [| |by intros; apply Hidx|done].
  - split; [apply Hct|]. simpl. split.
    + intros e cs Hr. apply Hfil in Hr as [He Hr]. split; [done|].
      destruct (lib_count_row _ _ _ _ Hdf Hct Hr) as (z & -> & Hz).
      by rewrite (summed_count_single _ _ _ Hz).
    + intros e He Hs. apply Hidx. split; [done|].
      rewrite Hsc in Hs. unfold lib_cell, lib_has in *.
      destruct (lib_count lib_table lib e); [|done].
      by apply bool_decide_eq_true_2.
  - intros e. apply Hidx.
Qed.

Lemma frame_add_fill_spec P c lib o :
  summed_frame lib_table chunk P c →
  (∀ e, e ∈ index o → e ∈ chunk ∧ lib_has lib_table lib e = true) →
  (∀ e, e ∈ chunk → lib_has lib_table lib e = true → e ∈ index o) →
  columns o = ["count"] →
  (∀ e, e ∈ chunk → cell_or_nan o e "count" = lib_cell lib_table lib e) →
  ∃ c', frame_add_fill c o = Ok c' ∧ summed_frame lib_table chunk (P ++ [lib]) c'.
Proof.
  intros HP Ho1 Ho2 Hocols Hocell.
  pose proof HP as (Hcols & Hrows & Hall).
  unfold frame_add_fill. rewrite Hcols, Hocols, index_union_singleton.
  assert (∀ e, e ∈ index_union (index c) (index o) → e ∈ chunk) as Hch.
  { intros e [He|He]%elem_of_index_union; [|by apply Ho1].
    apply list_elem_of_fmap in He as ([e' cs] & -> & Hr).
    by apply Hrows in Hr as [? _]. }
  erewrite (all_ok_map_Ok _
    (λ e, (e, [summed_count lib_table (P ++ [lib]) e]))).
  2:{ intros e He. simpl.
      rewrite (summed_frame_cell _ _ _ HP (Hch _ He)),
        (Hocell _ (Hch _ He)), summed_count_snoc. done. }
  simpl. eexists. split; [done|].
  assert (∀ e, summed_count lib_table (P ++ [lib]) e ≠ NaN ↔
               summed_count lib_table P e ≠ NaN ∨ lib_has lib_table lib e = true)
    as Hsn.
  { intros e. rewrite !summed_count_NaN, existsb_app. simpl.
    destruct (existsb _ P), (lib_has lib_table lib e); simpl; intuition congruence. }
  split; [done|]. simpl. split.
  - intros e cs (e' & [= -> ->] & He)%list_elem_of_fmap.
    split; [by apply Hch|]. split; [done|].
    apply Hsn. apply elem_of_index_union in He as [He|He].
    + left. apply list_elem_of_fmap in He as ([e'' cs] & -> & Hr).
      by apply Hrows in Hr as (_ & _ & ?).
    + right. by apply Ho1.
  - intros e He Hs. unfold index. simpl.
    rewrite <-list_fmap_compose. simpl.
    rewrite list_fmap_id.
    apply elem_of_index_union. apply Hsn in Hs as [Hs|Hs]; [left|right]; auto.
Qed.

Lemma fold_add_spec others : ∀ P c,
  summed_frame lib_table chunk P c →
  Forall (lib_ready lib_table) others →
  ∃ c', fold_result
          (λ c lib,
             o ← lib_select_where lib lib_table chunk;
             frame_add_fill c o)
          others c = Ok c' ∧
        summed_frame lib_table chunk (P ++ others) c'.
Proof.
  induction others as [|lib others IH]; intros P c HP Hready; simpl.
  - exists c. by rewrite app_nil_r.
  - apply Forall_cons in Hready as [Hlib Hready].
    destruct (lib_select_where_spec lib Hlib)
      as (o & -> & Hsf & Ho1 & Ho2 & Hocell). simpl.
    destruct (frame_add_fill_spec P c lib o HP Ho1 Ho2 (proj1 Hsf) Hocell)
      as (c1 & -> & Hc1). simpl.
    destruct (IH _ _ Hc1 Hready) as (c' & -> & Hc').
    exists c'. split; [done|]. by rewrite <-app_assoc in Hc'.
Qed.
End timepoint.

Lemma count_column_inj tp1 tp2 : count_column tp1 = count_column tp2 → tp1 = tp2.
Proof.
  unfold count_column. intros H. apply (inj (String.app _)) in H.
  by apply (inj pretty) in H.
Qed.

Lemma list_intersection_nil (l k : list string) :
  (∀ x, x ∈ l → x ∉ k) → list_intersection l k = [].
Proof.
  intros H. destruct (list_intersection l k) as [|x r] eqn:Hi; [done|].
  assert (x ∈ list_intersection l k) as Hx by (rewrite Hi; apply list_elem_of_here).
  apply list_elem_of_intersection in Hx as [Hl Hk]. by destruct (H x Hl).
Qed.

Section chunk.
Context (self : Selection) (lib_table : string) (chunk : list string).




Lemma merge_timepoint_spec tp :
  timepoint_ready self lib_table tp →
  ∃ c, merge_timepoint self lib_table chunk tp = Ok c ∧ joined_frame self lib_table chunk [tp] c.
Proof.
  intros [Hne Hready]. unfold merge_timepoint, joined_frame, expected_cell.
  destruct (libraries_at self tp) as [|lib0 others] eqn:Hlibs; [done|].
  apply Forall_cons in Hready as [Hlib Hready].
  destruct (lib_select_where_spec lib_table chunk lib0 Hlib)
    as (o & -> & Hsf & _). simpl.
  destruct (fold_add_spec lib_table chunk others [lib0] o Hsf Hready)
    as (c & -> & Hcols & Hrows & Hall). simpl.
  unfold set_columns. rewrite Hcols, decide_True by done.
  eexists. split; [done|]. simpl. split; [done|]. split.
  - intros e cs Hr. destruct (Hrows _ _ Hr) as (He & -> & Hs).
    split; [done|]. rewrite Hlibs. split; [done|]. exists tp.
    rewrite Hlibs. split; [apply list_elem_of_here|done].
  - intros e tp' He ->%list_elem_of_singleton Hs. rewrite Hlibs in Hs.
    by apply Hall.
Qed.

Lemma joined_frame_loc T f e :
  joined_frame self lib_table chunk T f → e ∈ chunk →
  default (nan_row f) (loc f e) = map (expected_cell self lib_table e) T.
Proof.
  intros (Hcols & Hrows & Hall) He.
  destruct (loc f e) as [cs|] eqn:Hloc; simpl.
  - apply row_lookup_Some in Hloc. by destruct (Hrows _ _ Hloc) as (_ & -> & _).
  - apply row_lookup_None in Hloc. unfold nan_row. rewrite Hcols.
    rewrite length_map. clear Hcols Hrows.
    induction T as [|tp T IH]; simpl; [done|]. f_equal.
    + destruct (expected_cell self lib_table e tp) eqn:Hc; [done|..];
        destruct Hloc; apply (Hall e tp He); try apply list_elem_of_here;
        by rewrite Hc.
    + apply IH. intros e' tp' He' Htp'. apply Hall; [done|].
      by apply list_elem_of_further.
Qed.

Lemma frame_join_outer_spec T f tp c :
  joined_frame self lib_table chunk T f → joined_frame self lib_table chunk [tp] c → tp ∉ T →
  ∃ f', frame_join_outer f c = Ok f' ∧ joined_frame self lib_table chunk (T ++ [tp]) f'.
Proof.
  intros Hf Hc Htp.
  pose proof Hf as (Hcols & Hrows & Hall).
  pose proof Hc as (Hccols & Hcrows & Hcall).
  unfold frame_join_outer.
  rewrite bool_decide_eq_true_2.
  2:{ apply list_intersection_nil. rewrite Hcols, Hccols.
      intros x (tp' & -> & Htp')%list_elem_of_fmap
        ->%list_elem_of_singleton%count_column_inj. done. }
  eexists. split; [done|].
  assert (∀ e, e ∈ index_union (index f) (index c) → e ∈ chunk) as Hch.
  { intros e [He|He]%elem_of_index_union;
      apply list_elem_of_fmap in He as ([e' cs] & -> & Hr);
      [by apply Hrows in Hr as [? _] | by apply Hcrows in Hr as [? _]]. }
  split; [|split]; simpl.
  - by rewrite Hcols, Hccols, map_app.
  - intros e cs (e' & [= -> ->] & He)%list_elem_of_fmap.
    split; [by apply Hch|].
    rewrite (joined_frame_loc _ _ _ Hf (Hch _ He)),
      (joined_frame_loc _ _ _ Hc (Hch _ He)), map_app.
    split; [done|].
    apply elem_of_index_union in He as [He|He];
      apply list_elem_of_fmap in He as ([e'' cs] & -> & Hr).
    + apply Hrows in Hr as (_ & _ & tp' & Htp' & Hs).
      exists tp'. split; [|done]. apply elem_of_app. by left.
    + apply Hcrows in Hr as (_ & _ & tp' & Htp' & Hs).
      exists tp'. split; [|done]. apply elem_of_app. by right.
  - intros e tp' He Htp' Hs. unfold index. simpl.
    rewrite <-list_fmap_compose. simpl. rewrite list_fmap_id.
    apply elem_of_index_union.
    apply elem_of_app in Htp' as [Htp'|Htp']; [left|right]; eauto.
Qed.


Lemma merge_chunk_rest rest : ∀ T f,
  joined_frame self lib_table chunk T f →
  NoDup (T ++ rest) → 0 ∉ rest →
  Forall (timepoint_ready self lib_table) rest →
  ∃ f', fold_result (merge_chunk_step self lib_table chunk) rest (Some f) = Ok (Some f') ∧
        joined_frame self lib_table chunk (T ++ rest) f'.
Proof.
  induction rest as [|tp rest IH]; intros T f Hf Hnd H0 Hready;
    cbn [fold_result].
  - exists f. by rewrite app_nil_r.
  - apply Forall_cons in Hready as [Htp Hready].
    apply not_elem_of_cons in H0 as [Hne H0].
    unfold merge_chunk_step at 2.
    destruct (merge_timepoint_spec tp Htp) as (c & -> & Hc). simpl.
    rewrite decide_False by done.
    assert (tp ∉ T) as HtpT.
    { apply NoDup_app in Hnd as (_ & Hd & _). intros Hin.
      apply (Hd tp Hin). apply list_elem_of_here. }
    destruct (frame_join_outer_spec T f tp c Hf Hc HtpT) as (f1 & -> & Hf1).
    simpl.
    rewrite cons_middle, app_assoc in Hnd |- *.
    by apply IH.
Qed.

Lemma merge_chunk_spec rest tp_frame :
  timepoints self = 0 :: rest →
  Forall (timepoint_ready self lib_table) (timepoints self) →
  NoDup (timepoints self) →
  ∃ f, merge_chunk self lib_table chunk tp_frame = Ok (Some f) ∧
       joined_frame self lib_table chunk (timepoints self) f.
Proof.
  intros Htps Hready Hnd. unfold merge_chunk. rewrite Htps in *.
  apply Forall_cons in Hready as [H0 Hready].
  cbn [fold_result]. unfold merge_chunk_step at 2.
  destruct (merge_timepoint_spec 0 H0) as (c & -> & Hc). simpl.
  apply (merge_chunk_rest rest [0] c Hc); [done| |done].
  by apply NoDup_cons in Hnd as [? _].
Qed.
End chunk.

Lemma fold_result_cons {A B} (f : B → A → result B) x xs b :
  fold_result f (x :: xs) b = (b' ← f b x; fold_result f xs b').
Proof. done. Qed.

Lemma build_complete_index_fold lib_table libs : ∀ acc,
  NoDup acc →
  Forall (lib_ready lib_table) libs →
  ∃ ci, fold_result
          (λ complete_index lib,
             idx ← lib_select_column_index lib lib_table;
             Ok (index_union complete_index idx))
          libs acc = Ok ci ∧
        NoDup ci ∧
        ∀ e, e ∈ ci ↔
             e ∈ acc ∨ ∃ lib, lib ∈ libs ∧ is_Some (lib_count lib_table lib e).
Proof.
  induction libs as [|lib libs IH]; intros acc Hnd Hready.
  - exists acc. split; [done|]. split; [done|]. intros e. split; [by left|].
    intros [?|(lib & Hl & _)]; [done|]. by apply elem_of_nil in Hl.
  - apply Forall_cons in Hready as [(df & Hdf & Hct) Hready].
    rewrite fold_result_cons.
    assert (lib_select_column_index lib lib_table = Ok (index df)) as ->.
    { unfold lib_select_column_index, lib_select. by rewrite Hdf. }
    simpl.
    destruct (IH (index_union acc (index df)) (NoDup_index_union _ _) Hready)
      as (ci & -> & Hci & Hiff).
    exists ci. split; [done|]. split; [done|]. intros e.
    rewrite Hiff, elem_of_index_union, <-(lib_count_index _ _ _ _ Hdf Hct).
    split.
    + intros [[?|?]|(l & Hl & ?)]; [by left| |].
      * right. exists lib. split; [apply list_elem_of_here|done].
      * right. exists l. split; [by apply list_elem_of_further|done].
    + intros [?|(l & [->|Hl]%elem_of_cons & ?)]; [by left; left|by left; right|].
      right. by exists l.
Qed.

Lemma py_range_pos stop step :
  0 < step →
  py_range stop step
  = Ok (map (λ k : nat, Z.of_nat k * step)
            (seq 0 (Z.to_nat ((stop + step - 1) `div` step)))).
Proof.
  intros H. unfold py_range.
  rewrite decide_False by lia. by rewrite decide_False by lia.
Qed.

Lemma slice_subseteq {A} (l : list A) i j : slice l i j ⊆ l.
Proof.
  unfold slice. etrans; [apply subseteq_take|apply subseteq_drop].
Qed.

Lemma chunk_cover {A} (l : list A) (cs : Z) (e : A) :
  0 < cs → e ∈ l →
  ∃ i, i ∈ map (λ k : nat, Z.of_nat k * cs)
             (seq 0 (Z.to_nat ((Z.of_nat (length l) + cs - 1) `div` cs))) ∧
       e ∈ slice l i (i + cs).
Proof.
  intros Hcs (j & Hj)%list_elem_of_lookup.
  pose proof (lookup_lt_Some _ _ _ Hj) as Hlt.
  set (k := Z.to_nat (Z.of_nat j `div` cs)).
  assert (0 <= Z.of_nat j `div` cs)%Z as Hk0 by (apply Z.div_pos; lia).
  pose proof (Z.mul_div_le (Z.of_nat j) cs Hcs) as Hle.
  pose proof (Z.mod_pos_bound (Z.of_nat j) cs Hcs) as Hmod.
  pose proof (Z.div_mod (Z.of_nat j) cs ltac:(lia)) as Hdm.
  exists (Z.of_nat k * cs). split.
  - apply list_elem_of_fmap. exists k. split; [done|].
    apply elem_of_seq. split; [lia|]. simpl.
    assert (Z.of_nat j `div` cs < (Z.of_nat (length l) + cs - 1) `div` cs);
      [|lia].
    apply Z.div_lt_upper_bound; [lia|].
    pose proof (Z.mul_succ_div_gt (Z.of_nat (length l) + cs - 1) cs Hcs).
    nia.
  - unfold slice. apply elem_of_take.
    exists (j - Z.to_nat (Z.of_nat k * cs))%nat. split.
    + rewrite lookup_drop. rewrite <-Hj. f_equal. unfold k. lia.
    + unfold k. rewrite Z2Nat.id by done. lia.
Qed.

Lemma summed_count_not_str lib_table libs e :
  cell_is_str (summed_count lib_table libs e) = false.
Proof. unfold summed_count. by destruct (existsb _ libs). Qed.

Lemma store_append_rows key df st :
  ∃ st', store_append key df st = (Ok tt, st') ∧
    (∀ k, k ≠ key → st' !! k = st !! k) ∧
    store_rows st' key = (store_rows st key ++ rows df)%list ∧
    match st !! key with
    | Some old => ∃ new, st' !! key = Some new ∧ columns new = columns old
    | None => st' !! key = Some df
    end.
Proof.
  unfold store_append, store_rows.
  destruct (st !! key) as [old|] eqn:Hold; eexists; (split; [done|]).
  - split; [by intros k Hk; rewrite lookup_insert_ne|].
    rewrite lookup_insert_eq. eauto.
  - split; [by intros k Hk; rewrite lookup_insert_ne|].
    by rewrite lookup_insert_eq.
Qed.

Section aggregate.
Context (self : Selection) (label : string).
Context (rest : list Z) (Htps : timepoints self = 0 :: rest).
Context (Hready :
  Forall (timepoint_ready self (counts_key label)) (timepoints self)).
Context (Hnd : NoDup (timepoints self)).
Context (ci : list string).
Context (Hci : ∀ e, e ∈ ci →
  ∃ tp, tp ∈ timepoints self ∧
        expected_cell self (counts_key label) e tp ≠ NaN).



Lemma chunk_of_subseteq i : chunk_of self ci i ⊆ ci.
Proof. unfold chunk_of. case_decide; [apply slice_subseteq|done]. Qed.

Lemma chunk_frame_rows i f r :
  joined_frame self (counts_key label) (chunk_of self ci i) (timepoints self) f →
  r ∈ rows f ↔ r.1 ∈ chunk_of self ci i ∧ r.2 = expected_row self label r.1.
Proof.
  intros (Hcols & Hrows & Hall). destruct r as [e cs]. simpl. split.
  - intros Hr. by destruct (Hrows _ _ Hr) as (? & ? & _).
  - intros [He ->].
    destruct (Hci e (chunk_of_subseteq _ _ He)) as (tp & Htp & Hs).
    pose proof (Hall e tp He Htp Hs) as ([e' cs] & -> & Hr)%list_elem_of_fmap.
    simpl. by destruct (Hrows _ _ Hr) as (_ & -> & _).
Qed.

Lemma chunk_frame_numeric chunk f :
  joined_frame self (counts_key label) chunk (timepoints self) f →
  numeric_frame f.
Proof.
  intros (_ & Hrows & _). apply Forall_forall. intros [e cs] Hr.
  destruct (Hrows _ _ Hr) as (_ & -> & _). simpl.
  apply Forall_forall. intros c (tp & -> & _)%list_elem_of_fmap.
  apply summed_count_not_str.
Qed.

Lemma merge_chunks_spec starts : ∀ tpf st,
  ∃ st',
    merge_chunks self label (counts_key label) ci starts tpf st
    = (Ok tt, st') ∧
    (∀ k, k ≠ counts_unfiltered_key label → st' !! k = st !! k) ∧
    (∀ r, r ∈ store_rows st' (counts_unfiltered_key label) ↔
          r ∈ store_rows st (counts_unfiltered_key label) ∨
          ∃ i, i ∈ starts ∧ r.1 ∈ chunk_of self ci i ∧ r.2 = expected_row self label r.1) ∧
    match st !! counts_unfiltered_key label with
    | Some old =>
        ∃ new, st' !! counts_unfiltered_key label = Some new ∧
               columns new = columns old
    | None =>
        (starts = [] ∧ st' = st) ∨
        ∃ new, st' !! counts_unfiltered_key label = Some new ∧
               columns new = map count_column (timepoints self)
    end.
Proof.
  induction starts as [|i starts IH]; intros tpf st.
  - exists st. split; [done|]. split; [done|]. split.
    + intros r. split; [by left|].
      intros [?|(i & Hi & _)]; [done|]. by apply elem_of_nil in Hi.
    + destruct (st !! _) eqn:Hk; [by eauto|]. by left.
  - cbn [merge_chunks]. fold (chunk_of self ci i).
    destruct (merge_chunk_spec self (counts_key label) (chunk_of self ci i) rest tpf
                Htps Hready Hnd) as (f & Hf & Hjf).
    erewrite bind_ok; [|unfold lift; by rewrite Hf].
    cbv beta iota.
    erewrite bind_ok; [|reflexivity].
    erewrite bind_ok;
      [|unfold lift; by rewrite (astype_float_numeric _
                                   (chunk_frame_numeric _ _ Hjf))].
    destruct (store_append_rows (counts_unfiltered_key label) f st)
      as (st1 & Happ & Hframe1 & Hrows1 & Hkey1).
    erewrite bind_ok; [|by destruct (bool_decide _); apply Happ].
    destruct (IH (Some f) st1) as (st' & -> & Hframe & Hrows & Hkey).
    exists st'. split; [done|]. split; [|split].
    + intros k Hk. by rewrite Hframe, Hframe1.
    + intros r. rewrite Hrows, Hrows1, elem_of_app.
      rewrite (chunk_frame_rows i f r Hjf). split.
      * intros [[?|?]|(i' & Hi' & ?)]; [by left| |].
        -- right. exists i. split; [apply list_elem_of_here|done].
        -- right. exists i'. split; [by apply list_elem_of_further|done].
      * intros [?|(i' & [->|Hi']%elem_of_cons & ?)];
          [by left; left|by left; right|].
        right. by exists i'.
    + destruct (st !! counts_unfiltered_key label) as [old|] eqn:Hold.
      * destruct Hkey1 as (new1 & Hn1 & Hc1). rewrite Hn1 in Hkey.
        destruct Hkey as (new & ? & ?). exists new. split; [done|congruence].
      * right. rewrite Hkey1 in Hkey. destruct Hkey as (new & ? & Hc).
        exists new. split; [done|]. rewrite Hc. apply Hjf.
Qed.
End aggregate.

Lemma NoDup_timepoints self : NoDup (timepoints self).
Proof.
  unfold timepoints. rewrite merge_sort_Permutation. apply NoDup_elements.
Qed.

Lemma elem_of_timepoints self tp :
  tp ∈ timepoints self ↔ is_Some (libraries self !! tp).
Proof.
  unfold timepoints.
  by rewrite merge_sort_Permutation, elem_of_elements, elem_of_dom.
Qed.

Lemma elem_of_libs_by_timepoint self lib :
  lib ∈ libs_by_timepoint self ↔
  ∃ tp, tp ∈ timepoints self ∧ lib ∈ libraries_at self tp.
Proof.
  unfold libs_by_timepoint. rewrite list_elem_of_bind.
  split; intros (tp & ? & ?); by exists tp.
Qed.


Lemma expected_cell_has self lib_table lib tp e :
  lib ∈ libraries_at self tp →
  is_Some (lib_count lib_table lib e) →
  expected_cell self lib_table e tp ≠ NaN.
Proof.
  intros Hlib Hsome Hnan. apply summed_count_NaN in Hnan.
  apply existsb_false_Forall in Hnan. rewrite Forall_forall in Hnan.
  specialize (Hnan _ Hlib). unfold lib_has in Hnan.
  by apply bool_decide_eq_false in Hnan.
Qed.



Lemma example_libs_ready :
  ∀ lib, lib ∈ libs_by_timepoint example_selection →
    ∃ df, lib_store lib !! counts_key "variants" = Some df ∧ counts_table df.
Proof.
  apply Forall_forall.
  replace (libs_by_timepoint example_selection)
    with [example_lib "a0" [("A", 10)]; example_lib "b0" [("A", 10)];
          example_lib "a1" [("A", 5)]; example_lib "b1" [("B", 1); ("A", 7)];
          example_lib "a2" [("A", 2)]; example_lib "b2" [("A", 4); ("B", 1)]]
    by (by vm_compute).
  repeat apply Forall_cons_2; try apply Forall_nil_2;
    (eexists; split; [by vm_compute|]);
    (split; [done|]); (split; [compute_done|]);
    repeat constructor; by eexists.
Qed.



Lemma filter_counts_missing_source self label st :
  st !! counts_unfiltered_key label = None →
  filter_counts self label st
  = (Raise (KeyError (counts_unfiltered_key label)), st).
Proof.
  intros Hunf. unfold filter_counts.
  assert (∀ b : bool,
    (if b then store_select (counts_unfiltered_key label)
     else store_select (counts_unfiltered_key label)) st
    = (Raise (KeyError (counts_unfiltered_key label)), st)) as Hsel.
  { intros []; unfold store_select; by rewrite Hunf. }
  erewrite bind_raise; [done|apply Hsel].
Qed.




(** ** Validator *)

(** C8: with [logr_method = "wt"] and a library without a wild type
    sequence, [validate] raises a [ValueError]; the driver then never
    reaches [calculate], so the store is as it was: the error comes before
    any table is written. *)
Theorem validate_wild_type_required scorer protein_variant norm_sf self st :
  logr_method self = "wt" →
  has_wt_sequence self = false →
  ∃ msg,
    validate self = Raise (ValueError msg) ∧
    main_driver scorer protein_variant norm_sf self st
    = (Raise (ValueError msg), st).
Proof.
  intros Hlogr Hwt.
  assert (∃ msg, validate self = Raise (ValueError msg)) as [msg Hmsg].
  { unfold validate. rewrite Hlogr, Hwt.
    repeat (match goal with
            | |- context [if ?b then _ else _] => destruct b
            end; simpl; eauto). }
  exists msg. split; [done|].
  unfold main_driver. erewrite bind_raise; [done|].
  unfold lift. by rewrite Hmsg.
Qed.

Lemma validate_wild_type_required_witness :
  ∃ msg,
    validate example_selection_wt = Raise (ValueError msg) ∧
    main_driver (λ _ _ _ _, Raise (KeyError "")) id id example_selection_wt ∅
    = (Raise (ValueError msg), ∅).
Proof.
  apply (validate_wild_type_required _ _ _ example_selection_wt ∅).
  - done.
  - by vm_compute.
Defined.

(** ** Frame conditions *)

Lemma list_ascii_of_string_app a b :
  String.list_ascii_of_string (a +:+ b)
  = (String.list_ascii_of_string a ++ String.list_ascii_of_string b)%list.
Proof. induction a as [|c a IH]; simpl; [done|]. by rewrite IH. Qed.

Lemma key_suffix_ne (a b s t : string) :
  let S := String.list_ascii_of_string s in
  let T := String.list_ascii_of_string t in
  (length S <= length T)%nat →
  S ≠ drop (length T - length S) T →
  a +:+ s ≠ b +:+ t.
Proof.
  intros S T Hlen Hne Heq. apply Hne.
  apply (f_equal String.list_ascii_of_string) in Heq.
  rewrite !list_ascii_of_string_app in Heq. fold S T in Heq.
  rewrite <-(take_drop (length T - length S) T), app_assoc in Heq.
  apply app_inj_2 in Heq as [_ Heq]; [done|].
  rewrite length_drop. lia.
Qed.

Lemma main_key_suffix_ne l1 t1 l2 t2 :
  "/" +:+ t1 ≠ "/" +:+ t2 →
  (let S := String.list_ascii_of_string ("/" +:+ t1) in
   let T := String.list_ascii_of_string ("/" +:+ t2) in
   (length S <= length T)%nat ∧ S ≠ drop (length T - length S) T) →
  main_key l1 t1 ≠ main_key l2 t2.
Proof.
  intros _ [Hlen Hne] H. unfold main_key in H.
  apply (inj (String.app _)) in H.
  by apply (key_suffix_ne l1 l2 ("/" +:+ t1) ("/" +:+ t2)) in H.
Qed.




Section frame.
Context (K : string → Prop).

Lemma writes_only_ret {A} (a : A) : writes_only K (ret a).
Proof. by intros st k _. Qed.

Lemma writes_only_raise {A} (e : exn) : writes_only K (@raise A e).
Proof. by intros st k _. Qed.

Lemma writes_only_lift {A} (r : result A) : writes_only K (lift r).
Proof. by intros st k _. Qed.

Lemma writes_only_bind {A B} (m : M A) (f : A → M B) :
  writes_only K m → (∀ a, writes_only K (f a)) → writes_only K (bind m f).
Proof.
  intros Hm Hf st k Hk. unfold bind.
  specialize (Hm st k Hk). destruct (m st) as [[a|e] st1]; simpl in *.
  - by rewrite (Hf a st1 k Hk).
  - done.
Qed.

Lemma writes_only_for_each {A} (xs : list A) (body : A → M unit) :
  (∀ x, x ∈ xs → writes_only K (body x)) → writes_only K (for_each xs body).
Proof.
  induction xs as [|x xs IH]; intros H; simpl.
  - apply writes_only_ret.
  - apply writes_only_bind.
    + apply H, list_elem_of_here.
    + intros _. apply IH. intros y Hy. by apply H, list_elem_of_further.
Qed.
End frame.

Lemma writes_only_mono {A} (K K' : string → Prop) (m : M A) :
  (∀ k, K k → K' k) → writes_only K m → writes_only K' m.
Proof. intros HK Hm st k Hk. apply Hm. intros ?. by apply Hk, HK. Qed.

Lemma writes_only_store_contains K key : writes_only K (store_contains key).
Proof. by intros st k _. Qed.

Lemma writes_only_store_select K key : writes_only K (store_select key).
Proof. intros st k _. unfold store_select. by destruct (st !! key). Qed.

Lemma writes_only_store_put (K : string → Prop) key df :
  K key → writes_only K (store_put key df).
Proof.
  intros HK st k Hk. unfold store_put. simpl.
  apply lookup_insert_ne. by intros ->.
Qed.

Lemma writes_only_store_remove (K : string → Prop) key :
  K key → writes_only K (store_remove key).
Proof.
  intros HK st k Hk. unfold store_remove.
  destruct (st !! key); simpl; [|done].
  apply lookup_delete_ne. by intros ->.
Qed.

Lemma writes_only_store_append (K : string → Prop) key df :
  K key → writes_only K (store_append key df).
Proof.
  intros HK st k Hk. unfold store_append.
  destruct (st !! key); simpl; apply lookup_insert_ne; by intros ->.
Qed.

Lemma writes_only_check_store K self key : writes_only K (check_store self key).
Proof.
  apply writes_only_bind; [apply writes_only_store_contains|].
  intros ?. apply writes_only_ret.
Qed.

Lemma writes_only_merge_chunks (K : string → Prop) self label lib_table ci
    starts :
  K (counts_unfiltered_key label) →
  ∀ tpf, writes_only K (merge_chunks self label lib_table ci starts tpf).
Proof.
  intros HK. induction starts as [|i starts IH]; intros tpf; simpl.
  - apply writes_only_ret.
  - apply writes_only_bind; [apply writes_only_lift|]. intros [f|].
    + apply writes_only_bind; [apply writes_only_store_contains|].
      intros present. apply writes_only_bind; [apply writes_only_lift|].
      intros f'. apply writes_only_bind; [|intros _; apply IH].
      destruct present; by apply writes_only_store_append.
    + apply writes_only_raise.
Qed.

Lemma writes_only_merge_counts_unfiltered (K : string → Prop) self label :
  K (counts_unfiltered_key label) →
  writes_only K (merge_counts_unfiltered self label).
Proof.
  intros HK. unfold merge_counts_unfiltered.
  apply writes_only_bind; [apply writes_only_check_store|].
  intros []; [apply writes_only_ret|].
  apply writes_only_bind; [apply writes_only_store_contains|].
  intros present. apply writes_only_bind.
  { destruct present; [by apply writes_only_store_remove|apply writes_only_ret]. }
  intros _. apply writes_only_bind; [apply writes_only_lift|].
  intros ci. apply writes_only_bind; [apply writes_only_lift|].
  intros starts. by apply writes_only_merge_chunks.
Qed.

Lemma writes_only_filter_counts (K : string → Prop) self label :
  K (counts_key label) → writes_only K (filter_counts self label).
Proof.
  intros HK. unfold filter_counts.
  apply writes_only_bind.
  { destruct (_ && _); apply writes_only_store_select. }
  intros df. apply writes_only_bind; [apply writes_only_lift|].
  intros df'. by apply writes_only_store_put.
Qed.

Lemma writes_only_combine_barcode_maps (K : string → Prop) self :
  K barcodemap_key → writes_only K (combine_barcode_maps self).
Proof.
  intros HK. unfold combine_barcode_maps.
  apply writes_only_bind; [apply writes_only_check_store|].
  intros []; [apply writes_only_ret|].
  apply writes_only_bind; [apply writes_only_lift|].
  intros [bcm|]; [|apply writes_only_raise].
  apply writes_only_bind; [apply writes_only_lift|].
  intros bcm'. by apply writes_only_store_put.
Qed.

Lemma writes_only_table_not_empty_for_key K self key :
  writes_only K (table_not_empty_for_key self key).
Proof.
  unfold table_not_empty_for_key, table_exists_for_key.
  apply writes_only_bind; [apply writes_only_check_store|].
  intros []; simpl; [|apply writes_only_raise].
  apply writes_only_bind; [apply writes_only_store_select|].
  intros df. apply writes_only_ret.
Qed.

Lemma writes_only_ensure_count_table K self label :
  writes_only K (ensure_count_table self label).
Proof.
  unfold ensure_count_table.
  apply writes_only_bind; [apply writes_only_check_store|].
  intros []; simpl; [|apply writes_only_raise].
  apply writes_only_bind; [apply writes_only_table_not_empty_for_key|].
  intros []; simpl; [apply writes_only_ret|apply writes_only_raise].
Qed.

Lemma writes_only_ensure K self :
  writes_only K (ensure_main_count_tables_exist_and_populated self).
Proof.
  unfold ensure_main_count_tables_exist_and_populated.
  apply writes_only_for_each. intros label _.
  apply writes_only_ensure_count_table.
Qed.


Lemma bind_Ok_inv {A B} (m : M A) (f : A → M B) st b st' :
  bind m f st = (Ok b, st') →
  ∃ a st1, m st = (Ok a, st1) ∧ f a st1 = (Ok b, st').
Proof.
  unfold bind. destruct (m st) as [[a|e] st1]; [|done].
  intros H. by exists a, st1.
Qed.

Lemma check_store_run self key st :
  check_store self key st
  = (Ok (bool_decide (is_Some (st !! key)) && negb (force_recalculate self)),
     st).
Proof. done. Qed.

Lemma for_each_Ok_inv {A} (xs : list A) (body : A → M unit) st st' :
  (∀ x st0 r st1, body x st0 = (r, st1) → st1 = st0) →
  for_each xs body st = (Ok tt, st') →
  st' = st ∧ ∀ x, x ∈ xs → body x st = (Ok tt, st).
Proof.
  intros Hro. induction xs as [|x xs IH]; simpl.
  - intros [= <-]. split; [done|]. by intros x ?%elem_of_nil.
  - intros (u & st1 & Hx & Hxs)%bind_Ok_inv.
    pose proof (Hro _ _ _ _ Hx) as ->. destruct u.
    destruct (IH Hxs) as [-> Hall]. split; [done|].
    intros y [->|Hy]%elem_of_cons; auto.
Qed.

Lemma ensure_Ok_inv self st st' :
  ensure_main_count_tables_exist_and_populated self st = (Ok tt, st') →
  st' = st ∧ ∀ label, label ∈ labels self → is_Some (st !! counts_key label).
Proof.
  intros H. apply for_each_Ok_inv in H as [-> Hall].
  - split; [done|]. intros label Hl. specialize (Hall label Hl).
    unfold ensure_count_table, table_exists_for_key in Hall.
    rewrite (bind_ok _ _ _ _ _ (check_store_run _ _ _)) in Hall.
    destruct (st !! counts_key label); [by eauto|done].
  - intros label st0 r st1 Hb.
    apply map_eq. intros k.
    pose proof (writes_only_ensure_count_table (λ _, False) self label st0 k)
      as Hw.
    rewrite Hb in Hw. apply Hw. tauto.
Qed.



(** ** OutlierDetector *)

Lemma read_only_outlier_mapping protein_variant self label :
  read_only (outlier_mapping protein_variant self label).
Proof.
  intros st. unfold outlier_mapping.
  repeat case_decide; [| |done].
  - unfold synonymous_variants. by destruct (st !! _).
  - unfold barcodemap_mapping, bind, store_select, lift.
    destruct (st !! barcodemap_key); [|done]. simpl.
    by destruct (get_col _ _).
Qed.

Lemma read_only_store_select_columns key cols :
  read_only (store_select_columns key cols).
Proof.
  intros st. unfold store_select_columns, bind, store_select.
  by destruct (st !! key).
Qed.

Lemma read_only_lift {A} (r : result A) : read_only (lift r).
Proof. done. Qed.

Lemma raises_unchanged_bind {A B} (m : M A) (f : A → M B) :
  read_only m → (∀ a, raises_unchanged (f a)) → raises_unchanged (bind m f).
Proof.
  intros Hm Hf st. unfold bind. specialize (Hm st).
  destruct (m st) as [[a|e] st1]; simpl in Hm; subst st1.
  - apply Hf.
  - by exists e.
Qed.

(** The list of chunk sizes is never built: the quotient of the two
    integers is a float, and a list is not multiplied by a float. *)
Lemma chunk_list_raises {A} len log_chunksize (f : list Z → M A) :
  raises_unchanged
    (quotient ←ₘ lift (true_div len log_chunksize) ;;
     repeated ←ₘ lift (list_mul [log_chunksize] quotient) ;;
     f repeated).
Proof.
  intros st. unfold bind, lift, true_div.
  case_decide; [by eexists|]. simpl. by eexists.
Qed.

Lemma chunk_list_type_error {A} len log_chunksize (f : list Z → M A) st :
  log_chunksize ≠ 0 →
  (quotient ←ₘ lift (true_div len log_chunksize) ;;
   repeated ←ₘ lift (list_mul [log_chunksize] quotient) ;;
   f repeated) st
  = (Raise type_error_float, st).
Proof.
  intros Hne. unfold bind, lift, true_div. by rewrite decide_False.
Qed.

Lemma check_store_false self key st :
  st !! key = None ∨ force_recalculate self = true →
  check_store self key st = (Ok false, st).
Proof.
  intros H. rewrite check_store_run. do 2 f_equal.
  destruct H as [->| ->]; [done|]. apply andb_false_r.
Qed.

Lemma check_store_true self key st :
  is_Some (st !! key) → force_recalculate self = false →
  check_store self key st = (Ok true, st).
Proof.
  intros H Hf. rewrite check_store_run, Hf.
  by rewrite bool_decide_eq_true_2.
Qed.

(** Whenever [calc_outliers] gets past its guard it raises, and the store
    is as it was: the key [/main/<label>/outliers] is never written. *)
Lemma calc_outliers_raises protein_variant norm_sf self label
    minimum_components log_chunksize st :
  st !! outliers_key label = None ∨ force_recalculate self = true →
  ∃ e, calc_outliers protein_variant norm_sf self label minimum_components
         log_chunksize st = (Raise e, st).
Proof.
  intros Hguard. unfold calc_outliers.
  erewrite bind_ok; [|by apply check_store_false]. cbv beta iota.
  revert st Hguard. intros st _. revert st.
  apply raises_unchanged_bind; [apply read_only_lift|]. intros label2.
  apply raises_unchanged_bind; [apply read_only_outlier_mapping|].
  intros mapping.
  apply raises_unchanged_bind; [apply read_only_store_select_columns|].
  intros df1.
  apply raises_unchanged_bind; [apply read_only_store_select_columns|].
  intros df2.
  apply raises_unchanged_bind; [apply read_only_lift|]. intros df1'.
  apply raises_unchanged_bind; [apply read_only_lift|]. intros df2'.
  cbv zeta. apply chunk_list_raises.
Qed.

(** C10: for a label with a parent label, with the key
    [/main/<label>/outliers] absent and the components and the two score
    tables read, [calc_outliers] multiplies a list by the float
    [len(df2) / log_chunksize]: it raises [TypeError] and the store is as
    it was, so the outliers key is never written. *)
Theorem calc_outliers_type_error protein_variant norm_sf self label
    minimum_components log_chunksize st label2 mapping df1 df2 var1 var2 :
  log_chunksize ≠ 0 →
  st !! outliers_key label = None →
  parent_label self label = Ok label2 →
  outlier_mapping protein_variant self label st = (Ok mapping, st) →
  st !! scores_key label = Some df1 →
  st !! scores_key label2 = Some df2 →
  precalculate_variance (select_columns df1 ["score"; "SE"]) = Ok var1 →
  precalculate_variance (select_columns df2 ["score"; "SE"]) = Ok var2 →
  (label = "variants" ∨ label = "barcodes") ∧
  calc_outliers protein_variant norm_sf self label minimum_components
    log_chunksize st = (Raise type_error_float, st) ∧
  (calc_outliers protein_variant norm_sf self label minimum_components
     log_chunksize st).2 !! outliers_key label = None.
Proof.
  intros Hne Hkey Hparent Hmap Hdf1 Hdf2 Hv1 Hv2.
  assert (calc_outliers protein_variant norm_sf self label minimum_components
            log_chunksize st = (Raise type_error_float, st)) as Hrun.
  { unfold calc_outliers.
    erewrite bind_ok; [|apply check_store_false; by left]. cbv beta iota.
    erewrite bind_ok; [|unfold lift; by rewrite Hparent].
    erewrite bind_ok; [|exact Hmap].
    erewrite bind_ok;
      [|unfold store_select_columns, bind, store_select, ret; by rewrite Hdf1].
    erewrite bind_ok;
      [|unfold store_select_columns, bind, store_select, ret; by rewrite Hdf2].
    erewrite bind_ok; [|unfold lift; by rewrite Hv1].
    erewrite bind_ok; [|unfold lift; by rewrite Hv2].
    cbv zeta. by apply chunk_list_type_error. }
  split; [|split; [done|by rewrite Hrun]].
  unfold parent_label in Hparent. repeat case_decide; auto. done.
Qed.

Lemma calc_outliers_type_error_witness :
  calc_outliers example_protein_variant id example_selection_ratios
    "variants" 4 20000 example_scored_store
  = (Raise type_error_float, example_scored_store).
Proof.
  eapply (calc_outliers_type_error example_protein_variant id
            example_selection_ratios "variants" 4 20000 example_scored_store
            "synonymous").
  - done.
  - by vm_compute.
  - done.
  - unfold outlier_mapping. rewrite decide_True by done.
    unfold synonymous_variants.
    replace (example_scored_store !! counts_key "variants")
      with (Some (example_counts [("v1", 3); ("v2", 4); ("v3", 5); ("v4", 6)]))
      by (by vm_compute).
    reflexivity.
  - by vm_compute.
  - by vm_compute.
  - by vm_compute.
  - by vm_compute.
Defined.

(** ** The loop of the outlier test *)

Lemma row_lookup_update e (f : list cell → list cell) rs :
  row_lookup e
    (map (λ r : string * list cell,
            if decide (r.1 = e) then (r.1, f r.2) else r) rs)
  = f <$> row_lookup e rs.
Proof.
  induction rs as [|[k cs] rs IH]; simpl; [done|].
  destruct (decide (k = e)) as [->|Hne]; simpl.
  - by rewrite decide_True.
  - by rewrite decide_False.
Qed.

Lemma set_at_loc df e c v i :
  col_pos c (columns df) = Some i →
  ∃ df', set_at df e c v = Ok df' ∧
         columns df' = columns df ∧
         loc df' e = set_cell i v <$> loc df e.
Proof.
  intros Hi. unfold set_at. rewrite Hi. eexists. split; [done|].
  split; [done|]. unfold loc. simpl. apply row_lookup_update.
Qed.

(** A parent with fewer scored components than [minimum_components]
    leaves the results as they are. *)
Lemma outlier_step_below_threshold norm_sf mapping df1 df2
    minimum_components log_chunksize log_chunksize_list log_chunk result_df
    i x members selected state :
  mapping !! x = Some members →
  loc_list df1 members = Ok selected →
  (Z.of_nat (length (index (dropna_all selected))) < minimum_components) →
  outlier_step norm_sf mapping df1 df2 minimum_components log_chunksize
    log_chunksize_list (log_chunk, result_df) (i, x) = Ok state →
  state.2 = result_df.
Proof.
  intros Hmap Hsel Hlt. unfold outlier_step. rewrite Hmap, Hsel.
  destruct (py_mod _ _) as [r|]; [|done]. simpl.
  destruct (decide (minimum_components
                    <= Z.of_nat (length (index (dropna_all selected))))%Z);
    [lia|].
  destruct (decide (r = 0)).
  - destruct (log_chunksize_list !! _); simpl; [|done].
    intros Hs. injection Hs as Hs. by rewrite <-Hs.
  - simpl. intros Hs. injection Hs as Hs. by rewrite <-Hs.
Qed.

(** The statistics written for the component [c] of an element [x]. *)
Lemma outlier_component_written norm_sf df1 df2 x result_df c
    x_score c_score x_var c_var cs :
  columns result_df = ["z"; "pvalue_raw"; "parent"] →
  loc result_df c = Some cs → length cs = 3%nat →
  at_float df2 x "score" = Ok x_score →
  at_float df1 c "score" = Ok c_score →
  at_float df2 x "var" = Ok x_var →
  at_float df1 c "var" = Ok c_var →
  let zvalue := (PrimFloat.abs (x_score - c_score)
                 / PrimFloat.sqrt (x_var + c_var))%float in
  ∃ result_df',
    outlier_component norm_sf df1 df2 x result_df c = Ok result_df' ∧
    at_ result_df' c "z" = Some (Flt zvalue) ∧
    at_ result_df' c "pvalue_raw" = Some (Flt (2 * norm_sf zvalue)%float) ∧
    at_ result_df' c "parent" = Some (Str x).
Proof.
  intros Hcols Hloc Hlen Hxs Hcs Hxv Hcv zvalue.
  unfold outlier_component. rewrite Hxs, Hcs, Hxv, Hcv. simpl.
  fold zvalue.
  destruct (set_at_loc result_df c "z" (Flt zvalue) 0%nat)
    as (r1 & -> & Hc1 & Hl1); [by rewrite Hcols|]. simpl.
  destruct (set_at_loc r1 c "pvalue_raw" (Flt (2 * norm_sf zvalue)%float)
              1%nat) as (r2 & -> & Hc2 & Hl2); [by rewrite Hc1, Hcols|].
  simpl.
  destruct (set_at_loc r2 c "parent" (Str x) 2%nat)
    as (r3 & -> & Hc3 & Hl3); [by rewrite Hc2, Hc1, Hcols|].
  exists r3. split; [done|].
  unfold at_. rewrite Hc3, Hc2, Hc1, Hcols, Hl3, Hl2, Hl1, Hloc.
  destruct cs as [|c0 [|c1 [|c2 [|]]]]; done.
Qed.

(** C6, at an input where the code does not do what is specified: the
    element [p1] has four scored components, which meets
    [minimum_components = 4], and the loop of [calc_outliers], run on the
    tables of the store, would give each of the four a [z] that is not
    missing; but [calc_outliers] raises [TypeError] before the loop and
    stores no outliers table at all. *)
Lemma calc_outliers_threshold_met_nothing_written :
  (∃ members selected,
     example_mapping !! "p1" = Some members ∧
     loc_list (example_variances (scores_key "variants")) members
     = Ok selected ∧
     length (index (dropna_all selected)) = 4%nat) ∧
  (∃ log_chunk result_df,
     outlier_step id example_mapping
       (example_variances (scores_key "variants"))
       (example_variances (scores_key "synonymous"))
       4 20000 [20000; 1] (1, example_result_df) (0%nat, "p1")
     = Ok (log_chunk, result_df) ∧
     Forall (λ c, ∃ z, at_ result_df c "z" = Some (Flt z) ∧
                       PrimFloat.is_nan z = false)
            ["v1"; "v2"; "v3"; "v4"]) ∧
  calc_outliers example_protein_variant id example_selection_ratios
    "variants" 4 20000 example_scored_store
  = (Raise type_error_float, example_scored_store) ∧
  example_scored_store !! outliers_key "variants" = None.
Proof.
  split; [|split; [|split]].
  - do 2 eexists. split; [by vm_compute|]. split; by vm_compute.
  - do 2 eexists. split; [by vm_compute|].
    repeat constructor; eexists; split; by vm_compute.
  - by vm_compute.
  - by vm_compute.
Qed.

(** ** Idempotence *)

Lemma filter_counts_unfold self label st :
  filter_counts self label st
  = match st !! counts_unfiltered_key label with
    | None => (Raise (KeyError (counts_unfiltered_key label)), st)
    | Some unf =>
        match astype_float (dropna_any unf) with
        | Ok df => (Ok tt, <[counts_key label := df]> st)
        | Raise e => (Raise e, st)
        end
    end.
Proof.
  unfold filter_counts, bind, store_select, lift, store_put.
  destruct (_ && _); destruct (st !! _); try done;
    by destruct (astype_float _).
Qed.

Lemma filter_counts_twice self label st :
  filter_counts self label (filter_counts self label st).2
  = ((filter_counts self label st).1, (filter_counts self label st).2).
Proof.
  rewrite (filter_counts_unfold self label st).
  destruct (st !! counts_unfiltered_key label) as [unf|] eqn:Hunf; simpl.
  - destruct (astype_float (dropna_any unf)) as [df|e] eqn:Hdf; simpl.
    + rewrite filter_counts_unfold.
      rewrite lookup_insert_ne by apply counts_key_ne_unfiltered.
      rewrite Hunf, Hdf. by rewrite insert_insert_eq.
    + rewrite filter_counts_unfold. by rewrite Hunf, Hdf.
  - rewrite filter_counts_unfold. by rewrite Hunf.
Qed.

Lemma merge_counts_unfiltered_found self label st :
  is_Some (st !! counts_unfiltered_key label) →
  force_recalculate self = false →
  merge_counts_unfiltered self label st = (Ok tt, st).
Proof.
  intros Hk Hf. unfold merge_counts_unfiltered.
  by erewrite bind_ok; [|by apply check_store_true].
Qed.

Lemma score_label_found strategy self label st :
  is_Some (st !! scores_key label) →
  force_recalculate self = false →
  score_label strategy self label st = (Ok tt, st).
Proof.
  intros Hk Hf. unfold score_label.
  by erewrite bind_ok; [|by apply check_store_true].
Qed.

Lemma calc_outliers_found protein_variant norm_sf self label
    minimum_components log_chunksize st :
  is_Some (st !! outliers_key label) →
  force_recalculate self = false →
  calc_outliers protein_variant norm_sf self label minimum_components
    log_chunksize st = (Ok tt, st).
Proof.
  intros Hk Hf. unfold calc_outliers.
  by erewrite bind_ok; [|by apply check_store_true].
Qed.

(** C1: without forced recomputation, a second call of
    [merge_counts_unfiltered], [filter_counts], the scorer or
    [calc_outliers] for the same label, made once the destination key of
    the first call exists, leaves the whole store as the first call left
    it. *)
Theorem pipeline_stages_idempotent strategy protein_variant norm_sf self
    label minimum_components log_chunksize st :
  force_recalculate self = false →
  (let st1 := (merge_counts_unfiltered self label st).2 in
   is_Some (st1 !! counts_unfiltered_key label) →
   merge_counts_unfiltered self label st1 = (Ok tt, st1)) ∧
  (let st1 := (filter_counts self label st).2 in
   is_Some (st1 !! counts_key label) →
   (filter_counts self label st1).2 = st1) ∧
  (let st1 := (score_label strategy self label st).2 in
   is_Some (st1 !! scores_key label) →
   score_label strategy self label st1 = (Ok tt, st1)) ∧
  (let st1 := (calc_outliers protein_variant norm_sf self label
                 minimum_components log_chunksize st).2 in
   is_Some (st1 !! outliers_key label) →
   calc_outliers protein_variant norm_sf self label minimum_components
     log_chunksize st1 = (Ok tt, st1)).
Proof.
  intros Hf. repeat split; intros st1 Hk.
  - by apply merge_counts_unfiltered_found.
  - unfold st1. by rewrite filter_counts_twice.
  - by apply score_label_found.
  - by apply calc_outliers_found.
Qed.

Lemma pipeline_stages_idempotent_witness :
  let st1 := (merge_counts_unfiltered example_selection "variants" ∅).2 in
  let st2 := (filter_counts example_selection "variants" st1).2 in
  st1 !! counts_unfiltered_key "variants" = Some example_unfiltered ∧
  merge_counts_unfiltered example_selection "variants" st1 = (Ok tt, st1) ∧
  is_Some (st2 !! counts_key "variants") ∧
  (filter_counts example_selection "variants" st2).2 = st2.
Proof.
  intros st1 st2.
  destruct (pipeline_stages_idempotent (λ _ _ _, Raise (KeyError "")) id id
              example_selection "variants" 4 20000 ∅ eq_refl)
    as (Hmerge & _).
  destruct (pipeline_stages_idempotent (λ _ _ _, Raise (KeyError "")) id id
              example_selection "variants" 4 20000 st1 eq_refl)
    as (_ & Hfilter & _).
  assert (st1 !! counts_unfiltered_key "variants" = Some example_unfiltered)
    as H1 by (by vm_compute).
  assert (is_Some (st2 !! counts_key "variants")) as H2
    by (vm_compute; eauto).
  split; [done|]. split; [apply Hmerge; eauto|]. split; [done|].
  by apply Hfilter.
Defined.

(** ** The index check *)

Lemma elem_of_index_intersection e a b :
  e ∈ index_intersection a b ↔ e ∈ a ∧ e ∈ b.
Proof.
  unfold index_intersection.
  by rewrite merge_sort_Permutation, elem_of_remove_dups,
    list_elem_of_intersection.
Qed.

Lemma NoDup_index_intersection a b : NoDup (index_intersection a b).
Proof.
  unfold index_intersection. rewrite merge_sort_Permutation.
  apply NoDup_remove_dups.
Qed.

Lemma elem_of_foldl_intersection e idxs : ∀ a,
  e ∈ foldl index_intersection a idxs ↔ e ∈ a ∧ ∀ idx, idx ∈ idxs → e ∈ idx.
Proof.
  induction idxs as [|idx idxs IH]; intros a; simpl.
  - split; [|by intros [? _]]. intros H. split; [done|].
    by intros idx ?%elem_of_nil.
  - rewrite IH, elem_of_index_intersection. split.
    + intros [[Ha Hi] Hall]. split; [done|].
      intros idx' [->|Hin]%elem_of_cons; auto.
    + intros [Ha Hall]. split; [split; [done|]|].
      * apply Hall, list_elem_of_here.
      * intros idx' Hin. by apply Hall, list_elem_of_further.
Qed.

Lemma NoDup_foldl_intersection idxs : ∀ a,
  NoDup a → NoDup (foldl index_intersection a idxs).
Proof.
  induction idxs as [|idx idxs IH]; intros a Ha; simpl; [done|].
  apply IH, NoDup_index_intersection.
Qed.

Lemma length_remove_dups_NoDup (l : list string) :
  NoDup l → length (remove_dups l) = length l.
Proof.
  intros Hnd. apply Permutation_length, NoDup_Permutation;
    [apply NoDup_remove_dups|done|]. intros x. apply elem_of_remove_dups.
Qed.

Lemma map_result_Ok {A B} (f : A → result B) (g : A → B) xs :
  (∀ x, x ∈ xs → f x = Ok (g x)) → map_result f xs = Ok (map g xs).
Proof.
  induction xs as [|x xs IH]; intros H; simpl; [done|].
  rewrite (H x) by apply list_elem_of_here. simpl.
  rewrite IH; [done|]. intros y Hy. by apply H, list_elem_of_further.
Qed.

(** Equal length decides whether the common labels are all the labels of
    an index. *)
Lemma common_length_iff (common idx : list string) :
  NoDup common → NoDup idx → (∀ e, e ∈ common → e ∈ idx) →
  length common = length idx ↔ ∀ e, e ∈ idx → e ∈ common.
Proof.
  intros Hc Hi Hsub. split.
  - intros Hlen e He.
    assert (common ≡ₚ idx) as Hp.
    { apply submseteq_length_Permutation; [by apply NoDup_submseteq|lia]. }
    by rewrite Hp.
  - intros Hsup. apply Permutation_length, NoDup_Permutation; [done..|].
    intros e. split; auto.
Qed.

(** C5, as amended: [timepoint_indices_intersect_for_label(label)] raises
    a [ValueError] unless the libraries' tables for the label all have the
    same set of element identifiers; [calculate] does not call it. *)
Theorem timepoint_indices_intersect_for_label_spec self label :
  libs_by_timepoint self ≠ [] →
  (∀ lib, lib ∈ libs_by_timepoint self →
     ∃ df, lib_store lib !! counts_key label = Some df ∧ NoDup (index df)) →
  (timepoint_indices_intersect_for_label self label = Ok tt ↔
   ∀ lib1 lib2, lib1 ∈ libs_by_timepoint self →
     lib2 ∈ libs_by_timepoint self →
     ∀ e, e ∈ lib_index label lib1 ↔ e ∈ lib_index label lib2) ∧
  (timepoint_indices_intersect_for_label self label = Ok tt ∨
   ∃ msg, timepoint_indices_intersect_for_label self label
          = Raise (ValueError msg)).
Proof.
  intros Hne Hlibs. unfold timepoint_indices_intersect_for_label.
  set (libs := libs_by_timepoint self) in *.
  rewrite (map_result_Ok _ (lib_index label)).
  2:{ intros lib Hlib. destruct (Hlibs lib Hlib) as (df & Hdf & _).
      unfold lib_select_column_index, lib_select, lib_index.
      by rewrite Hdf. }
  assert (∀ lib, lib ∈ libs → NoDup (lib_index label lib)) as Hnd.
  { intros lib Hlib. destruct (Hlibs lib Hlib) as (df & Hdf & Hd).
    unfold lib_index. by rewrite Hdf. }
  destruct libs as [|lib0 rest] eqn:Hl; [done|]. simpl.
  set (common := foldl index_intersection (lib_index label lib0)
                   (map (lib_index label) rest)).
  assert (NoDup common) as Hcnd.
  { apply NoDup_foldl_intersection, Hnd, list_elem_of_here. }
  assert (∀ e, e ∈ common ↔ ∀ lib, lib ∈ lib0 :: rest → e ∈ lib_index label lib)
    as Hcommon.
  { intros e. unfold common. rewrite elem_of_foldl_intersection. split.
    - intros [H0 Hall] lib [->|Hin]%elem_of_cons; [done|].
      apply Hall, list_elem_of_fmap. by exists lib.
    - intros Hall. split; [apply Hall, list_elem_of_here|].
      intros idx (lib & -> & Hin)%list_elem_of_fmap.
      by apply Hall, list_elem_of_further. }
  set (all_good := bool_decide (length common
                     = length (remove_dups (lib_index label lib0)))
     && forallb (λ idx_len, bool_decide (length common = idx_len))
          (map (λ idx, length (remove_dups idx)) (map (lib_index label) rest))).
  assert (all_good = true ↔
          ∀ lib, lib ∈ lib0 :: rest →
            ∀ e, e ∈ lib_index label lib → e ∈ common) as Hgood.
  { unfold all_good.
    rewrite andb_true_iff, bool_decide_eq_true, forallb_Forall_true.
    rewrite !Forall_fmap, Forall_forall.
    rewrite length_remove_dups_NoDup by apply Hnd, list_elem_of_here.
    rewrite common_length_iff;
      [|done|apply Hnd, list_elem_of_here
       |intros e He; apply Hcommon; [done|apply list_elem_of_here]].
    split.
    - intros [H0 Hall] lib [->|Hin]%elem_of_cons; [done|].
      specialize (Hall lib Hin). simpl in Hall.
      apply bool_decide_eq_true in Hall.
      rewrite length_remove_dups_NoDup in Hall
        by by apply Hnd, list_elem_of_further.
      eapply common_length_iff; [done| | |done].
      + by apply Hnd, list_elem_of_further.
      + intros e He. apply Hcommon; [done|by apply list_elem_of_further].
    - intros Hall. split; [apply Hall, list_elem_of_here|].
      intros lib Hin. simpl. apply bool_decide_eq_true.
      rewrite length_remove_dups_NoDup by by apply Hnd, list_elem_of_further.
      apply common_length_iff; [done| | |].
      + by apply Hnd, list_elem_of_further.
      + intros e He. apply Hcommon; [done|by apply list_elem_of_further].
      + by apply Hall, list_elem_of_further. }
  fold all_good. split.
  - destruct all_good.
    + split; [intros _|done]. intros lib1 lib2 H1 H2 e.
      destruct Hgood as [Hg _]. specialize (Hg eq_refl). split; intros He.
      * apply (Hg _ H1) in He. by apply (proj1 (Hcommon e) He).
      * apply (Hg _ H2) in He. by apply (proj1 (Hcommon e) He).
    + split; [done|]. intros Heq. exfalso.
      assert (false = true) as Hft; [|done]. apply Hgood.
      intros lib Hlib e He. apply Hcommon. intros lib' Hlib'.
      by apply (Heq lib lib' Hlib Hlib').
  - destruct all_good; simpl; [by left|right; by eexists].
Qed.

Lemma timepoint_indices_intersect_for_label_spec_witness :
  ∃ msg, timepoint_indices_intersect_for_label example_selection "variants"
         = Raise (ValueError msg).
Proof.
  destruct (timepoint_indices_intersect_for_label_spec example_selection
              "variants") as [Hiff [Hok|Hraise]].
  - by vm_compute.
  - intros lib Hlib. destruct (example_libs_ready lib Hlib) as (df & ? & Hct).
    exists df. split; [done|]. apply Hct.
  - exfalso. pose proof (proj1 Hiff Hok) as Hall.
    assert ("B" ∈ lib_index "variants" (example_lib "a0" [("A", 10)])) as HB.
    { apply (Hall (example_lib "b1" [("B", 1); ("A", 7)])).
      - apply elem_of_libs_by_timepoint. exists 1. split; [compute_done|].
        apply list_elem_of_further, list_elem_of_here.
      - apply elem_of_libs_by_timepoint. exists 0. split; [compute_done|].
        apply list_elem_of_here.
      - compute_done. }
    apply (bool_decide_pack _) in HB. by vm_compute in HB.
  - done.
Defined.

(** C5 as stated fails: the libraries of the scenario do not have the same
    elements, the check raises on them, and [calculate] returns without
    an error. *)
Lemma calculate_skips_index_check :
  (∃ msg, timepoint_indices_intersect_for_label example_selection "variants"
          = Raise (ValueError msg)) ∧
  (calculate (λ _ _ _ _, Raise (KeyError "")) id id example_selection ∅).1
  = Ok tt.
Proof. split; [by eexists; vm_compute|by vm_compute]. Qed.

(** ** BarcodeMapMerger *)

Global Instance value_le_total : Total value_le.
Proof.
  intros [] []; simpl; auto. apply (total String.le).
Qed.

Global Instance row_value_le_total i : Total (row_value_le i).
Proof. intros r1 r2. unfold row_value_le. apply (total value_le). Qed.

Lemma raw_value_row lib df b c :
  lib_store lib !! raw_barcodemap_key = Some df → barcode_map_table df →
  (b, [c]) ∈ rows df → raw_value lib b = c.
Proof.
  intros Hdf (Hcols & Hnd & _) Hin. unfold raw_value, cell_or_nan, at_, loc.
  rewrite Hdf, Hcols. by rewrite (row_lookup_NoDup _ _ _ Hnd Hin).
Qed.

Lemma raw_value_absent lib b : b ∉ raw_index lib → raw_value lib b = NaN.
Proof.
  unfold raw_index, raw_value, cell_or_nan, at_, loc.
  destruct (lib_store lib !! raw_barcodemap_key) as [df|]; [|done].
  intros H. apply row_lookup_None in H. by rewrite H.
Qed.

Lemma raw_value_cases lib b :
  barcode_lib_ready lib →
  raw_value lib b = NaN ∨ ∃ s, raw_value lib b = Str s.
Proof.
  intros (df & Hdf & Hbm).
  destruct (decide (b ∈ raw_index lib)) as [Hin|Hout];
    [|left; by apply raw_value_absent].
  unfold raw_index in Hin. rewrite Hdf in Hin.
  apply list_elem_of_fmap in Hin as ([b' cs] & -> & Hr).
  pose proof Hbm as (_ & _ & Hrows). rewrite Forall_forall in Hrows.
  destruct (Hrows _ Hr) as (c & Hc & Hnum). simpl in Hc. subst cs. simpl.
  rewrite (raw_value_row _ _ _ _ Hdf Hbm Hr).
  destruct c; try done; [by left|right; by eexists].
Qed.

Lemma first_seen_cases P b :
  Forall barcode_lib_ready P →
  first_seen P b = NaN ∨ ∃ s, first_seen P b = Str s.
Proof.
  induction 1 as [|lib P Hlib _ IH]; simpl; [by left|].
  destruct (raw_value_cases lib b Hlib) as [->|[s ->]]; simpl; eauto.
Qed.

Lemma first_seen_snoc P lib b :
  Forall barcode_lib_ready P → barcode_lib_ready lib →
  first_seen (P ++ [lib]) b
  = if isnull (first_seen P b) then raw_value lib b else first_seen P b.
Proof.
  intros HP Hlib. induction HP as [|a P Ha _ IH]; simpl.
  - by destruct (raw_value_cases lib b Hlib) as [->|[s ->]].
  - destruct (raw_value_cases a b Ha) as [->|[s ->]]; simpl; [done|done].
Qed.

Lemma first_seen_absent P b :
  (∀ lib, lib ∈ P → b ∉ raw_index lib) → first_seen P b = NaN.
Proof.
  induction P as [|lib P IH]; intros H; simpl; [done|].
  rewrite raw_value_absent by apply H, list_elem_of_here. simpl.
  apply IH. intros l Hl. by apply H, list_elem_of_further.
Qed.

Lemma merged_frame_first lib df :
  lib_store lib !! raw_barcodemap_key = Some df → barcode_map_table df →
  merged_frame [lib] df.
Proof.
  intros Hdf Hbm. pose proof Hbm as (Hcols & Hnd & Hrows).
  assert (raw_index lib = index df) as Hidx.
  { unfold raw_index. by rewrite Hdf. }
  split; [done|]. split; [done|]. split.
  - intros b cs Hr. rewrite Forall_forall in Hrows.
    destruct (Hrows _ Hr) as (c & Hc & Hnum). simpl in Hc. subst cs.
    split.
    + simpl. rewrite (raw_value_row _ _ _ _ Hdf Hbm Hr).
      by destruct c.
    + exists lib. split; [apply list_elem_of_here|]. rewrite Hidx.
      apply list_elem_of_fmap. by exists (b, [c]).
  - intros b lib' ->%list_elem_of_singleton Hb. by rewrite <-Hidx.
Qed.

Lemma merged_frame_value P bcm b :
  merged_frame P bcm →
  default (nan_row bcm) (loc bcm b) = [first_seen P b].
Proof.
  intros (Hcols & Hnd & Hrows & Hall). unfold nan_row. rewrite Hcols.
  destruct (loc bcm b) as [cs|] eqn:Hloc; simpl.
  - apply row_lookup_Some in Hloc. by destruct (Hrows _ _ Hloc) as [-> _].
  - apply row_lookup_None in Hloc. rewrite first_seen_absent; [done|].
    intros lib Hlib Hb. apply Hloc. by eapply Hall.
Qed.

Lemma raw_frame_value lib df b :
  lib_store lib !! raw_barcodemap_key = Some df → barcode_map_table df →
  default (nan_row df) (loc df b) = [raw_value lib b].
Proof.
  intros Hdf Hbm. pose proof Hbm as (Hcols & Hnd & Hrows).
  unfold nan_row. rewrite Hcols.
  destruct (loc df b) as [cs|] eqn:Hloc; simpl.
  - apply row_lookup_Some in Hloc. rewrite Forall_forall in Hrows.
    destruct (Hrows _ Hloc) as (c & Hc & _). simpl in Hc. subst cs.
    by rewrite (raw_value_row _ _ _ _ Hdf Hbm Hloc).
  - apply row_lookup_None in Hloc. rewrite raw_value_absent; [done|].
    unfold raw_index. by rewrite Hdf.
Qed.

Lemma combine_join_spec P bcm lib df :
  Forall barcode_lib_ready P → merged_frame P bcm →
  lib_store lib !! raw_barcodemap_key = Some df → barcode_map_table df →
  ∃ bcm',
    fill_value_from_drop (frame_join_outer_rsuffix bcm df ".drop") = Ok bcm' ∧
    merged_frame (P ++ [lib]) bcm'.
Proof.
  intros HP Hmf Hdf Hbm.
  pose proof Hmf as (Hcols & Hnd & Hrows & Hall).
  pose proof Hbm as (Hdcols & Hdnd & Hdrows).
  assert (barcode_lib_ready lib) as Hlib by by exists df.
  assert (raw_index lib = index df) as Hidx.
  { unfold raw_index. by rewrite Hdf. }
  unfold fill_value_from_drop, frame_join_outer_rsuffix.
  cbn [columns rows]. rewrite Hcols, Hdcols.
  change (["value"] ++ map _ ["value"])%list with ["value"; "value.drop"].
  cbn [col_pos]. rewrite decide_True by done.
  rewrite decide_False by done. rewrite decide_True by done.
  cbn [fmap option_fmap option_map].
  unfold drop_col. cbn [columns rows col_pos].
  rewrite decide_False by done. rewrite decide_True by done.
  cbn [fmap option_fmap option_map].
  eexists. split; [done|].
  rewrite <-!list_fmap_compose.
  assert (∀ b,
    ((λ r : string * list cell, (r.1, delete 1%nat r.2))
     ∘ (λ r : string * list cell,
          if isnull (default NaN (r.2 !! 0%nat))
          then (r.1, set_cell 0 (default NaN (r.2 !! 1%nat)) r.2) else r)
     ∘ (λ e, (e, (default (nan_row bcm) (loc bcm e)
                  ++ default (nan_row df) (loc df e))%list))) b
    = (b, [first_seen (P ++ [lib]) b])) as Hrow.
  { intros b. unfold compose.
    rewrite (merged_frame_value _ _ _ Hmf), (raw_frame_value _ _ _ Hdf Hbm).
    rewrite (first_seen_snoc _ _ _ HP Hlib). simpl.
    by destruct (isnull (first_seen P b)). }
  split; [done|]. cbn [rows index]. split; [|split].
  - unfold index. cbn [rows]. rewrite <-list_fmap_compose.
    erewrite list_fmap_ext; [|intros ? b _; unfold compose at 1;
                               by rewrite Hrow].
    simpl. rewrite list_fmap_id. apply NoDup_index_union.
  - intros b cs (b' & Heq & Hb)%list_elem_of_fmap.
    rewrite Hrow in Heq. injection Heq as -> ->. split; [done|].
    apply elem_of_index_union in Hb as [Hb|Hb].
    + apply list_elem_of_fmap in Hb as ([b'' cs] & -> & Hr).
      destruct (Hrows _ _ Hr) as (_ & l & Hl & Hin).
      exists l. split; [|done]. apply elem_of_app. by left.
    + exists lib. split; [|by rewrite Hidx].
      apply elem_of_app. right. apply list_elem_of_here.
  - intros b l Hl Hin. unfold index. cbn [rows].
    rewrite <-list_fmap_compose.
    erewrite list_fmap_ext; [|intros ? b0 _; unfold compose at 1;
                               by rewrite Hrow].
    simpl. rewrite list_fmap_id. apply elem_of_index_union.
    apply elem_of_app in Hl as [Hl|Hl].
    + left. by eapply Hall.
    + apply list_elem_of_singleton in Hl as ->. right.
      rewrite Hidx in Hin. exact Hin.
Qed.

Lemma combine_fold_spec libs : ∀ P bcm,
  Forall barcode_lib_ready P → merged_frame P bcm →
  Forall barcode_lib_ready libs →
  ∃ bcm', fold_result combine_step libs (Some bcm) = Ok (Some bcm') ∧
          merged_frame (P ++ libs) bcm'.
Proof.
  induction libs as [|lib libs IH]; intros P bcm HP Hmf Hlibs.
  - exists bcm. by rewrite app_nil_r.
  - apply Forall_cons in Hlibs as [Hlib Hlibs].
    pose proof Hlib as (df & Hdf & Hbm).
    rewrite fold_result_cons. unfold combine_step at 2.
    unfold lib_select. rewrite Hdf. simpl.
    destruct (combine_join_spec P bcm lib df HP Hmf Hdf Hbm)
      as (bcm1 & -> & Hmf1). simpl.
    destruct (IH (P ++ [lib])%list bcm1) as (bcm' & -> & Hmf');
      [by apply Forall_app; split; [|constructor]|done|done|].
    exists bcm'. split; [done|]. by rewrite <-app_assoc in Hmf'.
Qed.

Lemma sort_values_spec P bcm :
  Forall barcode_lib_ready P → merged_frame P bcm →
  ∃ sorted,
    sort_values bcm "value" = Ok sorted ∧
    merged_frame P sorted ∧
    Sorted (row_value_le 0) (rows sorted).
Proof.
  intros HP (Hcols & Hnd & Hrows & Hall). unfold sort_values.
  rewrite Hcols. cbn [col_pos]. rewrite decide_True by done.
  assert (existsb (λ r : string * list cell,
            cell_is_number (default NaN (r.2 !! 0%nat))) (rows bcm) = false)
    as ->.
  { apply existsb_false_Forall, Forall_forall. intros [b cs] Hr.
    destruct (Hrows _ _ Hr) as [-> _]. simpl.
    by destruct (first_seen_cases P b HP) as [->|[s ->]]. }
  simpl. eexists. split; [done|]. split.
  - split; [done|]. cbn [rows index].
    assert (merge_sort (row_value_le 0) (rows bcm) ≡ₚ rows bcm) as Hp
      by apply merge_sort_Permutation.
    split; [|split].
    + unfold index. cbn [rows]. by rewrite Hp.
    + intros b cs Hr. rewrite Hp in Hr. by apply Hrows.
    + intros b lib Hl Hb. unfold index. cbn [rows]. rewrite Hp.
      by eapply Hall.
  - apply (Sorted_merge_sort _).
Qed.

(** C7: [combine_barcode_maps] joins the raw barcode maps of the children
    in their order.  The barcodes of the result are those of all the maps,
    each once; the target of a barcode is the first target that is not
    null among the children's maps; the rows are sorted by target; and the
    result is put, once, under [/main/barcodemap]. *)
Theorem combine_barcode_maps_first_seen self st :
  (st !! barcodemap_key = None ∨ force_recalculate self = true) →
  children self ≠ [] →
  (∀ lib, lib ∈ children self →
     ∃ df, lib_store lib !! raw_barcodemap_key = Some df ∧
           barcode_map_table df) →
  ∃ bcm,
    combine_barcode_maps self st = (Ok tt, <[barcodemap_key := bcm]> st) ∧
    columns bcm = ["value"] ∧
    NoDup (index bcm) ∧
    (∀ b, b ∈ index bcm ↔ ∃ lib, lib ∈ children self ∧ b ∈ raw_index lib) ∧
    (∀ b, b ∈ index bcm →
       at_ bcm b "value" = Some (first_seen (children self) b)) ∧
    Sorted (row_value_le 0) (rows bcm).
Proof.
  intros Hguard Hne Hlibs.
  assert (Forall barcode_lib_ready (children self)) as Hready.
  { apply Forall_forall. intros lib Hlib. by apply Hlibs. }
  destruct (children self) as [|lib0 rest] eqn:Hch; [done|].
  apply Forall_cons in Hready as [Hlib0 Hrest].
  pose proof Hlib0 as (df0 & Hdf0 & Hbm0).
  destruct (combine_fold_spec rest [lib0] df0) as (bcm & Hfold & Hmf);
    [by repeat constructor|by apply merged_frame_first|done|].
  destruct (sort_values_spec (lib0 :: rest) bcm) as (sorted & Hsort & Hms & Hs);
    [by constructor|done|].
  exists sorted. split.
  { unfold combine_barcode_maps.
    erewrite bind_ok; [|by apply check_store_false]. cbv beta iota.
    erewrite bind_ok.
    2:{ unfold lift. rewrite Hch, fold_result_cons.
        unfold combine_step at 2, lib_select. rewrite Hdf0. simpl.
        by rewrite Hfold. }
    cbv beta iota. erewrite bind_ok; [|unfold lift; by rewrite Hsort].
    done. }
  destruct Hms as (Hcols & Hnd & Hrows & Hall).
  split; [done|]. split; [done|]. split; [|split; [|done]].
  - intros b. split.
    + intros ([b' cs] & -> & Hr)%list_elem_of_fmap.
      by destruct (Hrows _ _ Hr) as [_ ?].
    + intros (lib & Hlib & Hb). by eapply Hall.
  - intros b Hb. unfold at_, loc. rewrite Hcols.
    destruct (row_lookup b (rows sorted)) as [cs|] eqn:Hloc;
      [|by apply row_lookup_None in Hloc].
    apply row_lookup_Some in Hloc. by destruct (Hrows _ _ Hloc) as [-> _].
Qed.

Lemma combine_barcode_maps_first_seen_witness :
  ∃ bcm,
    combine_barcode_maps example_barcode_selection ∅
    = (Ok tt, <[barcodemap_key := bcm]> ∅) ∧
    bcm = example_barcodemap.
Proof.
  destruct (combine_barcode_maps_first_seen example_barcode_selection ∅)
    as (bcm & Hrun & _).
  - by left.
  - intros H. vm_compute in H. discriminate H.
  - apply Forall_forall.
    replace (children example_barcode_selection)
      with [example_barcode_lib "a" [("AAA", "v1"); ("CCC", "v2")];
            example_barcode_lib "b" [("AAA", "v9"); ("GGG", "v0")]]
      by (by vm_compute).
    repeat apply Forall_cons_2; try apply Forall_nil_2;
      (eexists; split; [by vm_compute|]);
      (split; [done|]); (split; [compute_done|]);
      repeat constructor; by eexists.
  - exists bcm. split; [done|].
    assert ((combine_barcode_maps example_barcode_selection ∅).2
              !! barcodemap_key = Some example_barcodemap) as H
      by (by vm_compute).
    rewrite Hrun in H. simpl in H. rewrite lookup_insert_eq in H.
    by injection H.
Defined.

(** * Further properties of the pipeline *)

(** ** The unfiltered table as a whole *)

Lemma merge_counts_unfiltered_table self label st :
  (st !! counts_unfiltered_key label = None ∨ force_recalculate self = true) →
  0 < chunksize self →
  head (timepoints self) = Some 0 →
  (∀ tp libs, libraries self !! tp = Some libs → libs ≠ []) →
  (∀ lib, lib ∈ libs_by_timepoint self →
     lib_ready (counts_key label) lib) →
  ∃ st',
    merge_counts_unfiltered self label st = (Ok tt, st') ∧
    (∀ k, k ≠ counts_unfiltered_key label → st' !! k = st !! k) ∧
    (∀ r, r ∈ store_rows st' (counts_unfiltered_key label) ↔
          (∃ lib, lib ∈ libs_by_timepoint self ∧
                  is_Some (lib_count (counts_key label) lib r.1)) ∧
          r.2 = expected_row self label r.1) ∧
    (∀ df, st' !! counts_unfiltered_key label = Some df →
       columns df = map count_column (timepoints self)) ∧
    ((∀ lib e, lib ∈ libs_by_timepoint self →
        lib_count (counts_key label) lib e = None) →
     st' !! counts_unfiltered_key label = None).
Proof.
  intros Hrun Hcs Hhead Hne Hlibs.
  set (key := counts_unfiltered_key label) in *.
  set (lib_table := counts_key label) in *.
  assert (∃ rest, timepoints self = 0 :: rest) as [rest Htps].
  { destruct (timepoints self) as [|tp0 rest]; [done|].
    injection Hhead as ->. by exists rest. }
  pose proof (NoDup_timepoints self) as Hnd.
  assert (Forall (timepoint_ready self lib_table) (timepoints self)) as Hready.
  { apply Forall_forall. intros tp Htp. pose proof Htp as Htp'.
    apply elem_of_timepoints in Htp as [libs Hl].
    unfold timepoint_ready, libraries_at. rewrite Hl. simpl.
    split; [by eapply Hne|]. apply Forall_forall. intros lib Hlib.
    apply Hlibs. apply elem_of_libs_by_timepoint. exists tp.
    split; [done|]. unfold libraries_at. by rewrite Hl. }
  assert (Forall (lib_ready lib_table) (libs_by_timepoint self)) as Hall.
  { apply Forall_forall. intros lib Hlib. by apply Hlibs. }
  destruct (build_complete_index_fold lib_table _ [] (NoDup_nil_2) Hall)
    as (ci & Hbuild & Hcind & Hci).
  assert (∀ e, e ∈ ci ↔ ∃ lib, lib ∈ libs_by_timepoint self ∧
                              is_Some (lib_count lib_table lib e)) as Hci'.
  { intros e. rewrite Hci. split; [|by right].
    intros [?%elem_of_nil|?]; done. }
  assert (∀ e, e ∈ ci → ∃ tp, tp ∈ timepoints self ∧
                              expected_cell self lib_table e tp ≠ NaN) as Hexp.
  { intros e (lib & (tp & Htp & Hlib)%elem_of_libs_by_timepoint & Hs)%Hci'.
    exists tp. split; [done|]. by eapply expected_cell_has. }
  unfold merge_counts_unfiltered.
  assert (∃ st0, check_store self key st = (Ok false, st) ∧
     (if bool_decide (is_Some (st !! key))
      then store_remove key else ret tt) st = (Ok tt, st0) ∧
     st0 !! key = None ∧
     ∀ k, k ≠ key → st0 !! k = st !! k) as (st0 & Hchk & Hrm & Hst0 & Hfr0).
  { pose proof (check_store_false self key st Hrun) as Hchk.
    unfold store_remove, ret.
    destruct (st !! key) as [old|] eqn:Hold.
    - rewrite bool_decide_eq_true_2 by eauto. cbv beta. rewrite Hold.
      exists (delete key st). split; [done|]. split; [done|].
      split; [apply lookup_delete_eq|]. intros k Hk. by apply lookup_delete_ne.
    - rewrite bool_decide_eq_false_2 by (by intros [? ?]).
      by exists st. }
  fold key. erewrite bind_ok; [|exact Hchk]. cbv beta iota.
  erewrite bind_ok; [|reflexivity].
  erewrite bind_ok; [|exact Hrm].
  fold lib_table.
  erewrite bind_ok; [|unfold lift, build_complete_index; by rewrite Hbuild].
  erewrite bind_ok; [|unfold lift; by rewrite (py_range_pos _ _ Hcs)].
  destruct (merge_chunks_spec self label rest Htps Hready Hnd ci Hexp
              (map (λ k : nat, Z.of_nat k * chunksize self)
                 (seq 0 (Z.to_nat ((Z.of_nat (length ci) + chunksize self - 1)
                                     `div` chunksize self))))
              None st0)
    as (st' & Hrun' & Hframe & Hrows & Hkey).
  fold key lib_table in Hrun', Hframe, Hrows, Hkey.
  exists st'. split; [exact Hrun'|].
  assert (store_rows st0 key = []) as Hempty.
  { unfold store_rows. by rewrite Hst0. }
  rewrite Hempty in Hrows. rewrite Hst0 in Hkey.
  split; [|split; [|split]].
  - intros k Hk. by rewrite Hframe, Hfr0.
  - intros [e cs]. rewrite Hrows. simpl. rewrite <-Hci'. split.
    + intros [?%elem_of_nil|(i & _ & He & Hcs')]; [done|].
      split; [|done]. by eapply chunk_of_subseteq.
    + intros [He ->]. right.
      destruct (chunk_cover ci (chunksize self) e Hcs He) as (i & Hi & Hsl).
      exists i. split; [done|]. split; [|done].
      unfold chunk_of. by case_decide.
  - intros df Hdf. destruct Hkey as [[_ ->]|(df' & Hdf' & Hcols)].
    + by rewrite Hst0 in Hdf.
    + rewrite Hdf in Hdf'. by injection Hdf' as ->.
  - intros Hnone. assert (ci = []) as ->.
    { destruct ci as [|e ci']; [done|].
      destruct (proj1 (Hci' e) (list_elem_of_here _ _)) as (lib & Hlib & Hs).
      rewrite (Hnone lib e Hlib) in Hs. by destruct Hs. }
    simpl in Hrun'. rewrite Z.div_small in Hrun' by lia.
    simpl in Hrun'. unfold ret in Hrun'. by injection Hrun' as <-.
Qed.

Lemma expected_cell_observed self label e tp :
  isnull (expected_cell self (counts_key label) e tp) = false ↔
  observed_at self label tp e.
Proof.
  unfold expected_cell, summed_count, observed_at.
  destruct (existsb _ _) eqn:Hex; simpl.
  - split; [intros _|done]. apply existsb_exists in Hex as (lib & Hin & Hhas).
    exists lib. split; [by apply list_elem_of_In|].
    unfold lib_has in Hhas. by apply bool_decide_eq_true in Hhas.
  - split; [done|]. intros (lib & Hin & Hsome).
    apply existsb_false_Forall in Hex. rewrite Forall_forall in Hex.
    specialize (Hex _ Hin). unfold lib_has in Hex.
    by apply bool_decide_eq_false in Hex.
Qed.

Lemma expected_row_complete self label e :
  Forall (λ c, isnull c = false) (expected_row self label e) ↔
  ∀ tp, tp ∈ timepoints self → observed_at self label tp e.
Proof.
  unfold expected_row. rewrite Forall_fmap, Forall_forall.
  split; intros H tp Htp; apply expected_cell_observed; by apply H.
Qed.

Lemma merge_then_filter_run self label st :
  (st !! counts_unfiltered_key label = None ∨ force_recalculate self = true) →
  0 < chunksize self →
  head (timepoints self) = Some 0 →
  (∀ tp libs, libraries self !! tp = Some libs → libs ≠ []) →
  (∀ lib, lib ∈ libs_by_timepoint self →
     lib_ready (counts_key label) lib) →
  (∃ lib e, lib ∈ libs_by_timepoint self ∧
            is_Some (lib_count (counts_key label) lib e)) →
  ∃ st1 unf,
    merge_counts_unfiltered self label st = (Ok tt, st1) ∧
    st1 !! counts_unfiltered_key label = Some unf ∧
    (∀ r, r ∈ rows unf ↔
          (∃ lib, lib ∈ libs_by_timepoint self ∧
                  is_Some (lib_count (counts_key label) lib r.1)) ∧
          r.2 = expected_row self label r.1) ∧
    filter_counts self label st1
    = (Ok tt, <[counts_key label := dropna_any unf]> st1).
Proof.
  intros Hrun Hcs Hhead Hne Hlibs (lib0 & e0 & Hlib0 & He0).
  destruct (merge_counts_unfiltered_table self label st Hrun Hcs Hhead Hne
              Hlibs) as (st1 & Hmerge & Hframe & Hrows & Hcols & _).
  assert (∃ unf, st1 !! counts_unfiltered_key label = Some unf)
    as [unf Hunf].
  { assert ((e0, expected_row self label e0)
              ∈ store_rows st1 (counts_unfiltered_key label)) as Hin.
    { apply Hrows. split; [by exists lib0|done]. }
    unfold store_rows in Hin.
    destruct (st1 !! counts_unfiltered_key label) as [unf|]; [by eauto|].
    by apply elem_of_nil in Hin. }
  unfold store_rows in Hrows. rewrite Hunf in Hrows.
  exists st1, unf. split; [done|]. split; [done|]. split; [done|].
  apply filter_counts_run; [done|].
  apply Forall_forall. intros r Hr. apply Hrows in Hr as [_ ->].
  apply Forall_forall. intros c (tp & -> & _)%list_elem_of_fmap.
  apply summed_count_not_str.
Qed.

Lemma dropna_any_complete_index self label unf :
  0 ∈ timepoints self →
  (∀ r, r ∈ rows unf ↔
        (∃ lib, lib ∈ libs_by_timepoint self ∧
                is_Some (lib_count (counts_key label) lib r.1)) ∧
        r.2 = expected_row self label r.1) →
  ∀ e, e ∈ index (dropna_any unf) ↔
       ∀ tp, tp ∈ timepoints self → observed_at self label tp e.
Proof.
  intros H0 Hrows e. unfold index. split.
  - intros ([e' cs] & -> & Hr)%list_elem_of_fmap.
    apply dropna_any_rows in Hr as [Hr Hcomplete]. simpl in *.
    apply Hrows in Hr as [_ Hcs']. simpl in Hcs'. subst cs.
    by apply expected_row_complete.
  - intros Hall. apply list_elem_of_fmap.
    exists (e, expected_row self label e). split; [done|].
    apply dropna_any_rows. split; [|by apply expected_row_complete].
    apply Hrows. split; [|done]. simpl.
    destruct (Hall 0 H0) as (lib & Hlib & Hsome). exists lib.
    split; [|done]. apply elem_of_libs_by_timepoint. by exists 0.
Qed.


(** X2: when no library has any element of the label,
    [merge_counts_unfiltered] returns without writing a table and
    [filter_counts] then raises [KeyError]. *)
Theorem merge_then_filter_no_elements self label st :
  (st !! counts_unfiltered_key label = None ∨ force_recalculate self = true) →
  0 < chunksize self →
  head (timepoints self) = Some 0 →
  (∀ tp libs, libraries self !! tp = Some libs → libs ≠ []) →
  (∀ lib, lib ∈ libs_by_timepoint self →
     lib_ready (counts_key label) lib) →
  (∀ lib e, lib ∈ libs_by_timepoint self →
     lib_count (counts_key label) lib e = None) →
  ∃ st',
    merge_counts_unfiltered self label st = (Ok tt, st') ∧
    st' !! counts_unfiltered_key label = None ∧
    filter_counts self label st'
    = (Raise (KeyError (counts_unfiltered_key label)), st').
Proof.
  intros Hrun Hcs Hhead Hne Hlibs Hnone.
  destruct (merge_counts_unfiltered_table self label st Hrun Hcs Hhead Hne
              Hlibs) as (st1 & Hmerge & Hframe & Hrows & Hcols & Habsent).
  exists st1. split; [done|].
  pose proof (Habsent Hnone) as Hkey.
  split; [done|]. by apply filter_counts_missing_source.
Qed.

(** ** Edge cases of the merge *)

Lemma merge_counts_unfiltered_unfold self label st :
  (st !! counts_unfiltered_key label = None ∨ force_recalculate self = true) →
  merge_counts_unfiltered self label st
  = (complete_index ←ₘ lift (build_complete_index self (counts_key label)) ;;
     starts ←ₘ lift (py_range (Z.of_nat (length complete_index))
                              (chunksize self)) ;;
     merge_chunks self label (counts_key label) complete_index starts None)
      (delete (counts_unfiltered_key label) st).
Proof.
  intros Hrun. unfold merge_counts_unfiltered.
  erewrite bind_ok; [|by apply check_store_false]. cbv beta iota.
  erewrite bind_ok; [|reflexivity].
  destruct (st !! counts_unfiltered_key label) as [old|] eqn:Hold.
  - rewrite bool_decide_eq_true_2 by eauto.
    erewrite bind_ok; [done|]. unfold store_remove. by rewrite Hold.
  - rewrite bool_decide_eq_false_2 by (by intros [? ?]).
    erewrite bind_ok; [|reflexivity]. by rewrite delete_id.
Qed.

Lemma build_complete_index_total lib_table libs : ∀ acc,
  (∀ lib, lib ∈ libs → is_Some (lib_store lib !! lib_table)) →
  ∃ ci, fold_result
          (λ complete_index lib,
             idx ← lib_select_column_index lib lib_table;
             Ok (index_union complete_index idx))
          libs acc = Ok ci.
Proof.
  induction libs as [|lib libs IH]; intros acc Hall; [by exists acc|].
  rewrite fold_result_cons.
  destruct (Hall lib (list_elem_of_here _ _)) as [df Hdf].
  unfold lib_select_column_index, lib_select. rewrite Hdf. simpl.
  apply IH. intros l Hl. apply Hall. by apply list_elem_of_further.
Qed.

Lemma build_complete_index_missing lib_table libs : ∀ acc,
  (∃ lib, lib ∈ libs ∧ lib_store lib !! lib_table = None) →
  fold_result
    (λ complete_index lib,
       idx ← lib_select_column_index lib lib_table;
       Ok (index_union complete_index idx))
    libs acc = Raise (KeyError lib_table).
Proof.
  induction libs as [|lib libs IH]; intros acc (l & Hl & Hnone).
  { by apply elem_of_nil in Hl. }
  rewrite fold_result_cons.
  unfold lib_select_column_index, lib_select.
  destruct (lib_store lib !! lib_table) as [df|] eqn:Hdf; [|done]. simpl.
  apply IH. apply elem_of_cons in Hl as [->|Hl]; [congruence|].
  by exists l.
Qed.

(** X3: with a chunk size of zero [merge_counts_unfiltered] raises the
    [ValueError] of [range], with a negative chunk size it returns without
    looping; either way an existing unfiltered table is removed and none
    is written. *)
Theorem merge_counts_unfiltered_chunksize_nonpositive self label st :
  (st !! counts_unfiltered_key label = None ∨ force_recalculate self = true) →
  chunksize self <= 0 →
  (∀ lib, lib ∈ libs_by_timepoint self →
     is_Some (lib_store lib !! counts_key label)) →
  merge_counts_unfiltered self label st
  = (if decide (chunksize self = 0)
     then Raise (ValueError "range() arg 3 must not be zero")
     else Ok tt,
     delete (counts_unfiltered_key label) st).
Proof.
  intros Hrun Hcs Hlibs. rewrite merge_counts_unfiltered_unfold by done.
  destruct (build_complete_index_total (counts_key label) _ [] Hlibs)
    as [ci Hci].
  erewrite bind_ok; [|unfold lift, build_complete_index; by rewrite Hci].
  unfold py_range. case_decide as H0.
  - done.
  - by rewrite decide_True by lia.
Qed.

(** X4: when a library has no count table for the label,
    [merge_counts_unfiltered] raises [KeyError] for the library's table;
    an existing unfiltered table is already removed by then. *)
Theorem merge_counts_unfiltered_missing_library_table self label st :
  (st !! counts_unfiltered_key label = None ∨ force_recalculate self = true) →
  (∃ lib, lib ∈ libs_by_timepoint self ∧
          lib_store lib !! counts_key label = None) →
  merge_counts_unfiltered self label st
  = (Raise (KeyError (counts_key label)),
     delete (counts_unfiltered_key label) st).
Proof.
  intros Hrun Hmiss. rewrite merge_counts_unfiltered_unfold by done.
  erewrite bind_raise; [done|].
  unfold lift, build_complete_index.
  by rewrite (build_complete_index_missing _ _ [] Hmiss).
Qed.

(** X5: when the selection has no timepoint 0 but some library has an
    element, the first chunk reads [tp_frame] before it is bound:
    [merge_counts_unfiltered] raises [UnboundLocalError] and writes no
    table. *)
Theorem merge_counts_unfiltered_no_timepoint_zero self label st :
  (st !! counts_unfiltered_key label = None ∨ force_recalculate self = true) →
  0 < chunksize self →
  0 ∉ timepoints self →
  (∀ tp libs, libraries self !! tp = Some libs → libs ≠ []) →
  (∀ lib, lib ∈ libs_by_timepoint self →
     lib_ready (counts_key label) lib) →
  (∃ lib e, lib ∈ libs_by_timepoint self ∧
            is_Some (lib_count (counts_key label) lib e)) →
  merge_counts_unfiltered self label st
  = (Raise (UnboundLocalError "tp_frame"),
     delete (counts_unfiltered_key label) st).
Proof.
  intros Hrun Hcs H0 Hne Hlibs (lib0 & e0 & Hlib0 & He0).
  rewrite merge_counts_unfiltered_unfold by done.
  assert (Forall (lib_ready (counts_key label)) (libs_by_timepoint self))
    as Hall.
  { apply Forall_forall. intros lib Hlib. by apply Hlibs. }
  destruct (build_complete_index_fold (counts_key label) _ []
              (NoDup_nil_2) Hall) as (ci & Hbuild & _ & Hci).
  erewrite bind_ok; [|unfold lift, build_complete_index; by rewrite Hbuild].
  erewrite bind_ok; [|unfold lift; by rewrite (py_range_pos _ _ Hcs)].
  assert (e0 ∈ ci) as He0ci. { apply Hci. right. by exists lib0. }
  destruct (chunk_cover ci (chunksize self) e0 Hcs He0ci) as (i & Hi & _).
  destruct (map _ _) as [|i0 starts]; [by apply elem_of_nil in Hi|].
  cbn [merge_chunks].
  apply elem_of_libs_by_timepoint in Hlib0 as (tp0 & Htp0 & _).
  destruct (timepoints self) as [|tp rest] eqn:Htps.
  { by apply elem_of_nil in Htp0. }
  assert (tp ≠ 0) as Htp.
  { intros ->. apply H0, list_elem_of_here. }
  assert (timepoint_ready self (counts_key label) tp) as Hready.
  { assert (tp ∈ timepoints self) as Hin
      by (rewrite Htps; apply list_elem_of_here).
    apply elem_of_timepoints in Hin as [libs Hl].
    unfold timepoint_ready, libraries_at. rewrite Hl. simpl.
    split; [by eapply Hne|]. apply Forall_forall. intros lib Hlib.
    apply Hlibs. apply elem_of_libs_by_timepoint. exists tp.
    split; [rewrite Htps; apply list_elem_of_here|].
    unfold libraries_at. by rewrite Hl. }
  erewrite bind_raise; [done|].
  unfold lift, merge_chunk. rewrite Htps. cbn [fold_result].
  unfold merge_chunk_step at 2.
  match goal with
  | |- context [merge_timepoint self ?t ?c tp] =>
      destruct (merge_timepoint_spec self t c tp Hready) as (f & -> & _)
  end.
  simpl. by destruct (decide (tp = 0)).
Qed.

(** ** Chunking *)


(** ** The analysis without a complete element *)


(** ** The scenarios *)

Lemma example_lib_ready n rs :
  NoDup rs.*1 → lib_ready (counts_key "variants") (example_lib n rs).
Proof.
  intros Hnd. exists (example_counts rs). split; [apply lookup_singleton_eq|].
  split; [done|]. split.
  - unfold index, example_counts. simpl. rewrite <-list_fmap_compose.
    by rewrite (list_fmap_ext _ fst rs) by done.
  - apply Forall_forall. intros r (r' & -> & _)%list_elem_of_fmap.
    by eexists.
Qed.

Ltac example_unfold :=
  unfold with_chunksize, example_selection_of, example_empty_libraries,
    example_late_libraries, example_disjoint_libraries in *.

Ltac example_nonempty :=
  let tp := fresh "tp" in
  let libs := fresh "libs" in
  intros tp libs; example_unfold; simpl;
  rewrite ?lookup_insert, ?lookup_empty;
  repeat case_decide; by intros [= <-].

(** Case analysis on a library of a scenario. *)
Ltac example_libs Hlib tac :=
  apply elem_of_libs_by_timepoint in Hlib as (? & _ & Hlib);
  unfold libraries_at in Hlib; example_unfold; simpl in Hlib;
  rewrite ?lookup_insert, ?lookup_empty in Hlib;
  repeat case_decide; simpl in Hlib;
  repeat (apply elem_of_cons in Hlib as [->|Hlib]; [tac|]);
  by apply elem_of_nil in Hlib.

Ltac example_ready :=
  let lib := fresh "lib" in
  let Hlib := fresh "Hlib" in
  intros lib Hlib;
  example_libs Hlib ltac:(apply example_lib_ready; compute_done).


Lemma merge_then_filter_no_elements_witness :
  ∃ st',
    merge_counts_unfiltered (example_selection_of example_empty_libraries)
      "variants" ∅ = (Ok tt, st') ∧
    st' !! counts_unfiltered_key "variants" = None ∧
    filter_counts (example_selection_of example_empty_libraries)
      "variants" st'
    = (Raise (KeyError (counts_unfiltered_key "variants")), st').
Proof.
  apply (merge_then_filter_no_elements
           (example_selection_of example_empty_libraries) "variants" ∅).
  - by left.
  - done.
  - by vm_compute.
  - example_nonempty.
  - example_ready.
  - intros lib e Hlib. example_libs Hlib ltac:(done).
Defined.

Lemma merge_counts_unfiltered_chunksize_nonpositive_witness :
  merge_counts_unfiltered (with_chunksize example_selection 0) "variants" ∅
  = (Raise (ValueError "range() arg 3 must not be zero"),
     delete (counts_unfiltered_key "variants") ∅).
Proof.
  apply (merge_counts_unfiltered_chunksize_nonpositive
           (with_chunksize example_selection 0) "variants" ∅).
  - by left.
  - done.
  - intros lib Hlib. example_libs Hlib ltac:(by vm_compute; eauto).
Defined.

Lemma merge_counts_unfiltered_missing_library_table_witness :
  merge_counts_unfiltered example_selection "barcodes" ∅
  = (Raise (KeyError (counts_key "barcodes")),
     delete (counts_unfiltered_key "barcodes") ∅).
Proof.
  apply (merge_counts_unfiltered_missing_library_table example_selection
           "barcodes" ∅).
  - by left.
  - exists (example_lib "a0" [("A", 10)]). split; [|done].
    apply elem_of_libs_by_timepoint. exists 0.
    split; [compute_done|apply list_elem_of_here].
Defined.

Lemma merge_counts_unfiltered_no_timepoint_zero_witness :
  merge_counts_unfiltered (example_selection_of example_late_libraries)
    "variants" ∅
  = (Raise (UnboundLocalError "tp_frame"),
     delete (counts_unfiltered_key "variants") ∅).
Proof.
  apply (merge_counts_unfiltered_no_timepoint_zero
           (example_selection_of example_late_libraries) "variants" ∅).
  - by left.
  - done.
  - compute_done.
  - example_nonempty.
  - example_ready.
  - exists (example_lib "a1" [("A", 5)]), "A". split.
    + apply elem_of_libs_by_timepoint. exists 1.
      split; [compute_done|apply list_elem_of_here].
    + by vm_compute; eauto.
Defined.



(** ** Timepoints and validation *)

Lemma StronglySorted_le_lt (l : list Z) :
  StronglySorted Z.le l → NoDup l → StronglySorted Z.lt l.
Proof.
  induction 1 as [|x l Hs IH Hall]; intros Hnd; [constructor|].
  apply NoDup_cons in Hnd as [Hx Hnd]. constructor; [by apply IH|].
  apply Forall_forall. intros y Hy. rewrite Forall_forall in Hall.
  specialize (Hall y Hy).
  assert (x ≠ y) by (by intros ->). lia.
Qed.

Lemma timepoints_sorted self : StronglySorted Z.lt (timepoints self).
Proof.
  apply StronglySorted_le_lt; [|apply NoDup_timepoints].
  unfold timepoints. apply (StronglySorted_merge_sort _).
Qed.

Lemma head_timepoints_zero self :
  0 ∈ timepoints self →
  head (timepoints self) = Some 0 ↔ ∀ tp, tp ∈ timepoints self → 0 <= tp.
Proof.
  intros H0. pose proof (timepoints_sorted self) as Hs.
  destruct (timepoints self) as [|h t]; [by apply elem_of_nil in H0|].
  apply StronglySorted_inv in Hs as [_ Hall]. rewrite Forall_forall in Hall.
  simpl. split.
  - intros [= ->] tp [->|Htp]%elem_of_cons; [done|].
    specialize (Hall tp Htp). lia.
  - intros Hnn. f_equal. apply elem_of_cons in H0 as [<-|H0]; [done|].
    specialize (Hall 0 H0). specialize (Hnn h (list_elem_of_here _ _)). lia.
Qed.

Lemma for_each_result_Ok {A} (xs : list A) (body : A → result unit) :
  for_each_result xs body = Ok tt ↔ Forall (λ x, body x = Ok tt) xs.
Proof.
  induction xs as [|x xs IH]; simpl; [by split|].
  rewrite Forall_cons, <-IH.
  destruct (body x) as [[]|e]; simpl; [|split; [done|by intros [? _]]].
  by split; [|intros [_ ?]].
Qed.

(** X8: [validate] returns normally exactly when timepoint 0 is present,
    no timepoint is negative, there are at least two timepoints (three
    for the regression methods), wild type normalization comes with a
    wild type sequence in every library, and every library validates. *)
Theorem validate_ok_iff self :
  validate self = Ok tt ↔
  0 ∈ timepoints self ∧
  (∀ tp, tp ∈ timepoints self → 0 <= tp) ∧
  (2 <= length (timepoints self))%nat ∧
  (scoring_method self ∈ ["WLS"; "OLS"] →
   (3 <= length (timepoints self))%nat) ∧
  (logr_method self = "wt" → has_wt_sequence self = true) ∧
  Forall (λ lib, lib_validate lib = Ok tt) (children self).
Proof.
  unfold validate.
  destruct (decide (0 ∈ timepoints self)) as [H0|H0].
  2: { rewrite bool_decide_eq_false_2 by done. simpl.
       split; [done|]. by intros [? _]. }
  rewrite (bool_decide_eq_true_2 _ H0). simpl.
  rewrite <-(head_timepoints_zero self H0).
  destruct (decide (head (timepoints self) = Some 0)) as [Hh|Hh].
  2: { rewrite bool_decide_eq_false_2 by done. simpl.
       split; [done|]. by intros (_ & ? & _). }
  rewrite (bool_decide_eq_true_2 _ Hh). simpl.
  destruct (decide (length (timepoints self) < 2)%nat) as [H2|H2].
  { rewrite (bool_decide_eq_true_2 _ H2). split; [done|].
    intros (_ & _ & ? & _). lia. }
  rewrite (bool_decide_eq_false_2 _ H2).
  destruct (decide (length (timepoints self) < 3)%nat) as [H3|H3];
    [rewrite (bool_decide_eq_true_2 _ H3)
    |rewrite (bool_decide_eq_false_2 _ H3)];
    destruct (decide (scoring_method self ∈ ["WLS"; "OLS"])) as [Hm|Hm];
    [rewrite (bool_decide_eq_true_2 _ Hm)
    |rewrite (bool_decide_eq_false_2 _ Hm)
    |rewrite (bool_decide_eq_true_2 _ Hm)
    |rewrite (bool_decide_eq_false_2 _ Hm)]; simpl.
  1: { split; [done|]. intros (_ & _ & _ & Hr & _). specialize (Hr Hm). lia. }
  all: destruct (has_wt_sequence self); simpl;
    [|destruct (decide (logr_method self = "wt")) as [Hw|Hw];
      [rewrite (bool_decide_eq_true_2 _ Hw)
      |rewrite (bool_decide_eq_false_2 _ Hw)]];
    rewrite ?for_each_result_Ok;
    try (split; [done|]; by intros (_ & _ & _ & _ & Hr & _); specialize (Hr Hw));
    (split; [intros Hc; repeat split; try done; try lia; try (intros; lia)
            |by intros (_ & _ & _ & _ & _ & ?)]).
Qed.

(** X9: with timepoint 0 present, a negative timepoint makes [validate]
    raise the [ValueError] for a negative timepoint, whatever else holds
    of the selection. *)
Theorem validate_negative_timepoint self tp :
  0 ∈ timepoints self → tp ∈ timepoints self → tp < 0 →
  validate self
  = Raise (ValueError ("Invalid negative timepoint" +:+ bracket (name self))).
Proof.
  intros H0 Htp Hneg. unfold validate.
  rewrite (bool_decide_eq_true_2 _ H0). simpl.
  rewrite bool_decide_eq_false_2; [done|].
  intros Hh.
  pose proof (proj1 (head_timepoints_zero self H0) Hh tp Htp). lia.
Qed.

Lemma validate_negative_timepoint_witness :
  validate (example_selection_of example_negative_libraries)
  = Raise (ValueError ("Invalid negative timepoint" +:+ bracket "sel")).
Proof.
  apply (validate_negative_timepoint
           (example_selection_of example_negative_libraries) (-1));
    [compute_done|compute_done|done].
Defined.

(** ** The checks before scoring *)

Lemma only_wild_type_iff idx :
  only_wild_type idx = true ↔
  idx ≠ [] ∧ ∀ e, e ∈ idx → e = WILD_TYPE_VARIANT.
Proof.
  unfold only_wild_type. rewrite bool_decide_eq_true. split.
  - intros Hrd. split.
    + intros ->. done.
    + intros e He. apply elem_of_remove_dups in He. rewrite Hrd in He.
      by apply list_elem_of_singleton in He.
  - intros [Hne Hall].
    pose proof (NoDup_remove_dups idx) as Hnd.
    assert (∀ e, e ∈ remove_dups idx → e = WILD_TYPE_VARIANT) as Hall'.
    { intros e He. apply Hall. by apply elem_of_remove_dups. }
    destruct (remove_dups idx) as [|a [|b l]] eqn:Hrd.
    + destruct idx as [|e idx']; [done|].
      assert (e ∈ remove_dups (e :: idx')) as He
        by (apply elem_of_remove_dups, list_elem_of_here).
      rewrite Hrd in He. by apply elem_of_nil in He.
    + f_equal. apply Hall'. apply list_elem_of_here.
    + exfalso. apply NoDup_cons in Hnd as [Ha _]. apply Ha.
      rewrite (Hall' a) by apply list_elem_of_here.
      rewrite <-(Hall' b) at 1
        by apply list_elem_of_further, list_elem_of_here.
      apply list_elem_of_here.
Qed.

Lemma map_result_lib_index self label :
  (∀ lib, lib ∈ libs_by_timepoint self →
     is_Some (lib_store lib !! counts_key label)) →
  map_result (λ lib, lib_select_column_index lib (counts_key label))
    (libs_by_timepoint self)
  = Ok (map (lib_index label) (libs_by_timepoint self)).
Proof.
  intros Hall. apply map_result_Ok. intros lib Hlib.
  destruct (Hall lib Hlib) as [df Hdf].
  unfold lib_select_column_index, lib_select, lib_index. by rewrite Hdf.
Qed.

(** X10: when every library has a count table for the label,
    [timepoints_contain_variants_for_label] passes exactly when no
    library's table consists of the wild type alone; a table without
    rows passes. *)
Theorem timepoints_contain_variants_for_label_iff self label :
  (∀ lib, lib ∈ libs_by_timepoint self →
     is_Some (lib_store lib !! counts_key label)) →
  timepoints_contain_variants_for_label self label = Ok tt ↔
  ∀ lib, lib ∈ libs_by_timepoint self →
    lib_index label lib = [] ∨
    ∃ e, e ∈ lib_index label lib ∧ e ≠ WILD_TYPE_VARIANT.
Proof.
  intros Hall. unfold timepoints_contain_variants_for_label. cbv zeta.
  rewrite (map_result_lib_index self label Hall). simpl.
  destruct (forallb _ _) eqn:Hgood; simpl.
  - split; [intros _|done]. intros lib Hlib.
    rewrite forallb_forall in Hgood.
    specialize (Hgood (lib_index label lib)).
    rewrite negb_true_iff in Hgood.
    assert (only_wild_type (lib_index label lib) = false) as Hno.
    { apply Hgood. apply in_map. by apply list_elem_of_In. }
    destruct (lib_index label lib) as [|e0 idx] eqn:Hidx; [by left|].
    right. destruct (decide (Forall (λ e, e = WILD_TYPE_VARIANT)
                               (e0 :: idx))) as [Hwt|Hwt].
    + exfalso. rewrite Forall_forall in Hwt.
      assert (only_wild_type (e0 :: idx) = true) as Hyes
        by (by apply only_wild_type_iff).
      congruence.
    + apply not_Forall_Exists in Hwt; [|apply _].
      apply Exists_exists in Hwt as (e & He & Hne). by exists e.
  - split; [done|]. intros Hlibs. exfalso.
    apply not_true_iff_false in Hgood. apply Hgood.
    apply forallb_forall. intros idx Hin.
    apply list_elem_of_In, list_elem_of_fmap in Hin as (lib & -> & Hlib).
    apply negb_true_iff, not_true_iff_false.
    intros [Hne Hwt]%only_wild_type_iff.
    destruct (Hlibs lib Hlib) as [?|(e & He & Hew)]; [done|].
    by apply Hew, Hwt.
Qed.

Lemma timepoints_contain_variants_for_label_iff_witness :
  timepoints_contain_variants_for_label
    (example_selection_of example_empty_libraries) "variants" = Ok tt ↔
  ∀ lib, lib ∈ libs_by_timepoint
                 (example_selection_of example_empty_libraries) →
    lib_index "variants" lib = [] ∨
    ∃ e, e ∈ lib_index "variants" lib ∧ e ≠ WILD_TYPE_VARIANT.
Proof.
  apply (timepoints_contain_variants_for_label_iff
           (example_selection_of example_empty_libraries) "variants").
  intros lib Hlib. example_libs Hlib ltac:(by vm_compute; eauto).
Defined.

(** X11: without forced recalculation,
    [ensure_main_count_tables_exist_and_populated] returns normally
    exactly when every label has a filtered count table that is not
    empty; it never changes the store. *)
Theorem ensure_main_count_tables_iff self st :
  force_recalculate self = false →
  (ensure_main_count_tables_exist_and_populated self st).2 = st ∧
  ((ensure_main_count_tables_exist_and_populated self st).1 = Ok tt ↔
   ∀ label, label ∈ labels self →
     ∃ df, st !! counts_key label = Some df ∧ df_empty df = false).
Proof.
  intros Hforce.
  assert (∀ label,
    (st !! counts_key label = None ∧
       ensure_count_table self label st
       = (Raise (ValueError ("Required table " +:+ counts_key label
                             +:+ " does not exist.")), st)) ∨
    (∃ df, st !! counts_key label = Some df ∧
       ensure_count_table self label st
       = (if df_empty df
          then Raise (ValueError ("Required table " +:+ counts_key label
                                  +:+ " does is empty."))
          else Ok tt, st))) as Hbody.
  { intros label. unfold ensure_count_table. cbv zeta.
    unfold table_not_empty_for_key, table_exists_for_key.
    destruct (st !! counts_key label) as [df|] eqn:Hdf.
    - right. exists df. split; [done|].
      erewrite bind_ok; [|apply check_store_true; by eauto]. cbn [negb].
      erewrite bind_ok.
      2: { erewrite bind_ok; [|apply check_store_true; by eauto].
           cbn [negb]. erewrite bind_ok; [|unfold store_select; by rewrite Hdf].
           reflexivity. }
      by destruct (df_empty df).
    - left. split; [done|].
      by erewrite bind_ok; [|apply check_store_false; by left]. }
  unfold ensure_main_count_tables_exist_and_populated.
  induction (labels self) as [|label ls IH]; cbn [for_each].
  { split; [done|]. split; [|done]. by intros _ l ?%elem_of_nil. }
  destruct (Hbody label) as [[Hnone Hrun]|(df & Hdf & Hrun)].
  - erewrite bind_raise; [|exact Hrun]. split; [done|]. split; [done|].
    intros Hall. destruct (Hall label (list_elem_of_here _ _)) as (? & ? & _).
    congruence.
  - destruct (df_empty df) eqn:Hemp.
    + erewrite bind_raise; [|exact Hrun]. split; [done|]. split; [done|].
      intros Hall.
      destruct (Hall label (list_elem_of_here _ _)) as (df' & Hdf' & Hne).
      congruence.
    + erewrite bind_ok; [|exact Hrun]. destruct IH as [IH1 IH2].
      split; [done|]. rewrite IH2. split.
      * intros Hall l [->|Hl]%elem_of_cons; [by eauto|by apply Hall].
      * intros Hall l Hl. apply Hall. by apply list_elem_of_further.
Qed.

Lemma ensure_main_count_tables_iff_witness :
  (ensure_main_count_tables_exist_and_populated example_selection
     example_stale_store).2 = example_stale_store ∧
  ((ensure_main_count_tables_exist_and_populated example_selection
      example_stale_store).1 = Ok tt ↔
   ∀ label, label ∈ labels example_selection →
     ∃ df, example_stale_store !! counts_key label = Some df ∧
           df_empty df = false).
Proof.
  apply (ensure_main_count_tables_iff example_selection example_stale_store).
  done.
Defined.

(** ** What the analysis writes *)

Lemma outliers_key_ne_counts l1 l2 : counts_key l1 ≠ outliers_key l2.
Proof. apply main_key_suffix_ne; [done|]. by split; [simpl; lia|]. Qed.

Lemma outliers_key_ne_counts_unfiltered l1 l2 :
  outliers_key l1 ≠ counts_unfiltered_key l2.
Proof. apply main_key_suffix_ne; [done|]. by split; [simpl; lia|]. Qed.

Lemma outliers_key_ne_scores l1 l2 : scores_key l1 ≠ outliers_key l2.
Proof. apply main_key_suffix_ne; [done|]. by split; [simpl; lia|]. Qed.

Lemma outliers_key_ne_barcodemap l : outliers_key l ≠ barcodemap_key.
Proof.
  unfold outliers_key, main_key, barcodemap_key. intros H.
  change "/main/barcodemap" with ("/main/" +:+ "" +:+ "barcodemap") in H.
  apply (inj (String.app _)) in H.
  by apply (key_suffix_ne l "" "/outliers" "barcodemap") in H;
    [|simpl; lia|].
Qed.

Lemma writes_only_score_label (K : string → Prop) strategy self label :
  K (scores_key label) → writes_only K (score_label strategy self label).
Proof.
  intros HK. unfold score_label.
  apply writes_only_bind; [apply writes_only_check_store|].
  intros []; [apply writes_only_ret|].
  apply writes_only_bind; [by intros st k _|].
  intros df. by apply writes_only_store_put.
Qed.

Lemma writes_only_compute_scores (K : string → Prop) strategy self :
  (∀ label, label ∈ labels self → K (scores_key label)) →
  writes_only K (compute_scores strategy self).
Proof.
  intros HK. unfold compute_scores. apply writes_only_for_each.
  intros label Hlabel. apply writes_only_score_label. by apply HK.
Qed.

Lemma calc_outliers_run protein_variant norm_sf self label
    minimum_components log_chunksize st :
  (is_Some (st !! outliers_key label) ∧ force_recalculate self = false ∧
   calc_outliers protein_variant norm_sf self label minimum_components
     log_chunksize st = (Ok tt, st)) ∨
  (∃ e, calc_outliers protein_variant norm_sf self label minimum_components
          log_chunksize st = (Raise e, st)).
Proof.
  destruct (st !! outliers_key label) as [df|] eqn:Hk.
  - destruct (force_recalculate self) eqn:Hf.
    + right. apply calc_outliers_raises. by right.
    + left. split; [by eauto|]. split; [done|].
      apply calc_outliers_found; [by rewrite Hk; eauto|done].
  - right. apply calc_outliers_raises. by left.
Qed.

Lemma writes_only_calc_outliers K protein_variant norm_sf self label
    minimum_components log_chunksize :
  writes_only K (calc_outliers protein_variant norm_sf self label
                   minimum_components log_chunksize).
Proof.
  intros st k _.
  by destruct (calc_outliers_run protein_variant norm_sf self label
                 minimum_components log_chunksize st)
    as [(_ & _ & ->)|[e ->]].
Qed.

(** The keys that [calculate] may write. *)
Lemma writes_only_calculate scorer protein_variant norm_sf self :
  writes_only
    (λ k, (∃ label, label ∈ labels self ∧
                    (k = counts_unfiltered_key label ∨ k = counts_key label
                     ∨ k = scores_key label))
          ∨ k = barcodemap_key)
    (calculate scorer protein_variant norm_sf self).
Proof.
  unfold calculate.
  apply writes_only_bind.
  { destruct (decide _); [apply writes_only_raise|apply writes_only_ret]. }
  intros _. apply writes_only_bind.
  { apply writes_only_for_each. intros label Hlabel.
    apply writes_only_bind.
    - apply writes_only_merge_counts_unfiltered. left. exists label. auto.
    - intros _. apply writes_only_filter_counts. left. exists label. auto. }
  intros _. apply writes_only_bind.
  { destruct (_ || _); [|apply writes_only_ret].
    apply writes_only_combine_barcode_maps. by right. }
  intros _. apply writes_only_bind; [apply writes_only_ensure|].
  intros _. apply writes_only_bind; [apply writes_only_lift|].
  intros _. apply writes_only_bind.
  { repeat case_decide;
      try apply writes_only_ret; try apply writes_only_raise;
      apply writes_only_compute_scores; intros label Hlabel;
      left; exists label; auto. }
  intros _. destruct (_ && _); [|apply writes_only_ret].
  apply writes_only_bind.
  { destruct (_ || _); [apply writes_only_calc_outliers|apply writes_only_ret]. }
  intros _.
  destruct (is_coding self);
    [apply writes_only_calc_outliers|apply writes_only_ret].
Qed.

(** X12: [calc_outliers] never changes the store, and it returns
    normally only when the outliers table of the label is already there
    and recalculation is not forced: it never creates that table. *)
Theorem calc_outliers_never_writes protein_variant norm_sf self label
    minimum_components log_chunksize st :
  (calc_outliers protein_variant norm_sf self label minimum_components
     log_chunksize st).2 = st ∧
  ((calc_outliers protein_variant norm_sf self label minimum_components
      log_chunksize st).1 = Ok tt ↔
   is_Some (st !! outliers_key label) ∧ force_recalculate self = false).
Proof.
  destruct (calc_outliers_run protein_variant norm_sf self label
              minimum_components log_chunksize st)
    as [(Hk & Hf & Hrun)|[e Hrun]].
  - rewrite Hrun. by repeat split.
  - rewrite Hrun. split; [done|]. split; [done|]. intros [Hk Hf].
    rewrite (calc_outliers_found _ _ _ _ _ _ _ Hk Hf) in Hrun. done.
Qed.

Lemma outliers_key_not_written (self : Selection) label k :
  (∃ l, l ∈ labels self ∧
        (k = counts_unfiltered_key l ∨ k = counts_key l ∨ k = scores_key l))
  ∨ k = barcodemap_key →
  k ≠ outliers_key label.
Proof.
  intros [(l & _ & [->|[->| ->]])| ->] H.
  - by apply symmetry, outliers_key_ne_counts_unfiltered in H.
  - by apply outliers_key_ne_counts in H.
  - by apply outliers_key_ne_scores in H.
  - by apply symmetry, outliers_key_ne_barcodemap in H.
Qed.

(** X13: whatever the scoring method and the outliers flag, and whether
    it returns or raises, [calculate] leaves every outliers table as it
    was: none is created, replaced or removed. *)
Theorem calculate_never_writes_outliers scorer protein_variant norm_sf
    self st label :
  (calculate scorer protein_variant norm_sf self st).2 !! outliers_key label
  = st !! outliers_key label.
Proof.
  apply (writes_only_calculate scorer protein_variant norm_sf self).
  intros HK. by apply (outliers_key_not_written self label) in HK.
Qed.

(** X14: when component outliers are requested for a coding selection
    scored by ratios or regression and the store has no outliers table
    for the variants, [calculate] cannot return normally: every run ends
    in an exception. *)
Theorem calculate_component_outliers_fails scorer protein_variant norm_sf
    self st :
  scoring_method self ∈ ["ratios"; "WLS"; "OLS"] →
  component_outliers self = true →
  is_coding self = true →
  st !! outliers_key "variants" = None →
  ∃ e st', calculate scorer protein_variant norm_sf self st = (Raise e, st').
Proof.
  intros Hmethod Hflag Hcoding Habsent.
  pose proof (writes_only_calculate scorer protein_variant norm_sf self st
                (outliers_key "variants")) as Hw.
  destruct (calculate scorer protein_variant norm_sf self st)
    as [[[]|e] st'] eqn:Hrun; [|by eauto]. exfalso.
  simpl in Hw. rewrite Habsent in Hw.
  assert (st' !! outliers_key "variants" = None) as Hk.
  { apply Hw. intros HK.
    by apply (outliers_key_not_written self "variants") in HK. }
  unfold calculate in Hrun.
  apply bind_Ok_inv in Hrun as (u1 & st1 & _ & Hrun).
  apply bind_Ok_inv in Hrun as (u2 & st2 & _ & Hrun).
  apply bind_Ok_inv in Hrun as (u3 & st3 & _ & Hrun).
  apply bind_Ok_inv in Hrun as (u4 & st4 & _ & Hrun).
  apply bind_Ok_inv in Hrun as (u5 & st5 & _ & Hrun).
  apply bind_Ok_inv in Hrun as (u6 & st6 & _ & Hrun).
  rewrite (bool_decide_eq_true_2 _ Hmethod), Hflag, Hcoding in Hrun.
  cbn [andb] in Hrun.
  apply bind_Ok_inv in Hrun as (u7 & st7 & _ & Hrun).
  destruct (calc_outliers_run protein_variant norm_sf self "variants"
              4 20000 st7) as [(Hsome & _ & Hok)|[e He]]; [|congruence].
  rewrite Hok in Hrun. injection Hrun as <-.
  rewrite Hk in Hsome. by destruct Hsome.
Qed.

Lemma calculate_component_outliers_fails_witness :
  ∃ e st',
    calculate (λ _ _ _ _, Ok (mkDF [] [])) example_protein_variant id
      (example_scored_selection example_coding_libraries "ratios" true) ∅
    = (Raise e, st').
Proof.
  apply (calculate_component_outliers_fails
           (λ _ _ _ _, Ok (mkDF [] [])) example_protein_variant id
           (example_scored_selection example_coding_libraries "ratios" true)
           ∅).
  - compute_done.
  - done.
  - by vm_compute.
  - by vm_compute.
Defined.

(** X15: a scoring method other than [counts], [ratios], [simple],
    [OLS] and [WLS] is rejected by [calculate] itself, so no run with
    such a method returns normally; the count tables of the labels may
    have been written by then. *)
Theorem calculate_invalid_scoring_method scorer protein_variant norm_sf
    self st :
  scoring_method self ∉ ["counts"; "ratios"; "simple"; "OLS"; "WLS"] →
  ∃ e st', calculate scorer protein_variant norm_sf self st = (Raise e, st').
Proof.
  intros Hmethod.
  destruct (calculate scorer protein_variant norm_sf self st)
    as [[[]|e] st'] eqn:Hrun; [|by eauto]. exfalso.
  unfold calculate in Hrun.
  apply bind_Ok_inv in Hrun as (u1 & st1 & _ & Hrun).
  apply bind_Ok_inv in Hrun as (u2 & st2 & _ & Hrun).
  apply bind_Ok_inv in Hrun as (u3 & st3 & _ & Hrun).
  apply bind_Ok_inv in Hrun as (u4 & st4 & _ & Hrun).
  apply bind_Ok_inv in Hrun as (u5 & st5 & _ & Hrun).
  apply bind_Ok_inv in Hrun as (u6 & st6 & Hscore & _).
  repeat case_decide; [..|done]; apply Hmethod; set_solver.
Qed.

Lemma calculate_invalid_scoring_method_witness :
  (∃ e st',
     calculate (λ _ _ _ _, Ok (mkDF [] [])) id id
       (example_scored_selection (libraries example_selection)
          "enrichment" false) ∅ = (Raise e, st')) ∧
  is_Some ((calculate (λ _ _ _ _, Ok (mkDF [] [])) id id
              (example_scored_selection (libraries example_selection)
                 "enrichment" false) ∅).2
           !! counts_key "variants").
Proof.
  split.
  - apply (calculate_invalid_scoring_method (λ _ _ _ _, Ok (mkDF [] []))
             id id
             (example_scored_selection (libraries example_selection)
                "enrichment" false) ∅).
    compute_done.
  - vm_compute. by eauto.
Defined.

(** ** The components of an element *)

Lemma synonymous_fold (f : string → string) (vs : list string) pv :
  foldl (λ (mapping : gmap string (list string)) v,
           let pv := f v in
           match mapping !! pv with
           | Some vs => <[pv := (vs ++ [v])%list]> mapping
           | None => <[pv := [v]]> mapping
           end) ∅ vs !! pv
  = match filter (λ v, f v = pv) vs with
    | [] => None
    | group => Some group
    end.
Proof.
  induction vs as [|v vs IH] using rev_ind; [done|].
  rewrite foldl_app, filter_app. cbn [foldl]. cbv zeta.
  set (m := foldl _ ∅ vs) in *.
  destruct (decide (f v = pv)) as [<-|Hne].
  - rewrite filter_cons_True, filter_nil by done. rewrite IH.
    destruct (filter _ vs) as [|g gs]; rewrite lookup_insert_eq; done.
  - rewrite filter_cons_False, filter_nil, app_nil_r by done.
    destruct (m !! f v); by rewrite lookup_insert_ne.
Qed.

(** X16: [synonymous_variants] groups the variants of the filtered
    counts table by their protein variant: each protein variant that
    occurs maps to its variants in table order, and no other key is in
    the mapping. *)
Theorem synonymous_variants_groups protein_variant self st df :
  st !! counts_key "variants" = Some df →
  ∃ mapping,
    synonymous_variants protein_variant self st = (Ok mapping, st) ∧
    ∀ pv, mapping !! pv
          = match filter (λ v, protein_variant v = pv) (index df) with
            | [] => None
            | group => Some group
            end.
Proof.
  intros Hdf. unfold synonymous_variants. rewrite Hdf.
  eexists. split; [done|]. intros pv. apply synonymous_fold.
Qed.

Lemma synonymous_variants_groups_witness :
  ∃ mapping,
    synonymous_variants example_protein_variant example_selection
      example_scored_store = (Ok mapping, example_scored_store) ∧
    ∀ pv, mapping !! pv
          = match filter (λ v, example_protein_variant v = pv)
                    ["v1"; "v2"; "v3"; "v4"] with
            | [] => None
            | group => Some group
            end.
Proof.
  apply (synonymous_variants_groups example_protein_variant
           example_selection example_scored_store
           (example_counts [("v1", 3); ("v2", 4); ("v3", 5); ("v4", 6)])).
  by vm_compute.
Defined.

Lemma zip_fmap_same {A B C} (f : A → B) (g : A → C) (l : list A) :
  zip (map f l) (map g l) = map (λ x, (f x, g x)) l.
Proof. induction l as [|x l IH]; simpl; [done|]. by rewrite IH. Qed.

Lemma barcodemap_fold (bvs : list (string * cell)) :
  let mapping :=
    foldl (λ (mapping : gmap string (list string)) (bv : string * cell),
             match bv.2 with
             | Str v =>
                 match mapping !! v with
                 | Some bcs =>
                     if decide (bv.1 ∈ bcs) then mapping
                     else <[v := (bcs ++ [bv.1])%list]> mapping
                 | None => <[v := [bv.1]]> mapping
                 end
             | _ => mapping
             end) ∅ bvs in
  (∀ v bc, bc ∈ default [] (mapping !! v) ↔ (bc, Str v) ∈ bvs) ∧
  (∀ v bcs, mapping !! v = Some bcs → NoDup bcs ∧ bcs ≠ []).
Proof.
  induction bvs as [|[b c] bvs IH] using rev_ind.
  { simpl. split; [|done]. intros v bc. rewrite lookup_empty. simpl.
    by rewrite !elem_of_nil. }
  cbv zeta in *. rewrite foldl_app. cbn [foldl].
  set (m := foldl _ ∅ bvs) in *. destruct IH as [IHin IHnd]. simpl.
  assert (∀ v bc, (bc, Str v) ∈ (bvs ++ [(b, c)])%list ↔
                  (bc, Str v) ∈ bvs ∨ (bc = b ∧ c = Str v)) as Hin.
  { intros v bc. rewrite elem_of_app, list_elem_of_singleton.
    split; (intros [?|H]; [by left|right]).
    - by injection H as -> ->.
    - by destruct H as [-> ->]. }
  destruct c as [| | |w]; try (split; [|done]; intros v bc;
    rewrite Hin, IHin; split; [by left|by intros [?|[_ ?]]]).
  destruct (m !! w) as [bcs|] eqn:Hw.
  - destruct (IHnd w bcs Hw) as [Hnd Hne].
    destruct (decide (b ∈ bcs)) as [Hb|Hb].
    + split; [|done]. intros v bc. rewrite Hin, IHin.
      split; [by left|]. intros [?|[-> [= ->]]]; [done|].
      apply IHin. by rewrite Hw.
    + split.
      * intros v bc. rewrite Hin. destruct (decide (v = w)) as [->|Hvw].
        -- rewrite lookup_insert_eq. simpl. rewrite elem_of_app,
             list_elem_of_singleton, <-IHin, Hw. simpl.
           split; (intros [?|?]; [by left|right]); [done|by destruct H].
        -- rewrite lookup_insert_ne by done. rewrite IHin.
           split; [by left|]. by intros [?|[_ [= ?]]].
      * intros v bcs'. destruct (decide (v = w)) as [->|Hvw].
        -- rewrite lookup_insert_eq. intros [= <-]. split.
           ++ apply NoDup_app. split; [done|]. split; [|apply NoDup_singleton].
              intros x Hx ->%list_elem_of_singleton. done.
           ++ by destruct bcs.
        -- rewrite lookup_insert_ne by done. apply IHnd.
  - split.
    + intros v bc. rewrite Hin. destruct (decide (v = w)) as [->|Hvw].
      * rewrite lookup_insert_eq. simpl. rewrite list_elem_of_singleton,
          <-IHin, Hw. simpl. rewrite elem_of_nil.
        split; [by right|]. by intros [[]|[? _]].
      * rewrite lookup_insert_ne by done. rewrite IHin.
        split; [by left|]. by intros [?|[_ [= ?]]].
    + intros v bcs'. destruct (decide (v = w)) as [->|Hvw].
      * rewrite lookup_insert_eq. intros [= <-].
        split; [apply NoDup_singleton|done].
      * rewrite lookup_insert_ne by done. apply IHnd.
Qed.

(** X17: [barcodemap_mapping] gives each identifier of the merged
    barcode map exactly the barcodes whose row carries it, each barcode
    once; an identifier without a barcode is not a key. *)
Theorem barcodemap_mapping_groups self st bcm i :
  st !! barcodemap_key = Some bcm →
  col_pos "value" (columns bcm) = Some i →
  ∃ mapping,
    barcodemap_mapping self st = (Ok mapping, st) ∧
    (∀ v bc, bc ∈ default [] (mapping !! v) ↔
             ∃ cs, (bc, cs) ∈ rows bcm ∧ cs !! i = Some (Str v)) ∧
    (∀ v bcs, mapping !! v = Some bcs → NoDup bcs ∧ bcs ≠ []).
Proof.
  intros Hbcm Hcol. unfold barcodemap_mapping.
  erewrite bind_ok; [|unfold store_select; by rewrite Hbcm].
  erewrite bind_ok; [|unfold lift, get_col; by rewrite Hcol].
  eexists. split; [done|].
  unfold index. rewrite zip_fmap_same.
  match goal with
  | |- context [foldl ?f ∅ ?l] =>
      destruct (barcodemap_fold l) as [Hin Hnd]
  end.
  cbv zeta in Hin, Hnd. split; [|exact Hnd].
  intros v bc. rewrite Hin, list_elem_of_fmap. split.
  - intros ([b cs] & [= -> Hc] & Hr). exists cs. split; [done|].
    simpl in Hc. destruct (cs !! i) as [c|]; simpl in Hc; by subst.
  - intros (cs & Hr & Hc). exists (bc, cs). split; [|done].
    simpl. by rewrite Hc.
Qed.

Lemma barcodemap_mapping_groups_witness :
  ∃ mapping,
    barcodemap_mapping example_barcode_selection
      {[ barcodemap_key := example_barcodemap ]}
    = (Ok mapping, {[ barcodemap_key := example_barcodemap ]}) ∧
    (∀ v bc, bc ∈ default [] (mapping !! v) ↔
             ∃ cs, (bc, cs) ∈ rows example_barcodemap ∧
                   cs !! 0%nat = Some (Str v)) ∧
    (∀ v bcs, mapping !! v = Some bcs → NoDup bcs ∧ bcs ≠ []).
Proof.
  apply (barcodemap_mapping_groups example_barcode_selection
           {[ barcodemap_key := example_barcodemap ]} example_barcodemap
           0%nat).
  - apply lookup_singleton_eq.
  - done.
Defined.

(** ** Adding and removing libraries *)

Lemma set_libraries_id self : set_libraries self (libraries self) = self.
Proof. by destruct self. Qed.

Lemma child_position_None treeview_id libs tree_id :
  (∀ lib, lib ∈ libs → treeview_id lib ≠ tree_id) →
  child_position treeview_id libs tree_id = None.
Proof.
  intros Hall. unfold child_position.
  destruct (list_find _ libs) as [[i lib]|] eqn:Hfind; [|done].
  apply list_find_Some in Hfind as (Hi & Hid & _).
  exfalso. eapply Hall; [|exact Hid]. by eapply list_elem_of_lookup_2.
Qed.

Lemma child_position_last treeview_id libs child :
  (∀ lib, lib ∈ libs → treeview_id lib ≠ treeview_id child) →
  child_position treeview_id (libs ++ [child])%list (treeview_id child)
  = Some (length libs).
Proof.
  intros Hall. unfold child_position.
  assert (list_find (λ lib, treeview_id lib = treeview_id child)
            (libs ++ [child])%list = Some (length libs, child)) as ->; [|done].
  apply list_find_Some. split; [by apply list_lookup_middle|].
  split; [done|]. intros j lib Hj Hlt.
  rewrite lookup_app_l in Hj by done.
  apply Hall. by eapply list_elem_of_lookup_2.
Qed.

Lemma delete_last {A} (l : list A) (x : A) :
  delete (length l) (l ++ [x])%list = l.
Proof. induction l as [|y l IH]; simpl; [done|]. by rewrite IH. Qed.

Lemma remove_child_id_loop_cases treeview_id libs keys tree_id :
  remove_child_id_loop treeview_id libs keys tree_id = libs ∨
  ∃ tp i,
    tp ∈ keys ∧
    child_position treeview_id (default [] (libs !! tp)) tree_id = Some i ∧
    remove_child_id_loop treeview_id libs keys tree_id
    = (if decide (length (delete i (default [] (libs !! tp))) = 0%nat)
       then delete tp libs
       else <[tp := delete i (default [] (libs !! tp))]> libs).
Proof.
  induction keys as [|tp keys IH]; simpl; [by left|].
  destruct (child_position _ _ _) as [i|] eqn:Hpos.
  - right. exists tp, i. split; [apply list_elem_of_here|]. by split.
  - destruct IH as [IH|(tp' & i & Htp & Hpos' & IH)]; [by left|].
    right. exists tp', i. split; [by apply list_elem_of_further|]. by split.
Qed.

(** X18: [add_child] and [remove_child_id] keep the selection free of
    timepoints without a library, which is what the aggregation relies on
    when it reads the first library of each timepoint. *)
Theorem children_updates_keep_timepoints_populated child_names treeview_id
    keys self child tp tree_id :
  no_empty_timepoint self →
  no_empty_timepoint (remove_child_id treeview_id keys self tree_id) ∧
  (∀ self', add_child child_names self child tp = Ok self' →
            no_empty_timepoint self').
Proof.
  intros Hinv. split.
  - intros tp' libs. unfold remove_child_id. simpl.
    destruct (remove_child_id_loop_cases treeview_id (libraries self) keys
                tree_id) as [->|(tp0 & i & _ & _ & ->)]; [apply Hinv|].
    case_decide as Hlen.
    + destruct (decide (tp' = tp0)) as [->|Hne].
      * by rewrite lookup_delete_eq.
      * rewrite lookup_delete_ne by done. apply Hinv.
    + destruct (decide (tp' = tp0)) as [->|Hne].
      * rewrite lookup_insert_eq. intros [= <-] Hnil. by rewrite Hnil in Hlen.
      * rewrite lookup_insert_ne by done. apply Hinv.
  - intros self'. unfold add_child. case_bool_decide; [done|].
    destruct (libraries self !! tp) as [old|] eqn:Hold;
      intros [= <-] tp' libs; simpl;
      (destruct (decide (tp' = tp)) as [->|Hne];
       [rewrite lookup_insert_eq; intros [= <-]
       |rewrite lookup_insert_ne by done; apply Hinv]).
    + by destruct old.
    + done.
Qed.

Lemma children_updates_keep_timepoints_populated_witness :
  no_empty_timepoint
    (remove_child_id lib_name [0; 1; 2] example_selection "a0") ∧
  (∀ self',
     add_child (λ self, lib_name <$> children self) example_selection
       example_child 3 = Ok self' →
     no_empty_timepoint self').
Proof.
  apply (children_updates_keep_timepoints_populated
           (λ self, lib_name <$> children self) lib_name [0; 1; 2]
           example_selection example_child 3 "a0").
  unfold no_empty_timepoint. example_nonempty.
Defined.

(** X19: adding a library whose id no library of the selection has and
    then removing that id gives back the selection as it was, whatever
    the order in which the dictionary yields its timepoints. *)
Theorem add_child_remove_child_id child_names treeview_id keys self child
    tp self' :
  no_empty_timepoint self →
  (∀ lib, lib ∈ libs_by_timepoint self →
     treeview_id lib ≠ treeview_id child) →
  add_child child_names self child tp = Ok self' →
  keys ≡ₚ timepoints self' →
  remove_child_id treeview_id keys self' (treeview_id child) = self.
Proof.
  intros Hinv Hfresh Hadd Hkeys.
  assert (∀ tp' libs lib, libraries self !! tp' = Some libs → lib ∈ libs →
            treeview_id lib ≠ treeview_id child) as Hfresh'.
  { intros tp' libs lib Hl Hlib. apply Hfresh.
    apply elem_of_libs_by_timepoint. exists tp'. split.
    - apply elem_of_timepoints. by eauto.
    - unfold libraries_at. by rewrite Hl. }
  set (old := default [] (libraries self !! tp)).
  assert (libraries self' = <[tp := (old ++ [child])%list]> (libraries self))
    as Hlibs.
  { unfold add_child in Hadd. case_bool_decide; [done|]. unfold old.
    by destruct (libraries self !! tp); injection Hadd as <-. }
  assert (∀ lib, lib ∈ old → treeview_id lib ≠ treeview_id child) as Hold.
  { unfold old. intros lib Hlib.
    destruct (libraries self !! tp) as [libs|] eqn:Hl; simpl in Hlib.
    - by eapply Hfresh'.
    - by apply elem_of_nil in Hlib. }
  assert (tp ∈ keys) as Htp.
  { rewrite Hkeys. apply elem_of_timepoints. rewrite Hlibs.
    rewrite lookup_insert_eq. by eauto. }
  assert (remove_child_id_loop treeview_id (libraries self') keys
            (treeview_id child) = libraries self) as Hloop.
  { clear Hkeys. induction keys as [|k keys IH]; [by apply elem_of_nil in Htp|].
    cbn [remove_child_id_loop]. cbv zeta.
    destruct (decide (k = tp)) as [->|Hne].
    - rewrite Hlibs, lookup_insert_eq. simpl.
      rewrite (child_position_last _ _ _ Hold), delete_last.
      unfold old. destruct (libraries self !! tp) as [libs|] eqn:Hl; simpl.
      + rewrite decide_False.
        * rewrite insert_insert_eq. by apply insert_id.
        * pose proof (Hinv tp libs Hl). by destruct libs.
      + rewrite delete_insert_eq. by apply delete_id.
    - rewrite child_position_None.
      + apply IH. by apply elem_of_cons in Htp as [->|?].
      + rewrite Hlibs, lookup_insert_ne by done. intros lib Hlib.
        destruct (libraries self !! k) as [libs|] eqn:Hl; simpl in Hlib.
        * by eapply Hfresh'.
        * by apply elem_of_nil in Hlib. }
  unfold remove_child_id. rewrite Hloop.
  assert (set_libraries self' (libraries self)
          = set_libraries self (libraries self)) as ->.
  { unfold add_child in Hadd. case_bool_decide; [done|].
    by destruct (libraries self !! tp); injection Hadd as <-. }
  apply set_libraries_id.
Qed.

Lemma add_child_remove_child_id_witness :
  remove_child_id lib_name [3; 0; 1; 2]
    (set_libraries example_selection
       (<[3 := [example_child]]> (libraries example_selection)))
    (lib_name example_child)
  = example_selection.
Proof.
  apply (add_child_remove_child_id (λ self, lib_name <$> children self)
           lib_name [3; 0; 1; 2] example_selection example_child 3).
  - unfold no_empty_timepoint. example_nonempty.
  - intros lib Hlib. example_libs Hlib ltac:(done).
  - by vm_compute.
  - compute_done.
Defined.

(** ** A complete run *)

Lemma validate_Ok_head self :
  validate self = Ok tt → head (timepoints self) = Some 0.
Proof.
  unfold validate. case_bool_decide; [|done]. simpl.
  by case_bool_decide.
Qed.

(** X20: end to end in [counts] mode.  For a selection that passes
    [validate] and [timepoints_contain_variants], is not barcoded, has
    one label and libraries with their count tables, and has an element
    counted at every timepoint, the driver returns normally and the
    filtered count table holds exactly the elements counted at every
    timepoint. *)
Theorem main_driver_counts_succeeds scorer protein_variant norm_sf self
    label st :
  validate self = Ok tt →
  timepoints_contain_variants self = Ok tt →
  labels self = [label] →
  scoring_method self = "counts" →
  is_barcodevariant self || is_barcodeid self = false →
  force_recalculate self = false →
  st !! counts_unfiltered_key label = None →
  0 < chunksize self →
  (∀ tp libs, libraries self !! tp = Some libs → libs ≠ []) →
  (∀ lib, lib ∈ libs_by_timepoint self →
     lib_ready (counts_key label) lib) →
  (∃ e, ∀ tp, tp ∈ timepoints self → observed_at self label tp e) →
  ∃ st',
    main_driver scorer protein_variant norm_sf self st = (Ok tt, st') ∧
    (∀ e, e ∈ store_index st' (counts_key label) ↔
          ∀ tp, tp ∈ timepoints self → observed_at self label tp e) ∧
    (∀ k, k ≠ counts_unfiltered_key label → k ≠ counts_key label →
          st' !! k = st !! k).
Proof.
  intros Hvalid Htcv Hlabels Hcounts Hbc Hforce Hunf Hcs Hne Hlibs
    (e0 & He0).
  pose proof (validate_Ok_head self Hvalid) as Hhead.
  assert (0 ∈ timepoints self) as H0.
  { destruct (timepoints self) as [|tp rest]; [done|].
    injection Hhead as ->. apply list_elem_of_here. }
  assert (∃ lib e, lib ∈ libs_by_timepoint self ∧
                   is_Some (lib_count (counts_key label) lib e)) as Hsome.
  { destruct (He0 0 H0) as (lib & Hlib & Hc). exists lib, e0.
    split; [|done]. apply elem_of_libs_by_timepoint. by exists 0. }
  destruct (merge_then_filter_run self label st (or_introl Hunf) Hcs Hhead
              Hne Hlibs Hsome)
    as (st1 & unf & Hmerge & Hunf1 & Hrows & Hfilter).
  destruct (merge_counts_unfiltered_table self label st (or_introl Hunf)
              Hcs Hhead Hne Hlibs) as (st1' & Hmerge' & Hframe & _).
  assert (st1' = st1) by congruence. subst st1'.
  set (flt := dropna_any unf) in *.
  set (st' := <[counts_key label := flt]> st1) in *.
  assert (st' !! counts_key label = Some flt) as Hflt
    by apply lookup_insert_eq.
  assert (∀ e, e ∈ index flt ↔
               ∀ tp, tp ∈ timepoints self → observed_at self label tp e)
    as Hidx.
  { by apply dropna_any_complete_index. }
  assert (df_empty flt = false) as Hpop.
  { assert (e0 ∈ index flt) as Hin by (by apply Hidx).
    assert (columns flt ≠ []) as Hcols.
    { unfold flt, dropna_any. simpl.
      destruct (merge_counts_unfiltered_table self label st
                  (or_introl Hunf) Hcs Hhead Hne Hlibs)
        as (st1' & Hmerge'' & _ & _ & Hc & _).
      assert (st1' = st1) by congruence. subst st1'.
      rewrite (Hc unf Hunf1).
      destruct (timepoints self); [by apply elem_of_nil in H0|done]. }
    unfold df_empty, index in *.
    destruct (rows flt); [by apply elem_of_nil in Hin|].
    by destruct (columns flt). }
  exists st'. split; [|split].
  - unfold main_driver. erewrite bind_ok; [|unfold lift; by rewrite Hvalid].
    unfold calculate. rewrite Hlabels. cbn [length].
    rewrite decide_False by done.
    erewrite bind_ok; [|reflexivity].
    erewrite bind_ok.
    2: { cbn [for_each]. erewrite bind_ok.
         - reflexivity.
         - erewrite bind_ok; [|exact Hmerge]. exact Hfilter. }
    rewrite Hbc. erewrite bind_ok; [|reflexivity].
    erewrite bind_ok.
    2: { unfold ensure_main_count_tables_exist_and_populated.
         rewrite Hlabels. cbn [for_each]. erewrite bind_ok; [reflexivity|].
         unfold ensure_count_table. cbv zeta.
         unfold table_not_empty_for_key, table_exists_for_key.
         erewrite bind_ok; [|apply check_store_true; by eauto]. cbn [negb].
         erewrite bind_ok.
         2: { erewrite bind_ok; [|apply check_store_true; by eauto].
              cbn [negb].
              erewrite bind_ok; [|unfold store_select; by rewrite Hflt].
              reflexivity. }
         by rewrite Hpop. }
    erewrite bind_ok; [|unfold lift; by rewrite Htcv].
    rewrite decide_True by done.
    erewrite bind_ok; [|reflexivity].
    by rewrite Hcounts.
  - intros e. unfold store_index, store_rows. rewrite Hflt. apply Hidx.
  - intros k Hk1 Hk2. unfold st'. rewrite lookup_insert_ne by done.
    by apply Hframe.
Qed.

Lemma main_driver_counts_succeeds_witness :
  ∃ st',
    main_driver (λ _ _ _ _, Raise (KeyError "")) id id example_selection ∅
    = (Ok tt, st') ∧
    (∀ e, e ∈ store_index st' (counts_key "variants") ↔
          ∀ tp, tp ∈ timepoints example_selection →
                observed_at example_selection "variants" tp e) ∧
    (∀ k, k ≠ counts_unfiltered_key "variants" →
          k ≠ counts_key "variants" → st' !! k = (∅ : HDFStore) !! k).
Proof.
  apply (main_driver_counts_succeeds (λ _ _ _ _, Raise (KeyError "")) id id
           example_selection "variants" ∅).
  - by vm_compute.
  - by vm_compute.
  - done.
  - done.
  - by vm_compute.
  - done.
  - done.
  - done.
  - example_nonempty.
  - example_ready.
  - exists "A". intros tp Htp.
    assert (tp = 0 ∨ tp = 1 ∨ tp = 2) as [->|[->| ->]].
    { replace (timepoints example_selection) with [0; 1; 2] in Htp
        by (by vm_compute).
      repeat (apply elem_of_cons in Htp as [->|Htp]; [by auto|]).
      by apply elem_of_nil in Htp. }
    + exists (example_lib "a0" [("A", 10)]).
      split; [apply list_elem_of_here|by vm_compute; eauto].
    + exists (example_lib "a1" [("A", 5)]).
      split; [apply list_elem_of_here|by vm_compute; eauto].
    + exists (example_lib "a2" [("A", 2)]).
      split; [apply list_elem_of_here|by vm_compute; eauto].
Defined.

(** ** The barcode map without its sources *)

Lemma combine_fold_missing libs : ∀ acc,
  (∃ lib, lib ∈ libs ∧ lib_store lib !! raw_barcodemap_key = None) →
  ∃ e, fold_result combine_step libs acc = Raise e.
Proof.
  induction libs as [|lib libs IH]; intros acc (l & Hl & Hnone).
  { by apply elem_of_nil in Hl. }
  rewrite fold_result_cons.
  destruct (combine_step acc lib) as [acc'|e] eqn:Hstep; [|by exists e].
  simpl. apply IH. apply elem_of_cons in Hl as [->|Hl]; [|by exists l].
  unfold combine_step, lib_select in Hstep. by rewrite Hnone in Hstep.
Qed.

(** X21: without libraries, or with a library that has no raw barcode
    map, [combine_barcode_maps] raises and leaves the store as it was:
    no merged barcode map is written. *)
Theorem combine_barcode_maps_needs_raw_maps self st :
  (st !! barcodemap_key = None ∨ force_recalculate self = true) →
  (children self = [] ∨
   ∃ lib, lib ∈ children self ∧
          lib_store lib !! raw_barcodemap_key = None) →
  ∃ e, combine_barcode_maps self st = (Raise e, st).
Proof.
  intros Hguard Hcases. unfold combine_barcode_maps.
  erewrite bind_ok; [|by apply check_store_false]. cbv beta iota.
  destruct Hcases as [Hnil|Hmiss].
  - rewrite Hnil. erewrite bind_ok; [|reflexivity]. by eexists.
  - destruct (combine_fold_missing _ None Hmiss) as [e He].
    exists e. erewrite bind_raise; [done|]. unfold lift. by rewrite He.
Qed.

Lemma combine_barcode_maps_needs_raw_maps_witness :
  ∃ e, combine_barcode_maps example_selection ∅ = (Raise e, ∅).
Proof.
  apply (combine_barcode_maps_needs_raw_maps example_selection ∅).
  - by left.
  - right. exists (example_lib "a0" [("A", 10)]). split; [|done].
    vm_compute. apply list_elem_of_here.
Defined.

(** ** The loop over the elements of [calc_outliers] *)

Lemma row_lookup_update_other e e' (f : list cell → list cell) rs :
  e' ≠ e →
  row_lookup e'
    (map (λ r : string * list cell,
            if decide (r.1 = e) then (r.1, f r.2) else r) rs)
  = row_lookup e' rs.
Proof.
  intros Hne. induction rs as [|[k cs] rs IH]; simpl; [done|].
  destruct (decide (k = e)) as [->|Hk]; simpl.
  - by rewrite !decide_False by done.
  - by rewrite IH.
Qed.

Lemma set_at_loc_other df e c v i e' :
  col_pos c (columns df) = Some i → e' ≠ e →
  ∀ df', set_at df e c v = Ok df' → loc df' e' = loc df e'.
Proof.
  intros Hi Hne df'. unfold set_at. rewrite Hi. intros [= <-].
  unfold loc. simpl. by apply row_lookup_update_other.
Qed.

Lemma outlier_component_spec norm_sf df1 df2 x result_df c
    x_score c_score x_var c_var :
  columns result_df = ["z"; "pvalue_raw"; "parent"] →
  at_float df2 x "score" = Ok x_score →
  at_float df1 c "score" = Ok c_score →
  at_float df2 x "var" = Ok x_var →
  at_float df1 c "var" = Ok c_var →
  let z := zvalue_of x_score x_var c_score c_var in
  ∃ result_df',
    outlier_component norm_sf df1 df2 x result_df c = Ok result_df' ∧
    columns result_df' = columns result_df ∧
    loc result_df' c
    = (λ cs, <[2%nat := Str x]>
               (<[1%nat := Flt (2 * norm_sf z)%float]>
                  (<[0%nat := Flt z]> cs))) <$> loc result_df c ∧
    ∀ e, e ≠ c → loc result_df' e = loc result_df e.
Proof.
  intros Hcols Hxs Hcs Hxv Hcv z.
  unfold outlier_component. rewrite Hxs, Hcs, Hxv, Hcv. simpl.
  fold (zvalue_of x_score x_var c_score c_var). fold z.
  destruct (set_at_loc result_df c "z" (Flt z) 0%nat)
    as (r1 & Hr1 & Hc1 & Hl1); [by rewrite Hcols|].
  rewrite Hr1. simpl.
  destruct (set_at_loc r1 c "pvalue_raw" (Flt (2 * norm_sf z)%float) 1%nat)
    as (r2 & Hr2 & Hc2 & Hl2); [by rewrite Hc1, Hcols|].
  rewrite Hr2. simpl.
  destruct (set_at_loc r2 c "parent" (Str x) 2%nat)
    as (r3 & Hr3 & Hc3 & Hl3); [by rewrite Hc2, Hc1, Hcols|].
  exists r3. split; [done|]. split; [by rewrite Hc3, Hc2, Hc1|]. split.
  - rewrite Hl3, Hl2, Hl1. unfold set_cell.
    by destruct (loc result_df c).
  - intros e He.
    rewrite (set_at_loc_other r2 c "parent" (Str x) 2%nat e
               ltac:(by rewrite Hc2, Hc1, Hcols) He r3 Hr3).
    rewrite (set_at_loc_other r1 c "pvalue_raw" _ 1%nat e
               ltac:(by rewrite Hc1, Hcols) He r2 Hr2).
    by rewrite (set_at_loc_other result_df c "z" _ 0%nat e
                  ltac:(by rewrite Hcols) He r1 Hr1).
Qed.

Lemma fold_result_app {A B} (f : B → A → result B) xs ys b :
  fold_result f (xs ++ ys)%list b
  = (b' ← fold_result f xs b; fold_result f ys b').
Proof.
  revert b. induction xs as [|x xs IH]; intros b; simpl; [done|].
  destruct (f b x) as [b'|e]; simpl; [apply IH|done].
Qed.

(** X22: the inner loop of [calc_outliers] over the components of an
    element [x] gives every component its [z], the p-value [2 * sf(z)]
    and the parent [x], and leaves the results of all other elements as
    they were. *)
Theorem outlier_components_written norm_sf df1 df2 x x_score x_var
    (c_score c_var : string → float) components result_df :
  columns result_df = ["z"; "pvalue_raw"; "parent"] →
  at_float df2 x "score" = Ok x_score →
  at_float df2 x "var" = Ok x_var →
  (∀ c, c ∈ components →
     at_float df1 c "score" = Ok (c_score c) ∧
     at_float df1 c "var" = Ok (c_var c) ∧
     ∃ cs, loc result_df c = Some cs ∧ length cs = 3%nat) →
  ∃ result_df',
    fold_result (outlier_component norm_sf df1 df2 x) components result_df
    = Ok result_df' ∧
    (∀ c, c ∈ components →
       let z := zvalue_of x_score x_var (c_score c) (c_var c) in
       at_ result_df' c "z" = Some (Flt z) ∧
       at_ result_df' c "pvalue_raw" = Some (Flt (2 * norm_sf z)%float) ∧
       at_ result_df' c "parent" = Some (Str x)) ∧
    (∀ e, e ∉ components → loc result_df' e = loc result_df e).
Proof.
  intros Hcols Hxs Hxv Hall.
  assert (∃ result_df',
    fold_result (outlier_component norm_sf df1 df2 x) components result_df
    = Ok result_df' ∧
    columns result_df' = columns result_df ∧
    (∀ e cs, loc result_df e = Some cs →
       ∃ cs', loc result_df' e = Some cs' ∧ length cs' = length cs) ∧
    (∀ c, c ∈ components →
       let z := zvalue_of x_score x_var (c_score c) (c_var c) in
       at_ result_df' c "z" = Some (Flt z) ∧
       at_ result_df' c "pvalue_raw" = Some (Flt (2 * norm_sf z)%float) ∧
       at_ result_df' c "parent" = Some (Str x)) ∧
    (∀ e, e ∉ components → loc result_df' e = loc result_df e))
    as (r & Hfold & _ & _ & Hwritten & Hrest); [|by exists r].
  induction components as [|c comps IH] using rev_ind.
  { exists result_df. split; [done|]. split; [done|].
    split; [by eauto|]. split; [|done]. by intros c ?%elem_of_nil. }
  destruct IH as (r1 & Hfold & Hcols1 & Hlen1 & Hwritten & Hrest).
  { intros c' Hc'. apply Hall. apply elem_of_app. by left. }
  destruct (Hall c) as (Hcs & Hcv & cs & Hloc & Hlen).
  { apply elem_of_app. right. apply list_elem_of_here. }
  destruct (Hlen1 c cs Hloc) as (cs1 & Hloc1 & Hlencs1).
  rewrite Hcols in Hcols1.
  destruct (outlier_component_spec norm_sf df1 df2 x r1 c x_score
              (c_score c) x_var (c_var c) Hcols1 Hxs Hcs Hxv Hcv)
    as (r2 & Hstep & Hcols2 & Hloc2 & Hother).
  cbv zeta in Hloc2. rewrite Hloc1 in Hloc2. simpl in Hloc2.
  exists r2. split; [|split; [|split; [|split]]].
  - rewrite fold_result_app, Hfold. simpl. by rewrite Hstep.
  - by rewrite Hcols2, Hcols1.
  - intros e cs0 Hl0. destruct (Hlen1 e cs0 Hl0) as (cs0' & Hl0' & Hlen0).
    destruct (decide (e = c)) as [->|Hne].
    + eexists. split; [exact Hloc2|].
      rewrite !length_insert. congruence.
    + exists cs0'. by rewrite (Hother e Hne).
  - intros c' Hc'. cbv zeta.
    destruct (decide (c' = c)) as [->|Hne].
    + unfold at_. rewrite Hloc2, Hcols2, Hcols1. simpl.
      rewrite Hlen in Hlencs1.
      by destruct cs1 as [|a [|b [|d [|]]]].
    + assert (c' ∈ comps) as Hin.
      { apply elem_of_app in Hc' as [?|Hc']; [done|].
        by apply list_elem_of_singleton in Hc'. }
      destruct (Hwritten c' Hin) as (Hz & Hp & Hpar).
      unfold at_. rewrite Hcols2, (Hother c' Hne).
      exact (conj Hz (conj Hp Hpar)).
  - intros e He. rewrite Hother.
    + apply Hrest. intros Hin. apply He. apply elem_of_app. by left.
    + intros ->. apply He. apply elem_of_app. right. apply list_elem_of_here.
Qed.

Lemma outlier_components_written_witness :
  ∃ result_df',
    fold_result
      (outlier_component id (example_variances (scores_key "variants"))
         (example_variances (scores_key "synonymous")) "p1")
      ["v1"; "v2"; "v3"; "v4"] example_result_df
    = Ok result_df' ∧
    (∀ c, c ∈ ["v1"; "v2"; "v3"; "v4"] →
       let z := zvalue_of 1 0.25 (example_component "score" c)
                  (example_component "var" c) in
       at_ result_df' c "z" = Some (Flt z) ∧
       at_ result_df' c "pvalue_raw" = Some (Flt (2 * id z)%float) ∧
       at_ result_df' c "parent" = Some (Str "p1")) ∧
    (∀ e, e ∉ ["v1"; "v2"; "v3"; "v4"] →
       loc result_df' e = loc example_result_df e).
Proof.
  apply (outlier_components_written id
           (example_variances (scores_key "variants"))
           (example_variances (scores_key "synonymous")) "p1" 1 0.25
           (example_component "score") (example_component "var")
           ["v1"; "v2"; "v3"; "v4"] example_result_df).
  - done.
  - by vm_compute.
  - by vm_compute.
  - intros c Hc.
    repeat (apply elem_of_cons in Hc as [->|Hc];
            [split; [by vm_compute|];
             split; [by vm_compute|];
             eexists; split; by vm_compute|]).
    by apply elem_of_nil in Hc.
Defined.

(** X23: one pass of the loop over the elements leaves the results as
    they are for an element that has no components in the mapping, none
    in the scores table, or fewer scored ones than
    [minimum_components]. *)
Theorem outlier_step_small_group norm_sf mapping df1 df2 minimum_components
    log_chunksize log_chunksize_list log_chunk result_df i x :
  log_chunksize ≠ 0 →
  (Z.of_nat i `mod` log_chunksize = 0 →
   is_Some (log_chunksize_list !! Z.to_nat (log_chunk - 1))) →
  (∀ members selected,
     mapping !! x = Some members →
     loc_list df1 members = Ok selected →
     Z.of_nat (length (index (dropna_all selected))) < minimum_components) →
  ∃ log_chunk',
    outlier_step norm_sf mapping df1 df2 minimum_components log_chunksize
      log_chunksize_list (log_chunk, result_df) (i, x)
    = Ok (log_chunk', result_df).
Proof.
  intros Hcs Hlog Hsmall. unfold outlier_step, py_mod.
  rewrite decide_False by done. simpl.
  assert (∃ log_chunk',
    (if decide (Z.of_nat i `mod` log_chunksize = 0)
     then match log_chunksize_list !! Z.to_nat (log_chunk - 1) with
          | Some _ => Ok (log_chunk + 1)
          | None => Raise (IndexError "list index out of range")
          end
     else Ok log_chunk) = Ok log_chunk') as [log_chunk' ->].
  { case_decide as Hmod; [|by eauto].
    destruct (Hlog Hmod) as [n ->]. by eauto. }
  exists log_chunk'. simpl.
  destruct (mapping !! x) as [members|] eqn:Hmap; [|done].
  destruct (loc_list df1 members) as [selected|e] eqn:Hsel.
  - specialize (Hsmall members selected eq_refl Hsel).
    by rewrite decide_False by lia.
  - unfold loc_list in Hsel. destruct (forallb _ members); [|done].
    by injection Hsel as <-.
Qed.

Lemma outlier_step_small_group_witness :
  ∃ log_chunk',
    outlier_step id {[ "p1" := ["v1"; "v2"; "v3"] ]}
      (example_variances (scores_key "variants"))
      (example_variances (scores_key "synonymous"))
      4 20000 [1] (1, example_result_df) (0%nat, "p1")
    = Ok (log_chunk', example_result_df).
Proof.
  apply (outlier_step_small_group id {[ "p1" := ["v1"; "v2"; "v3"] ]}
           (example_variances (scores_key "variants"))
           (example_variances (scores_key "synonymous"))
           4 20000 [1] 1 example_result_df 0%nat "p1").
  - done.
  - intros _. by vm_compute; eauto.
  - intros members selected Hm Hs.
    rewrite lookup_singleton_eq in Hm. injection Hm as <-.
    vm_compute in Hs. injection Hs as <-. by vm_compute.
Defined.

(** ** One row for each element *)

Lemma all_ok_rows_index {A} (g : string → result A) (l : list string) rs :
  all_ok (map (λ e, cs ← g e; Ok (e, cs)) l) = Ok rs → rs.*1 = l.
Proof.
  revert rs. induction l as [|e l IH]; intros rs; simpl.
  { by intros [= <-]. }
  destruct (g e) as [cs|]; [|done]. simpl.
  destruct (all_ok _) as [rs'|]; [|done]. simpl.
  intros [= <-]. simpl. f_equal. by apply IH.
Qed.

Lemma frame_add_fill_index c o c' :
  frame_add_fill c o = Ok c' → index c' = index_union (index c) (index o).
Proof.
  unfold frame_add_fill. cbv zeta.
  destruct (all_ok _) as [rs|] eqn:Hrs; [|done]. simpl. intros [= <-].
  unfold index at 1. simpl. by apply all_ok_rows_index in Hrs.
Qed.

Lemma frame_join_outer_index l r f :
  frame_join_outer l r = Ok f → index f = index_union (index l) (index r).
Proof.
  unfold frame_join_outer. case_bool_decide; [|done]. intros [= <-].
  unfold index at 1. simpl. rewrite <-list_fmap_compose.
  by rewrite (list_fmap_ext _ id) by done; rewrite list_fmap_id.
Qed.

Lemma fold_add_NoDup lib_table chunk others : ∀ c c',
  fold_result
    (λ c lib, o ← lib_select_where lib lib_table chunk; frame_add_fill c o)
    others c = Ok c' →
  NoDup (index c) → NoDup (index c').
Proof.
  induction others as [|lib others IH]; intros c c'; simpl.
  { by intros [= <-]. }
  destruct (lib_select_where lib lib_table chunk) as [o|]; [|done]. simpl.
  destruct (frame_add_fill c o) as [c1|] eqn:Hadd; [|done]. simpl.
  intros Hfold _. apply (IH c1 c' Hfold).
  rewrite (frame_add_fill_index _ _ _ Hadd). apply NoDup_index_union.
Qed.

Lemma merge_timepoint_NoDup self lib_table chunk tp c :
  Forall (lib_ready lib_table) (libraries_at self tp) →
  merge_timepoint self lib_table chunk tp = Ok c →
  NoDup (index c).
Proof.
  intros Hready. unfold merge_timepoint.
  destruct (libraries_at self tp) as [|lib0 others]; [done|].
  apply Forall_cons in Hready as [(df & Hdf & _ & Hnd & _) _].
  destruct (lib_select_where lib0 lib_table chunk) as [c0|] eqn:Hc0; [|done].
  simpl.
  destruct (fold_result _ others c0) as [c1|] eqn:Hfold; [|done]. simpl.
  unfold set_columns. case_decide; [|done]. intros [= <-].
  change (NoDup (index c1)). apply (fold_add_NoDup _ _ _ _ _ Hfold).
  unfold lib_select_where, lib_select in Hc0. rewrite Hdf in Hc0.
  simpl in Hc0. injection Hc0 as <-.
  unfold index. simpl. eapply sublist_NoDup; [exact Hnd|].
  apply fmap_sublist, sublist_filter.
Qed.

Lemma merge_chunk_NoDup self lib_table chunk tps : ∀ tp_frame f,
  Forall (timepoint_ready self lib_table) tps →
  (∀ f0, tp_frame = Some f0 → NoDup (index f0)) →
  fold_result (merge_chunk_step self lib_table chunk) tps tp_frame
  = Ok (Some f) →
  NoDup (index f).
Proof.
  induction tps as [|tp tps IH]; intros tp_frame f Hready Hacc; simpl.
  { intros [= ->]. by apply Hacc. }
  apply Forall_cons in Hready as [[_ Htp] Hready].
  unfold merge_chunk_step at 2.
  destruct (merge_timepoint self lib_table chunk tp) as [c|] eqn:Hc;
    [|done]. simpl.
  pose proof (merge_timepoint_NoDup _ _ _ _ _ Htp Hc) as Hnd.
  case_decide.
  - simpl. apply IH; [done|]. by intros f0 [= <-].
  - destruct tp_frame as [f0|]; [|done].
    destruct (frame_join_outer f0 c) as [f1|] eqn:Hjoin; [|done]. simpl.
    apply IH; [done|]. intros f2 [= <-].
    rewrite (frame_join_outer_index _ _ _ Hjoin). apply NoDup_index_union.
Qed.

Lemma merge_chunk_NoDup_zero self lib_table chunk rest tp_frame f :
  Forall (timepoint_ready self lib_table) (0 :: rest) →
  fold_result (merge_chunk_step self lib_table chunk) (0 :: rest) tp_frame
  = Ok (Some f) →
  NoDup (index f).
Proof.
  intros Hready. pose proof Hready as [[_ H0] Hrest]%Forall_cons.
  cbn [fold_result]. unfold merge_chunk_step at 2.
  destruct (merge_timepoint self lib_table chunk 0) as [c|] eqn:Hc;
    [|done]. simpl.
  apply merge_chunk_NoDup; [done|]. intros f0 [= <-].
  by apply (merge_timepoint_NoDup _ _ _ _ _ H0 Hc).
Qed.

Lemma NoDup_replace_middle {A} (a b c f : list A) :
  NoDup (a ++ b ++ c) → NoDup f → f ⊆ b → NoDup (a ++ f ++ c).
Proof.
  rewrite !NoDup_app. intros (Ha & Hab & Hb & Hbc & Hc) Hf Hsub.
  split; [done|]. split.
  - intros x Hx [Hxf|Hxc]%elem_of_app.
    + apply (Hab x Hx). apply elem_of_app. left. by apply Hsub.
    + apply (Hab x Hx). apply elem_of_app. by right.
  - split; [done|]. split; [|done].
    intros x Hx. apply Hbc. by apply Hsub.
Qed.

Lemma chunks_concat {A} (l : list A) (cs : Z) (n : nat) :
  0 < cs →
  (map (λ k : nat, Z.of_nat k * cs) (seq 0 n)) ≫=
    (λ i, slice l i (i + cs))
  = take (n * Z.to_nat cs) l.
Proof.
  intros Hcs. induction n as [|n IH]; [done|].
  rewrite seq_S, map_app, bind_app, IH. simpl. rewrite app_nil_r.
  unfold slice.
  replace (Z.to_nat (Z.of_nat n * cs + cs - Z.of_nat n * cs))
    with (Z.to_nat cs) by lia.
  replace (Z.to_nat (Z.of_nat n * cs)) with (n * Z.to_nat cs)%nat by lia.
  rewrite take_take_drop. f_equal. lia.
Qed.

Lemma chunks_NoDup self (ci : list string) :
  0 < chunksize self → NoDup ci →
  NoDup ((map (λ k : nat, Z.of_nat k * chunksize self)
            (seq 0 (Z.to_nat ((Z.of_nat (length ci) + chunksize self - 1)
                                `div` chunksize self))))
         ≫= chunk_of self ci).
Proof.
  intros Hcs Hnd. unfold chunk_of.
  destruct (decide (chunksize self < Z.of_nat (length ci))) as [Hlt|Hge].
  - rewrite (chunks_concat ci (chunksize self) _ Hcs).
    eapply sublist_NoDup; [exact Hnd|apply sublist_take].
  - assert ((Z.of_nat (length ci) + chunksize self - 1)
              `div` chunksize self < 2) as Hn.
    { apply Z.div_lt_upper_bound; lia. }
    destruct (Z.to_nat _) as [|[|n]] eqn:Hz; [constructor| |lia].
    simpl. by rewrite app_nil_r.
Qed.

Lemma merge_chunks_NoDup self label rest ci :
  timepoints self = 0 :: rest →
  Forall (timepoint_ready self (counts_key label)) (timepoints self) →
  NoDup (timepoints self) →
  (∀ e, e ∈ ci → ∃ tp, tp ∈ timepoints self ∧
                       expected_cell self (counts_key label) e tp ≠ NaN) →
  ∀ starts tpf st st',
    NoDup (store_index st (counts_unfiltered_key label)
           ++ (starts ≫= chunk_of self ci)) →
    merge_chunks self label (counts_key label) ci starts tpf st
    = (Ok tt, st') →
    NoDup (store_index st' (counts_unfiltered_key label)).
Proof.
  intros Htps Hready Hnd Hci.
  induction starts as [|i starts IH]; intros tpf st st' Hdisj.
  { simpl. intros [= <-]. simpl in Hdisj. by rewrite app_nil_r in Hdisj. }
  cbn [merge_chunks]. fold (chunk_of self ci i).
  destruct (merge_chunk_spec self (counts_key label) (chunk_of self ci i)
              rest tpf Htps Hready Hnd) as (f & Hf & Hjf).
  erewrite bind_ok; [|unfold lift; by rewrite Hf]. cbv beta iota.
  erewrite bind_ok; [|reflexivity].
  erewrite bind_ok;
    [|unfold lift; by rewrite (astype_float_numeric _
                                 (chunk_frame_numeric _ _ _ _ Hjf))].
  destruct (store_append_rows (counts_unfiltered_key label) f st)
    as (st1 & Happ & _ & Hrows1 & _).
  erewrite bind_ok; [|by destruct (bool_decide _); apply Happ].
  apply IH. unfold store_index. rewrite Hrows1, fmap_app, <-app_assoc.
  cbn [mbind list_bind] in Hdisj. 
  apply (NoDup_replace_middle _ (chunk_of self ci i)); [done| |].
  - unfold merge_chunk in Hf. rewrite Htps in Hf, Hready.
    by apply (merge_chunk_NoDup_zero self (counts_key label)
                (chunk_of self ci i) rest tpf f Hready).
  - intros e ([e' cs] & -> & Hr)%list_elem_of_fmap.
    by apply (chunk_frame_rows self label ci Hci i f _ Hjf) in Hr as [? _].
Qed.

(** X24: chunking never duplicates an element: the table that
    [merge_counts_unfiltered] stores has one row for each label, and so
    has the table that a following [filter_counts] stores. *)
Theorem merge_counts_unfiltered_unique_rows self label st :
  (st !! counts_unfiltered_key label = None ∨ force_recalculate self = true) →
  0 < chunksize self →
  head (timepoints self) = Some 0 →
  (∀ tp libs, libraries self !! tp = Some libs → libs ≠ []) →
  (∀ lib, lib ∈ libs_by_timepoint self →
     lib_ready (counts_key label) lib) →
  ∃ st',
    merge_counts_unfiltered self label st = (Ok tt, st') ∧
    NoDup (store_index st' (counts_unfiltered_key label)) ∧
    ∀ st'', filter_counts self label st' = (Ok tt, st'') →
            NoDup (store_index st'' (counts_key label)).
Proof.
  intros Hrun Hcs Hhead Hne Hlibs.
  assert (∃ rest, timepoints self = 0 :: rest) as [rest Htps].
  { destruct (timepoints self) as [|tp0 rest]; [done|].
    injection Hhead as ->. by exists rest. }
  pose proof (NoDup_timepoints self) as Hnd.
  assert (Forall (timepoint_ready self (counts_key label)) (timepoints self))
    as Hready.
  { apply Forall_forall. intros tp Htp. pose proof Htp as Htp'.
    apply elem_of_timepoints in Htp as [libs Hl].
    unfold timepoint_ready, libraries_at. rewrite Hl. simpl.
    split; [by eapply Hne|]. apply Forall_forall. intros lib Hlib.
    apply Hlibs. apply elem_of_libs_by_timepoint. exists tp.
    split; [done|]. unfold libraries_at. by rewrite Hl. }
  assert (Forall (lib_ready (counts_key label)) (libs_by_timepoint self))
    as Hall.
  { apply Forall_forall. intros lib Hlib. by apply Hlibs. }
  destruct (build_complete_index_fold (counts_key label) _ []
              (NoDup_nil_2) Hall) as (ci & Hbuild & Hcind & Hci).
  assert (∀ e, e ∈ ci → ∃ tp, tp ∈ timepoints self ∧
            expected_cell self (counts_key label) e tp ≠ NaN) as Hexp.
  { intros e [?%elem_of_nil|(lib & Hlib & Hs)]%Hci; [done|].
    apply elem_of_libs_by_timepoint in Hlib as (tp & Htp & Hlib).
    exists tp. split; [done|]. by eapply expected_cell_has. }
  destruct (merge_counts_unfiltered_table self label st Hrun Hcs Hhead Hne
              Hlibs) as (st' & Hmerge & _).
  exists st'. split; [done|].
  assert (NoDup (store_index st' (counts_unfiltered_key label))) as Hunique.
  { rewrite merge_counts_unfiltered_unfold in Hmerge by done.
    erewrite bind_ok in Hmerge;
      [|unfold lift, build_complete_index; by rewrite Hbuild].
    erewrite bind_ok in Hmerge;
      [|unfold lift; by rewrite (py_range_pos _ _ Hcs)].
    apply (merge_chunks_NoDup self label rest ci Htps Hready Hnd Hexp
             _ _ _ _) in Hmerge; [done|].
    unfold store_index, store_rows. rewrite lookup_delete_eq. simpl.
    by apply chunks_NoDup. }
  split; [done|]. intros st'' Hfilter.
  rewrite filter_counts_unfold in Hfilter.
  unfold store_index, store_rows in Hunique |- *.
  destruct (st' !! counts_unfiltered_key label) as [unf|]; [|done].
  unfold astype_float in Hfilter. destruct (existsb _ _); [done|].
  injection Hfilter as <-. rewrite lookup_insert_eq.
  eapply sublist_NoDup; [exact Hunique|].
  unfold dropna_any. simpl. apply fmap_sublist, sublist_filter.
Qed.

Lemma merge_counts_unfiltered_unique_rows_witness :
  ∃ st',
    merge_counts_unfiltered example_selection "variants" ∅ = (Ok tt, st') ∧
    NoDup (store_index st' (counts_unfiltered_key "variants")) ∧
    ∀ st'', filter_counts example_selection "variants" st' = (Ok tt, st'') →
            NoDup (store_index st'' (counts_key "variants")).
Proof.
  apply (merge_counts_unfiltered_unique_rows example_selection "variants" ∅).
  - by left.
  - done.
  - by vm_compute.
  - example_nonempty.
  - example_ready.
Defined.

(** ** The list of children *)

Lemma children_Permutation self : children self ≡ₚ libs_by_timepoint self.
Proof.
  unfold children, libs_by_timepoint.
  induction (timepoints self) as [|tp tps IH]; [done|].
  rewrite !bind_cons. by rewrite merge_sort_Permutation, IH.
Qed.

Lemma forallb_Permutation {A} (f : A → bool) (l k : list A) :
  l ≡ₚ k → forallb f l = forallb f k.
Proof.
  induction 1 as [|x l k _ IH|x y l|l k m _ IH1 _ IH2]; simpl.
  - done.
  - by rewrite IH.
  - by destruct (f x), (f y).
  - by rewrite IH1.
Qed.

(** X25: [_children] lists every library of every timepoint, each as
    often as the dictionary holds it, and the order by name within a
    timepoint does not affect the checks that range over all children. *)
Theorem children_all_libraries self :
  children self ≡ₚ libs_by_timepoint self ∧
  (∀ lib, lib ∈ children self ↔
          ∃ tp libs, libraries self !! tp = Some libs ∧ lib ∈ libs) ∧
  is_coding self = forallb lib_is_coding (libs_by_timepoint self) ∧
  has_wt_sequence self = forallb lib_has_wt_sequence (libs_by_timepoint self).
Proof.
  pose proof (children_Permutation self) as Hperm.
  split; [done|]. split; [|split].
  - intros lib. rewrite Hperm, elem_of_libs_by_timepoint. split.
    + intros (tp & Htp & Hlib). unfold libraries_at in Hlib.
      destruct (libraries self !! tp) as [libs|] eqn:Hl; simpl in Hlib.
      * by exists tp, libs.
      * by apply elem_of_nil in Hlib.
    + intros (tp & libs & Hl & Hlib). exists tp. split.
      * apply elem_of_timepoints. by eauto.
      * unfold libraries_at. by rewrite Hl.
  - unfold is_coding. by apply forallb_Permutation.
  - unfold has_wt_sequence. by apply forallb_Permutation.
Qed.

(** X26: a selection with at least one library is never classified as
    both barcode-variant and barcode-identifier, so the order of the two
    tests in [calc_outliers] does not matter for it. *)
Theorem barcode_kinds_exclusive self :
  children self ≠ [] →
  is_barcodevariant self && is_barcodeid self = false.
Proof.
  intros Hne. unfold is_barcodevariant, is_barcodeid.
  destruct (children self) as [|lib libs]; [done|]. simpl.
  destruct (lib_kind lib); simpl; try done.
  all: by rewrite ?andb_false_r.
Qed.

Lemma barcode_kinds_exclusive_witness :
  is_barcodevariant example_barcode_selection
  && is_barcodeid example_barcode_selection = false.
Proof.
  apply (barcode_kinds_exclusive example_barcode_selection).
  by vm_compute.
Defined.

(** ** From the raw barcode maps to the components of an element *)

Lemma combine_barcode_maps_run self st :
  (st !! barcodemap_key = None ∨ force_recalculate self = true) →
  children self ≠ [] →
  (∀ lib, lib ∈ children self → barcode_lib_ready lib) →
  ∃ bcm,
    combine_barcode_maps self st = (Ok tt, <[barcodemap_key := bcm]> st) ∧
    merged_frame (children self) bcm.
Proof.
  intros Hguard Hne Hlibs.
  assert (Forall barcode_lib_ready (children self)) as Hready.
  { apply Forall_forall. intros lib Hlib. by apply Hlibs. }
  destruct (children self) as [|lib0 rest] eqn:Hch; [done|].
  apply Forall_cons in Hready as [Hlib0 Hrest].
  pose proof Hlib0 as (df0 & Hdf0 & Hbm0).
  destruct (combine_fold_spec rest [lib0] df0) as (bcm & Hfold & Hmf);
    [by repeat constructor|by apply merged_frame_first|done|].
  destruct (sort_values_spec (lib0 :: rest) bcm)
    as (sorted & Hsort & Hms & _); [by constructor|done|].
  exists sorted. split; [|done].
  unfold combine_barcode_maps.
  erewrite bind_ok; [|by apply check_store_false]. cbv beta iota.
  erewrite bind_ok.
  2:{ unfold lift. rewrite Hch, fold_result_cons.
      unfold combine_step at 2, lib_select. rewrite Hdf0. simpl.
      by rewrite Hfold. }
  cbv beta iota. by erewrite bind_ok; [|unfold lift; by rewrite Hsort].
Qed.

(** X27: [combine_barcode_maps] followed by [barcodemap_mapping].  The
    barcodes that the mapping gives an identifier are exactly the
    barcodes of the children's raw maps whose first target that is not
    null, in the order of the children, is that identifier. *)
Theorem combine_then_barcodemap_mapping self st :
  (st !! barcodemap_key = None ∨ force_recalculate self = true) →
  children self ≠ [] →
  (∀ lib, lib ∈ children self → barcode_lib_ready lib) →
  ∃ st' mapping,
    combine_barcode_maps self st = (Ok tt, st') ∧
    barcodemap_mapping self st' = (Ok mapping, st') ∧
    ∀ v b, b ∈ default [] (mapping !! v) ↔
           (∃ lib, lib ∈ children self ∧ b ∈ raw_index lib) ∧
           first_seen (children self) b = Str v.
Proof.
  intros Hguard Hne Hlibs.
  destruct (combine_barcode_maps_run self st Hguard Hne Hlibs)
    as (bcm & Hrun & Hcols & Hnd & Hrows & Hall).
  exists (<[barcodemap_key := bcm]> st). eexists. split; [done|].
  unfold barcodemap_mapping.
  erewrite bind_ok; [|unfold store_select; by rewrite lookup_insert_eq].
  erewrite bind_ok; [|unfold lift, get_col; by rewrite Hcols]. 
  split; [done|].
  unfold index. rewrite zip_fmap_same.
  match goal with
  | |- context [foldl ?f ∅ ?l] =>
      destruct (barcodemap_fold l) as [Hin _]
  end.
  cbv zeta in Hin. intros v b. rewrite Hin, list_elem_of_fmap. split.
  - intros ([b' cs] & [= -> Hc] & Hr). simpl in Hc.
    destruct (Hrows _ _ Hr) as [-> Hlib]. split; [done|].
    simpl in Hc. by rewrite <-Hc.
  - intros [(lib & Hlib & Hb) Hv].
    pose proof (Hall b lib Hlib Hb) as ([b' cs] & -> & Hr)%list_elem_of_fmap.
    exists (b', cs). split; [|done].
    destruct (Hrows _ _ Hr) as [-> _]. simpl in *. by rewrite Hv.
Qed.

Lemma combine_then_barcodemap_mapping_witness :
  ∃ st' mapping,
    combine_barcode_maps example_barcode_selection ∅ = (Ok tt, st') ∧
    barcodemap_mapping example_barcode_selection st' = (Ok mapping, st') ∧
    ∀ v b, b ∈ default [] (mapping !! v) ↔
           (∃ lib, lib ∈ children example_barcode_selection ∧
                   b ∈ raw_index lib) ∧
           first_seen (children example_barcode_selection) b = Str v.
Proof.
  apply (combine_then_barcodemap_mapping example_barcode_selection ∅).
  - by left.
  - by vm_compute.
  - apply Forall_forall.
    replace (children example_barcode_selection)
      with [example_barcode_lib "a" [("AAA", "v1"); ("CCC", "v2")];
            example_barcode_lib "b" [("AAA", "v9"); ("GGG", "v0")]]
      by (by vm_compute).
    repeat apply Forall_cons_2; try apply Forall_nil_2;
      (eexists; split; [by vm_compute|]);
      (split; [done|]); (split; [compute_done|]);
      repeat constructor; by eexists.
Defined.

(** ** Each stage and its own table *)

(** X28: whether it returns or raises, each stage of the pipeline
    changes no key of the store other than its destination:
    [merge_counts_unfiltered] the unfiltered counts of its label,
    [filter_counts] the filtered counts, [combine_barcode_maps] the
    barcode map, and the checks before scoring nothing at all. *)
Theorem stages_write_own_key self label st k :
  (k ≠ counts_unfiltered_key label →
   (merge_counts_unfiltered self label st).2 !! k = st !! k) ∧
  (k ≠ counts_key label →
   (filter_counts self label st).2 !! k = st !! k) ∧
  (k ≠ barcodemap_key →
   (combine_barcode_maps self st).2 !! k = st !! k) ∧
  (ensure_main_count_tables_exist_and_populated self st).2 !! k = st !! k.
Proof.
  split; [|split; [|split]].
  - intros Hk.
    by apply (writes_only_merge_counts_unfiltered
                (λ k', k' = counts_unfiltered_key label)).
  - intros Hk.
    by apply (writes_only_filter_counts (λ k', k' = counts_key label)).
  - intros Hk.
    by apply (writes_only_combine_barcode_maps (λ k', k' = barcodemap_key)).
  - apply (writes_only_ensure (λ _, False)). tauto.
Qed.

(** ** Running the analysis again *)

Lemma barcodemap_key_ne_counts label : barcodemap_key ≠ counts_key label.
Proof.
  unfold counts_key, main_key, barcodemap_key. intros H.
  change "/main/barcodemap" with ("/main/" +:+ "" +:+ "barcodemap") in H.
  apply (inj (String.app _)) in H.
  by apply symmetry, (key_suffix_ne label "" "/counts" "barcodemap") in H;
    [|simpl; lia|].
Qed.

Lemma barcodemap_key_ne_counts_unfiltered label :
  barcodemap_key ≠ counts_unfiltered_key label.
Proof.
  unfold counts_unfiltered_key, main_key, barcodemap_key. intros H.
  change "/main/barcodemap" with ("/main/" +:+ "" +:+ "barcodemap") in H.
  apply (inj (String.app _)) in H.
  by apply (key_suffix_ne "" label "barcodemap" "/counts_unfiltered") in H;
    [|simpl; lia|].
Qed.

Lemma filter_counts_fixed self label st unf df :
  st !! counts_unfiltered_key label = Some unf →
  astype_float (dropna_any unf) = Ok df →
  st !! counts_key label = Some df →
  filter_counts self label st = (Ok tt, st).
Proof.
  intros Hunf Hdf Hflt. rewrite filter_counts_unfold, Hunf, Hdf.
  by rewrite insert_id.
Qed.

Lemma combine_barcode_maps_Ok_inv self st st' :
  force_recalculate self = false →
  combine_barcode_maps self st = (Ok tt, st') →
  is_Some (st' !! barcodemap_key) ∧
  (st' = st ∨ ∃ bcm, st' = <[barcodemap_key := bcm]> st).
Proof.
  intros Hforce. unfold combine_barcode_maps.
  rewrite (bind_ok _ _ _ _ _ (check_store_run _ _ _)), Hforce.
  destruct (st !! barcodemap_key) as [old|] eqn:Hold; simpl.
  - intros [= <-]. rewrite Hold. split; [by eauto|by left].
  - intros (bcm & st1 & Hfold & Hrun)%bind_Ok_inv.
    assert (st1 = st) by (unfold lift in Hfold; congruence). subst st1.
    destruct bcm as [bcm|]; [|done].
    apply bind_Ok_inv in Hrun as (sorted & st2 & Hsort & Hput).
    assert (st2 = st) by (unfold lift in Hsort; congruence). subst st2.
    unfold store_put in Hput. injection Hput as <-.
    rewrite lookup_insert_eq. split; [by eauto|]. right. by exists sorted.
Qed.

(** X29: in [counts] mode and without forced recalculation, an analysis
    of one label that has returned normally can be run again on the store
    it left: the second run returns normally and leaves that store as it
    is. *)
Theorem calculate_counts_rerun scorer protein_variant norm_sf self label
    st st' :
  labels self = [label] →
  scoring_method self = "counts" →
  force_recalculate self = false →
  calculate scorer protein_variant norm_sf self st = (Ok tt, st') →
  calculate scorer protein_variant norm_sf self st' = (Ok tt, st').
Proof.
  intros Hlabels Hcounts Hforce Hrun.
  unfold calculate in Hrun |- *. rewrite Hlabels, Hcounts in *.
  cbn [length for_each] in *. rewrite decide_False in * by done.
  rewrite decide_True in * by done.
  replace (bool_decide ("counts" ∈ ["ratios"; "WLS"; "OLS"])) with false
    in * by done.
  cbn [andb] in *.
  apply bind_Ok_inv in Hrun as ([] & st0 & H0 & Hrun).
  assert (st0 = st) by (unfold ret in H0; congruence). subst st0.
  apply bind_Ok_inv in Hrun as ([] & st2 & Hloop & Hrun).
  apply bind_Ok_inv in Hloop as ([] & st2' & Hbody & Hret).
  assert (st2' = st2) by (unfold ret in Hret; congruence). subst st2'.
  apply bind_Ok_inv in Hbody as ([] & st1 & Hmerge & Hfilter).
  apply bind_Ok_inv in Hrun as ([] & st3 & Hcombine & Hrun).
  apply bind_Ok_inv in Hrun as ([] & st4 & Hensure & Hrun).
  pose proof Hensure as Hensure'.
  apply ensure_Ok_inv in Hensure' as [-> _].
  apply bind_Ok_inv in Hrun as ([] & st5 & Htcv & Hrun).
  assert (st5 = st3) by (unfold lift in Htcv; congruence). subst st5.
  apply bind_Ok_inv in Hrun as ([] & st6 & Hscore & Hrun).
  assert (st6 = st3) by (unfold ret in Hscore; congruence). subst st6.
  assert (st' = st3) by (unfold ret in Hrun; congruence). subst st'.
  (* what the first run left in the store *)
  rewrite filter_counts_unfold in Hfilter.
  destruct (st1 !! counts_unfiltered_key label) as [unf|] eqn:Hunf;
    [|done].
  destruct (astype_float (dropna_any unf)) as [df|] eqn:Hdf; [|done].
  injection Hfilter as <-.
  assert (st3 !! counts_unfiltered_key label = Some unf ∧
          st3 !! counts_key label = Some df) as [Hunf3 Hflt3].
  { assert (st3 = <[counts_key label := df]> st1 ∨
            ∃ bcm, st3 = <[barcodemap_key := bcm]>
                           (<[counts_key label := df]> st1)) as Hst3.
    { destruct (is_barcodevariant self || is_barcodeid self).
      - by apply combine_barcode_maps_Ok_inv in Hcombine as [_ ?].
      - left. unfold ret in Hcombine. congruence. }
    destruct Hst3 as [->|[bcm ->]].
    - rewrite lookup_insert_ne by apply counts_key_ne_unfiltered.
      by rewrite lookup_insert_eq.
    - rewrite !(lookup_insert_ne _ barcodemap_key)
        by (apply barcodemap_key_ne_counts_unfiltered
            || apply barcodemap_key_ne_counts).
      rewrite lookup_insert_ne by apply counts_key_ne_unfiltered.
      by rewrite lookup_insert_eq. }
  (* the second run *)
  erewrite bind_ok; [|reflexivity].
  erewrite bind_ok.
  2: { erewrite bind_ok; [reflexivity|].
       erewrite bind_ok;
         [|apply merge_counts_unfiltered_found; [by eauto|done]].
       by eapply filter_counts_fixed. }
  erewrite bind_ok.
  2: { destruct (is_barcodevariant self || is_barcodeid self);
         [|reflexivity].
       apply combine_barcode_maps_Ok_inv in Hcombine as [Hbk _]; [|done].
       unfold combine_barcode_maps.
       by erewrite bind_ok; [|by apply check_store_true]. }
  erewrite bind_ok; [|exact Hensure].
  erewrite bind_ok; [|exact Htcv].
  by erewrite bind_ok; [|reflexivity].
Qed.

Lemma calculate_counts_rerun_witness :
  calculate (λ _ _ _ _, Raise (KeyError "")) id id example_selection
    (calculate (λ _ _ _ _, Raise (KeyError "")) id id example_selection ∅).2
  = (Ok tt,
     (calculate (λ _ _ _ _, Raise (KeyError "")) id id example_selection
        ∅).2).
Proof.
  apply (calculate_counts_rerun (λ _ _ _ _, Raise (KeyError "")) id id
           example_selection "variants" ∅).
  - done.
  - done.
  - done.
  - by vm_compute.
Defined.
